(** * lamassu-dashboard: certificate chain resolver and ASN.1 decoder views

    A shallow embedding of
    - [src/app/certificates/details/CertificateDetailsClient.tsx]
      ([buildCertificateChainPem], [certificateChainForVisualizer]) and
    - [src/components/shared/asn1/ASN1DecoderComponent.tsx]
      ([parseASN1Tree], [formatHexDump], and the [decode] callback of the
      [useASN1Decoder] hook with its helpers [getBytesFromData],
      [generateASN1Structure], [generateHexDump], [generateBase64],
      [detectContentType]).

    JavaScript strings are modelled as [string]: sequences of 8-bit code
    units.  A Rocq string literal has no escapes, so ["\n"] below is the
    two characters backslash and n; a line feed is [LF]. *)

From Stdlib Require Import String Ascii List Bool Arith NArith Lia DecimalString.
From Stdlib Require Strings.Byte DecimalNat.
From Stdlib Require Import QArith.
Import ListNotations.
Close Scope Q_scope.
Open Scope string_scope.

(** ** JavaScript control flow *)

(** One turn of a loop body either falls through to the next test of the
    loop condition or leaves the loop with [break]. *)
Inductive flow (S : Type) : Type :=
| Next (s : S)
| Break (s : S).
Arguments Next {S} s.
Arguments Break {S} s.

(** [while (cond) body].  [None] means that [fuel] turns were not enough
    for the loop to finish. *)
Fixpoint while {S : Type} (fuel : nat) (cond : S -> bool)
         (body : S -> flow S) (s : S) : option S :=
  match fuel with
  | O => None
  | Datatypes.S fuel' =>
      if cond s then
        match body s with
        | Next s' => while fuel' cond body s'
        | Break s' => Some s'
        end
      else Some s
  end.

(** Truthiness of a possibly missing string: [undefined], [null] and the
    empty string are falsy. *)
Definition truthy (s : option string) : bool :=
  match s with
  | Some v => negb (v =? "")
  | None => false
  end.

(** The line feed character, written '\n' in the source. *)
Definition LF : string := String (ascii_of_nat 10) "".

(** [Array.prototype.join]. *)
Fixpoint join (sep : string) (l : list string) : string :=
  match l with
  | [] => ""
  | [x] => x
  | x :: rest => x ++ sep ++ join sep rest
  end.

(** ** Chain resolver *)

Module Chain.

(** Modelled from the spec: the [CA] record of [lib/ca-data] (a type
    declaration that is not under src/), with the fields the resolver reads:
    identifier, subject name, issuer identifier and PEM text. *)
Record CA : Type := mkCA {
  ca_id : string;
  ca_name : string;
  ca_issuer : option string;
  ca_pemData : option string
}.

(** Modelled from the spec: the [CertificateData] record of
    [types/certificate] (a type declaration that is not under src/), with the
    fields the resolver reads. *)
Record CertificateData : Type := mkCert {
  cert_pemData : option string;
  cert_issuerCaId : option string
}.

Definition maxDepth : nat := 10.

(** [issuerCa.issuer === 'Self-signed' || !issuerCa.issuer ||
     issuerCa.id === issuerCa.issuer] *)
Definition isSelfSigned (issuerCa : CA) : bool :=
  match ca_issuer issuerCa with
  | Some i => (i =? "Self-signed") || negb (truthy (Some i)) || (ca_id issuerCa =? i)
  | None => true
  end.

Section Resolver.

(** [findCaById] of [lib/ca-data] is not under src/: the resolver is
    parametrised by it. *)
Variable findCaById : string -> list CA -> option CA.

Definition lookupIssuer (currentIssuerId : option string) (allCAs : list CA)
  : option CA :=
  match currentIssuerId with
  | Some i => findCaById i allCAs
  | None => None
  end.

(** *** [certificateChainForVisualizer] *)

Record vstate : Type := mkV {
  v_path : list CA;
  v_currentIssuerId : option string;
  v_safetyNet : nat
}.

(** [currentIssuerId && safetyNet < maxDepth] *)
Definition v_cond (st : vstate) : bool :=
  truthy (v_currentIssuerId st) && Nat.ltb (v_safetyNet st) maxDepth.

Definition v_body (allCAs : list CA) (st : vstate) : flow vstate :=
  match lookupIssuer (v_currentIssuerId st) allCAs with
  | None => Break st
  | Some issuerCa =>
      (* path.unshift(issuerCa) *)
      let path := issuerCa :: v_path st in
      if isSelfSigned issuerCa then
        Break (mkV path (v_currentIssuerId st) (v_safetyNet st))
      else
        Next (mkV path (ca_issuer issuerCa) (S (v_safetyNet st)))
  end.

(** The chain shown by the visualizer; [None] when [fuel] turns are not
    enough for the loop to finish. *)
Definition certificateChainForVisualizer (fuel : nat)
           (certificateDetails : option CertificateData) (allCAs : list CA)
  : option (list CA) :=
  match certificateDetails with
  | None => Some []
  | Some details =>
      if Nat.eqb (length allCAs) 0 then Some []
      else
        option_map v_path
          (while fuel v_cond (v_body allCAs)
                 (mkV [] (cert_issuerCaId details) 0))
  end.

(** *** [buildCertificateChainPem] *)

Record pstate : Type := mkP {
  p_chain : list string;
  p_currentIssuerId : option string;
  p_safetyNet : nat
}.

Definition p_cond (st : pstate) : bool :=
  truthy (p_currentIssuerId st) && Nat.ltb (p_safetyNet st) maxDepth.

Definition p_body (allCAs : list CA) (st : pstate) : flow pstate :=
  match lookupIssuer (p_currentIssuerId st) allCAs with
  | None => Break st
  | Some issuerCa =>
      if negb (truthy (ca_pemData issuerCa)) then Break st
      else
        (* chain.push(issuerCa.pemData) *)
        let chain := (p_chain st ++ [match ca_pemData issuerCa with
                                     | Some p => p
                                     | None => ""
                                     end])%list in
        if isSelfSigned issuerCa then
          Break (mkP chain (p_currentIssuerId st) (p_safetyNet st))
        else
          Next (mkP chain (ca_issuer issuerCa) (S (p_safetyNet st)))
  end.

(** The separator is written ['\\n\\n'] in the source: an escaped backslash
    followed by n, twice, that is the four characters below. *)
Definition chainSeparator : string := "\n\n".

(** The text of the full chain; [None] when [fuel] turns are not enough for
    the loop to finish. *)
Definition buildCertificateChainPem (fuel : nat)
           (targetCert : option CertificateData) (allCAs : list CA)
  : option string :=
  match targetCert with
  | None => Some ""
  | Some cert =>
      match cert_pemData cert with
      | None => Some ""
      | Some pem =>
          if negb (truthy (Some pem)) then Some ""
          else
            option_map (fun st => join chainSeparator (p_chain st))
              (while fuel p_cond (p_body allCAs)
                     (mkP [pem] (cert_issuerCaId cert) 0))
      end
  end.

End Resolver.

(** Modelled from the spec: [findCaById] of [lib/ca-data] (not under src/),
    "look up the CA with that id in allCas": the first record of the list
    whose identifier is the key. *)
Fixpoint findCaByIdFlat (caId : string) (allCAs : list CA) : option CA :=
  match allCAs with
  | [] => None
  | ca :: rest => if ca_id ca =? caId then Some ca else findCaByIdFlat caId rest
  end.

(** A CA record inspected as the leaf of its own chain: the walk starts from
    its issuer reference. *)
Definition caAsLeaf (ca : CA) : CertificateData :=
  mkCert (ca_pemData ca) (ca_issuer ca).

End Chain.

(** ** JavaScript strings *)

Module Js.
Local Open Scope nat_scope.

Definition code (c : ascii) : nat := nat_of_ascii c.

(** The white space of [\s] and of [String.prototype.trim] among 8-bit code
    units: TAB, LF, VT, FF, CR, SPACE and NO-BREAK SPACE. *)
Definition isSpace (c : ascii) : bool :=
  let n := code c in
  ((9 <=? n) && (n <=? 13)) || (n =? 32) || (n =? 160).

Definition isDigit (c : ascii) : bool :=
  let n := code c in (48 <=? n) && (n <=? 57).

Definition isUpper (c : ascii) : bool :=
  let n := code c in (65 <=? n) && (n <=? 90).

Definition isLower (c : ascii) : bool :=
  let n := code c in (97 <=? n) && (n <=? 122).

(** [[0-9A-Fa-f]] *)
Definition isHexDigit (c : ascii) : bool :=
  let n := code c in
  isDigit c || ((65 <=? n) && (n <=? 70)) || ((97 <=? n) && (n <=? 102)).

(** [.] matches every character but the line terminators. *)
Definition isNotLineTerminator (c : ascii) : bool :=
  let n := code c in negb ((n =? 10) || (n =? 13)).

Fixpoint trimStart (s : string) : string :=
  match s with
  | String c s' => if isSpace c then trimStart s' else s
  | EmptyString => EmptyString
  end.

(** Drops trailing white space: a character is kept when something that is
    not white space follows or it is not white space itself. *)
Fixpoint trimEnd (s : string) : string :=
  match s with
  | String c s' =>
      match trimEnd s' with
      | EmptyString => if isSpace c then EmptyString else String c EmptyString
      | t => String c t
      end
  | EmptyString => EmptyString
  end.

Definition trim (s : string) : string := trimEnd (trimStart s).

(** [s.includes(needle)] *)
Fixpoint includes (s needle : string) : bool :=
  prefix needle s ||
  match s with
  | String _ s' => includes s' needle
  | EmptyString => false
  end.

(** [toUpperCase] on ASCII text: the letters a-z are mapped to A-Z, every
    other code unit is left as it is. *)
Definition upperChar (c : ascii) : ascii :=
  if isLower c then ascii_of_nat (code c - 32) else c.

Fixpoint toUpperCase (s : string) : string :=
  match s with
  | String c s' => String (upperChar c) (toUpperCase s')
  | EmptyString => EmptyString
  end.

(** [s.split('\n')] *)
Fixpoint splitLines (s : string) : list string :=
  match s with
  | EmptyString => [EmptyString]
  | String c s' =>
      if code c =? 10 then EmptyString :: splitLines s'
      else match splitLines s' with
           | l :: rest => String c l :: rest
           | [] => [String c EmptyString]
           end
  end.

(** [s.replace(/\s/g, '')] *)
Fixpoint removeSpaces (s : string) : string :=
  match s with
  | String c s' => if isSpace c then removeSpaces s' else String c (removeSpaces s')
  | EmptyString => EmptyString
  end.

Fixpoint digitsValue (base : nat) (acc : nat) (s : string) : nat :=
  match s with
  | String c s' =>
      let n := code c in
      let d := if isDigit c then n - 48
               else if n <? 97 then n - 55 else n - 87 in
      digitsValue base (acc * base + d) s'
  | EmptyString => acc
  end.

(** [parseInt(s, base)] on a string of digits of that base. *)
Definition parseInt (s : string) (base : nat) : nat := digitsValue base 0 s.

End Js.

(** ** Regular expressions

    A backtracking matcher with the greedy, leftmost semantics of
    JavaScript's [RegExp]. *)

Module Regex.
Local Open Scope nat_scope.

Inductive regex : Type :=
| Eps
| Chr (a : ascii)
| Cls (p : ascii -> bool)
| Cat (r1 r2 : regex)
| Alt (r1 r2 : regex)
| Star (r : regex)
| Grp (i : nat) (r : regex)
| Eol.

Definition captures : Type := list (nat * string).

(** The text between two positions of one subject, the later one given by
    what is left of the subject there. *)
Definition consumed (s rest : string) : string :=
  substring 0 (String.length s - String.length rest) s.

Fixpoint run {R : Type} (r : regex) (s : string) (c : captures)
         (k : string -> captures -> option R) {struct r} : option R :=
  match r with
  | Eps => k s c
  | Chr a =>
      match s with
      | String b s' => if Ascii.eqb a b then k s' c else None
      | EmptyString => None
      end
  | Cls p =>
      match s with
      | String b s' => if p b then k s' c else None
      | EmptyString => None
      end
  | Cat r1 r2 => run r1 s c (fun s' c' => run r2 s' c' k)
  | Alt r1 r2 =>
      match run r1 s c k with
      | Some x => Some x
      | None => run r2 s c k
      end
  | Star r1 =>
      (fix loop (n : nat) (s : string) (c : captures) {struct n} : option R :=
         match n with
         | O => k s c
         | S n' =>
             match run r1 s c
                       (fun s' c' =>
                          if Nat.ltb (String.length s') (String.length s)
                          then loop n' s' c' else None) with
             | Some x => Some x
             | None => k s c
             end
         end) (String.length s) s c
  | Grp i r1 => run r1 s c (fun s' c' => k s' ((i, consumed s s') :: c'))
  | Eol =>
      match s with
      | EmptyString => k s c
      | String _ _ => None
      end
  end.

(** Literal text. *)
Fixpoint Lit (s : string) : regex :=
  match s with
  | String a s' => Cat (Chr a) (Lit s')
  | EmptyString => Eps
  end.

(** [r+] *)
Definition Plus (r : regex) : regex := Cat r (Star r).

(** [r?] *)
Definition Opt (r : regex) : regex := Alt r Eps.

(** [r{n}] *)
Fixpoint Times (n : nat) (r : regex) : regex :=
  match n with
  | O => Eps
  | S n' => Cat r (Times n' r)
  end.

(** [r{0,n}] *)
Fixpoint UpTo (n : nat) (r : regex) : regex :=
  match n with
  | O => Eps
  | S n' => Opt (Cat r (UpTo n' r))
  end.

(** [r{lo,hi}] *)
Definition Range (lo hi : nat) (r : regex) : regex :=
  Cat (Times lo r) (UpTo (hi - lo) r).

Fixpoint seq (l : list regex) : regex :=
  match l with
  | [] => Eps
  | [r] => r
  | r :: rest => Cat r (seq rest)
  end.

Fixpoint alts (l : list regex) : regex :=
  match l with
  | [] => Cls (fun _ => false)
  | [r] => r
  | r :: rest => Alt r (alts rest)
  end.

(** A match at the start of the subject: what is left after it and the
    groups.  A pattern that begins with [^] is matched this way. *)
Definition matchAt (r : regex) (s : string) : option (string * captures) :=
  run r s [] (fun s' c => Some (s', c)).

Record found : Type := mkFound {
  f_index : nat;
  f_text : string;
  f_rest : string;
  f_groups : captures
}.

(** The leftmost match of a pattern without [^]. *)
Fixpoint searchFrom (r : regex) (i : nat) (s : string) : option found :=
  match matchAt r s with
  | Some (rest, c) => Some (mkFound i (consumed s rest) rest c)
  | None =>
      match s with
      | String _ s' => searchFrom r (S i) s'
      | EmptyString => None
      end
  end.

Definition search (r : regex) (s : string) : option found := searchFrom r 0 s.

Fixpoint group (i : nat) (c : captures) : option string :=
  match c with
  | [] => None
  | (j, t) :: rest => if Nat.eqb i j then Some t else group i rest
  end.

(** [re.test(s)] for a pattern that begins with [^]. *)
Definition testAt (r : regex) (s : string) : bool :=
  match matchAt r s with Some _ => true | None => false end.

(** [s.replace(re, '')] for a pattern without the [g] flag: the leftmost match
    is removed. *)
Definition removeFirst (r : regex) (s : string) : string :=
  match search r s with
  | Some f => substring 0 (f_index f) s ++ f_rest f
  | None => s
  end.

(** [s.split(re)] for a separator pattern that matches no empty text. *)
Fixpoint splitFrom (r : regex) (cur : string) (fuel : nat) (s : string)
  : list string :=
  match fuel with
  | O => [cur ++ s]
  | S fuel' =>
      match s with
      | EmptyString => [cur]
      | String a s' =>
          match matchAt r s with
          | Some (rest, _) =>
              if Nat.ltb (String.length rest) (String.length s)
              then cur :: splitFrom r "" fuel' rest
              else splitFrom r (cur ++ String a "") fuel' s'
          | None => splitFrom r (cur ++ String a "") fuel' s'
          end
      end
  end.

Definition split (r : regex) (s : string) : list string :=
  splitFrom r "" (S (String.length s)) s.

End Regex.

(** ** The ASN.1 tree and hex dump views of [ASN1DecoderComponent] *)

Module Asn1View.
Import Regex.
Local Open Scope N_scope.

Definition hexOrSpace (c : ascii) : bool := Js.isHexDigit c || Js.isSpace c.

(** [/^\s*/] *)
Definition reLeadingSpace : regex := Star (Cls Js.isSpace).

(** [/(SEQUENCE|SET|OBJECT IDENTIFIER|INTEGER|BIT STRING|OCTET STRING|UTF8String|PrintableString|UTCTime|GeneralizedTime|NULL|BOOLEAN|ENUMERATED)/] *)
Definition reType : regex :=
  Grp 1 (alts (map Lit
    ["SEQUENCE"; "SET"; "OBJECT IDENTIFIER"; "INTEGER"; "BIT STRING";
     "OCTET STRING"; "UTF8String"; "PrintableString"; "UTCTime";
     "GeneralizedTime"; "NULL"; "BOOLEAN"; "ENUMERATED"])).

(** [/\[\+([0-9A-Fa-f]+)\]/] *)
Definition reBytePosition : regex :=
  seq [Lit "[+"; Grp 1 (Plus (Cls Js.isHexDigit)); Lit "]"].

(** [/l=(\d+)/] *)
Definition reLength : regex := seq [Lit "l="; Grp 1 (Plus (Cls Js.isDigit))].

(** The capture group 1 of the leftmost match. *)
Definition firstGroup (r : regex) (s : string) : option string :=
  match search r s with
  | Some f => group 1 (f_groups f)
  | None => None
  end.

(** [Math.ceil(Math.log2(n) / 8)] for [n >= 1], as the exact value over the
    reals: the least [k] with [n <= 2^(8k)].  The source computes in double
    precision; this and [byteEndOf] are its values for positions and lengths
    below 2^32, where no rounding takes place. *)
Definition ceilLog2Div8 (n : N) : N := (N.log2_up n + 7) / 8.

(** [byteStart + 1 + (contentLength > 127 ?
       Math.ceil(Math.log2(contentLength) / 8) + 1 : 1) + contentLength] *)
Definition byteEndOf (byteStart contentLength : N) : N :=
  byteStart + 1
  + (if 127 <? contentLength then ceilLog2Div8 contentLength + 1 else 1)
  + contentLength.

(** The pair [byteStart], [byteEnd] computed from a trimmed line. *)
Definition byteRangeOfLine (trimmedLine : string) : option N * option N :=
  match firstGroup reBytePosition trimmedLine with
  | Some hex =>
      let byteStart := N.of_nat (Js.parseInt hex 16) in
      match firstGroup reLength trimmedLine with
      | Some digits =>
          let contentLength := N.of_nat (Js.parseInt digits 10) in
          (Some byteStart, Some (byteEndOf byteStart contentLength))
      | None => (Some byteStart, Some (byteStart + 2))
      end
  | None => (None, None)
  end.

#[local] Set Warnings "-register-all".

(** [indentLevel2] is twice the source's [indentLevel]: the source divides
    the number of leading white-space characters by 2, which is not always
    an integer; levels are only ever compared with each other. *)
Inductive ASN1TreeNode : Type := mkNode {
  n_id : string;
  n_line : string;
  n_indentLevel2 : nat;
  n_children : list ASN1TreeNode;
  n_hasChildren : bool;
  n_type : option string;
  n_byteStart : option N;
  n_byteEnd : option N
}.

Definition indentLevel2 (line : string) : nat :=
  match matchAt reLeadingSpace line with
  | Some (rest, _) => String.length (consumed line rest)
  | None => 0%nat
  end.

Definition decimal (n : nat) : string :=
  NilEmpty.string_of_uint (Nat.to_uint n).

(** The node built for the line of a given index, before it is linked to its
    parent; [next] is the following line, when there is one. *)
Definition nodeOfLine (index : nat) (line : string) (next : option string)
  : ASN1TreeNode :=
  let trimmedLine := Js.trim line in
  let range := byteRangeOfLine trimmedLine in
  mkNode ("node-" ++ decimal index) trimmedLine (indentLevel2 line) []
         (match next with
          | Some nextLine => Nat.ltb (indentLevel2 line) (indentLevel2 nextLine)
          | None => false
          end)
         (firstGroup reType trimmedLine) (fst range) (snd range).

(** [parent.children.push(node); parent.hasChildren = true] *)
Definition addChild (parent child : ASN1TreeNode) : ASN1TreeNode :=
  mkNode (n_id parent) (n_line parent) (n_indentLevel2 parent)
         (n_children parent ++ [child]) true
         (n_type parent) (n_byteStart parent) (n_byteEnd parent).

(** The nodes of the source are shared between the result and the stack and
    are completed in place.  Here a node on the stack is still open; it is
    handed to its parent, the entry below it, or to the roots when it is
    popped. *)
Record builder : Type := mkBuilder {
  b_nodes : list ASN1TreeNode;
  b_stack : list ASN1TreeNode
}.

Definition closeTop (b : builder) : builder :=
  match b_stack b with
  | [] => b
  | [top] => mkBuilder (b_nodes b ++ [top]) []
  | top :: parent :: rest => mkBuilder (b_nodes b) (addChild parent top :: rest)
  end.

(** [while (stack.length > 0 && stack[stack.length - 1].level >= indentLevel)
      stack.pop()] *)
Fixpoint popTo (fuel : nat) (level2 : nat) (b : builder) : builder :=
  match fuel with
  | O => b
  | S fuel' =>
      match b_stack b with
      | top :: _ =>
          if Nat.leb level2 (n_indentLevel2 top)
          then popTo fuel' level2 (closeTop b) else b
      | [] => b
      end
  end.

Definition pushNode (node : ASN1TreeNode) (b : builder) : builder :=
  let b' := popTo (List.length (b_stack b)) (n_indentLevel2 node) b in
  mkBuilder (b_nodes b') (node :: b_stack b').

Fixpoint closeAll (fuel : nat) (b : builder) : builder :=
  match fuel with
  | O => b
  | S fuel' => closeAll fuel' (closeTop b)
  end.

Fixpoint buildFrom (index : nat) (lines : list string) (b : builder) : builder :=
  match lines with
  | [] => b
  | line :: rest =>
      buildFrom (S index) rest
                (pushNode (nodeOfLine index line (List.hd_error rest)) b)
  end.

Definition parseASN1Tree (structure : string) : list ASN1TreeNode :=
  let lines :=
    filter (fun line => negb (String.eqb (Js.trim line) ""))
           (Js.splitLines structure) in
  let b := buildFrom 0 lines (mkBuilder [] []) in
  b_nodes (closeAll (List.length (b_stack b)) b).

(** A node and all the nodes below it, parents before children. *)
Fixpoint subtree (n : ASN1TreeNode) : list ASN1TreeNode :=
  n :: flat_map subtree (n_children n).

(** All the nodes of a forest. *)
Definition allNodes (l : list ASN1TreeNode) : list ASN1TreeNode :=
  flat_map subtree l.

(** A node whose byte range is the one computed from its line. *)
Definition carriesRangeOfLine (n : ASN1TreeNode) : Prop :=
  (n_byteStart n, n_byteEnd n) = byteRangeOfLine (n_line n).

(** The same of every node a builder holds. *)
Definition builderRanges (b : builder) : Prop :=
  Forall carriesRangeOfLine (allNodes (b_nodes b))
  /\ Forall carriesRangeOfLine (allNodes (b_stack b)).

(** *** [formatHexDump] *)

(** The pattern of a dump line with an offset: at the start of the line a
    group of 4 to 8 of [[0-9a-fA-F]], a colon, [\s+], a group
    [[0-9a-fA-F\s]+], [\s+], and a group of any characters ([.], starred) up to
    the end of the line. *)
Definition reOffsetLine : regex :=
  seq [Grp 1 (Range 4 8 (Cls Js.isHexDigit)); Lit ":";
       Plus (Cls Js.isSpace);
       Grp 2 (Plus (Cls hexOrSpace));
       Plus (Cls Js.isSpace);
       Grp 3 (Star (Cls Js.isNotLineTerminator)); Eol].

(** [/\s+/] *)
Definition reSpaces : regex := Plus (Cls Js.isSpace).

(** [/^[0-9a-fA-F]{2}$/i] *)
Definition reHexPair : regex := seq [Times 2 (Cls Js.isHexDigit); Eol].

Record byteRange : Type := mkRange { r_start : N; r_end : N }.

(** A rendered hex byte: its text, its [currentBytePosition] and whether the
    hover style is applied to it. *)
Record hexToken : Type := mkToken {
  t_text : string;
  t_position : N;
  t_hovered : bool
}.

Inductive row : Type :=
| BlankRow
| OffsetRow (offset : string) (bytes : list hexToken) (asciiPart : string)
| HexRow (bytes : list hexToken)
| TextRow (line : string).

(** [hoveredByteRange && currentBytePosition >= hoveredByteRange.start &&
     currentBytePosition < hoveredByteRange.end] *)
Definition isHovered (hoveredByteRange : option byteRange)
           (currentBytePosition : N) : bool :=
  match hoveredByteRange with
  | Some r => (r_start r <=? currentBytePosition) && (currentBytePosition <? r_end r)
  | None => false
  end.

(** [hexBytes.map((byte, byteIndex) => ...)] *)
Fixpoint renderBytes (hoveredByteRange : option byteRange)
         (lineStartByteIndex : N) (byteIndex : N) (hexBytes : list string)
  : list hexToken :=
  match hexBytes with
  | [] => []
  | byte :: rest =>
      let currentBytePosition := lineStartByteIndex + byteIndex in
      mkToken (Js.toUpperCase byte) currentBytePosition
              (isHovered hoveredByteRange currentBytePosition)
        :: renderBytes hoveredByteRange lineStartByteIndex (byteIndex + 1) rest
  end.

Definition groupOr (i : nat) (c : captures) : string :=
  match group i c with Some t => t | None => "" end.

(** One call of the callback of [lines.map]: the row rendered for a line
    and the value of [absoluteByteIndex] it leaves.  In the branch of the
    lines with an offset the callback returns the row before it reaches
    [absoluteByteIndex += hexBytes.length], so the counter keeps its
    value. *)
Definition renderLine (hoveredByteRange : option byteRange)
           (absoluteByteIndex : N) (line : string) : row * N :=
  if String.eqb (Js.trim line) "" then (BlankRow, absoluteByteIndex)
  else
    match matchAt reOffsetLine line with
    | Some (_, groups) =>
        let offset := groupOr 1 groups in
        let hexPart := groupOr 2 groups in
        let asciiPart := groupOr 3 groups in
        let hexBytes :=
          filter (fun byte => Nat.eqb (String.length byte) 2)
                 (split reSpaces (Js.trim hexPart)) in
        let lineStartByteIndex := absoluteByteIndex in
        (OffsetRow offset
                   (renderBytes hoveredByteRange lineStartByteIndex 0 hexBytes)
                   asciiPart,
         absoluteByteIndex)
    | None =>
        let hexBytes :=
          filter (testAt reHexPair) (split reSpaces (Js.trim line)) in
        if Nat.ltb 0 (List.length hexBytes) then
          let lineStartByteIndex := absoluteByteIndex in
          (HexRow (renderBytes hoveredByteRange lineStartByteIndex 0 hexBytes),
           absoluteByteIndex + N.of_nat (List.length hexBytes))
        else (TextRow line, absoluteByteIndex)
    end.

Fixpoint renderLines (hoveredByteRange : option byteRange)
         (absoluteByteIndex : N) (lines : list string) : list row :=
  match lines with
  | [] => []
  | line :: rest =>
      let (r, next) := renderLine hoveredByteRange absoluteByteIndex line in
      r :: renderLines hoveredByteRange next rest
  end.

Definition formatHexDump (hoveredByteRange : option byteRange)
           (hexDump : string) : list row :=
  renderLines hoveredByteRange 0 (Js.splitLines hexDump).

(** The rendered hex bytes of a dump, in reading order. *)
Definition tokensOfRow (r : row) : list hexToken :=
  match r with
  | OffsetRow _ bytes _ => bytes
  | HexRow bytes => bytes
  | BlankRow | TextRow _ => []
  end.

Definition tokensOf (rows : list row) : list hexToken :=
  flat_map tokensOfRow rows.

End Asn1View.

(** ** Exceptions *)

(** A thrown value: an [Error] object with its message, or any other
    value. *)
Inductive thrown : Type :=
| ErrorObject (message : string)
| OtherValue (text : string).

(** A computation that returns a value or throws. *)
Definition exc (A : Type) : Type := (thrown + A)%type.

Definition bindExc {A B : Type} (m : exc A) (f : A -> exc B) : exc B :=
  match m with
  | inl e => inl e
  | inr a => f a
  end.

(** [try { body } catch (e) { handler(e) }] *)
Definition tryCatch {A : Type} (body : exc A) (handler : thrown -> exc A)
  : exc A :=
  match body with
  | inl e => handler e
  | inr a => inr a
  end.

Definition isThrown {A : Type} (m : exc A) : bool :=
  match m with inl _ => true | inr _ => false end.

Declare Scope exc_scope.
Delimit Scope exc_scope with exc.
Notation "'let*' x ':=' m 'in' f" := (bindExc m (fun x => f))
  (at level 10, x name, m at level 100, f at level 200) : exc_scope.

(** ** Base64 as [btoa] writes it *)

Module Base64Std.
Local Open Scope N_scope.

Definition alphabet : string :=
  "ABCDEFGHIJKLMNOPQRSTUVWXYZabcdefghijklmnopqrstuvwxyz0123456789+/".

Definition digit (i : N) : string :=
  match get (N.to_nat (N.land i 63)) alphabet with
  | Some c => String c ""
  | None => ""
  end.

(** RFC 4648 section 4: three bytes give four digits; a last group of one or
    two bytes is padded with [=]. *)
Fixpoint encode (l : list Byte.byte) : string :=
  match l with
  | [] => ""
  | [a] =>
      let n := N.shiftl (Byte.to_N a) 16 in
      digit (N.shiftr n 18) ++ digit (N.shiftr n 12) ++ "=="
  | [a; b] =>
      let n := N.lor (N.shiftl (Byte.to_N a) 16) (N.shiftl (Byte.to_N b) 8) in
      digit (N.shiftr n 18) ++ digit (N.shiftr n 12) ++ digit (N.shiftr n 6)
      ++ "="
  | a :: b :: c :: rest =>
      let n := N.lor (N.lor (N.shiftl (Byte.to_N a) 16)
                            (N.shiftl (Byte.to_N b) 8)) (Byte.to_N c) in
      digit (N.shiftr n 18) ++ digit (N.shiftr n 12) ++ digit (N.shiftr n 6)
      ++ digit n ++ encode rest
  end.

End Base64Std.

(** The built-in [btoa] on a binary string: the Base64 text of the bytes that
    are the code units of the string. *)
Definition btoa (binaryString : string) : string :=
  Base64Std.encode (map byte_of_ascii (list_ascii_of_string binaryString)).

(** ** The [useASN1Decoder] hook *)

Module Decoder.
Import Regex.
Local Open Scope Q_scope.
Local Open Scope string_scope.

(** *** The library [@lapo/asn1js]

    The repository declares the library's types; its code is not part of the
    repository.  The decoder is parametrised by the operations it calls. *)

(** [Base64.decode] and [Hex.decode]. *)
Record Codec : Type := mkCodec {
  Base64_decode : string -> exc (list Byte.byte);
  Hex_decode : string -> exc (list Byte.byte)
}.

(** [ASN1.decode(new Stream(bytes, 0)).toPrettyString()] and
    [new Stream(bytes, 0).hexDump(0, endPos, 'dump')]. *)
Record Parser : Type := mkParser {
  decodeToPrettyString : list Byte.byte -> exc string;
  hexDump : list Byte.byte -> N -> exc string
}.

Definition maxLength : N := 10240.

Definition notDash (c : ascii) : bool := negb (Ascii.eqb c "-").

(** [/-----BEGIN[^-]+-----/] *)
Definition reBegin : regex :=
  seq [Lit "-----BEGIN"; Plus (Cls notDash); Lit "-----"].

(** [/-----END[^-]+-----/] *)
Definition reEnd : regex :=
  seq [Lit "-----END"; Plus (Cls notDash); Lit "-----"].

(** [/^[0-9A-Fa-f\s]+$/] *)
Definition reHexText : regex := seq [Plus (Cls Asn1View.hexOrSpace); Eol].

(** The source encoding [getBytesFromData] selects for a text. *)
Inductive encoding : Type := PemArmor | HexText | Base64Text.

Definition hasArmor (trimmedData : string) : bool :=
  Js.includes trimmedData "-----BEGIN" && Js.includes trimmedData "-----END".

Definition detect (trimmedData : string) : encoding :=
  if hasArmor trimmedData then PemArmor
  else if testAt reHexText trimmedData then HexText
  else Base64Text.

(** [bytes[i] = trimmedData.charCodeAt(i)] for every [i] *)
Definition charCodes (s : string) : list Byte.byte :=
  map byte_of_ascii (list_ascii_of_string s).

(** [message] of [error instanceof Error ? error.message : 'Unknown error'] *)
Definition messageOf (error : thrown) : string :=
  match error with
  | ErrorObject message => message
  | OtherValue _ => "Unknown error"
  end.

Definition min (a b : N) : N := if (a <=? b)%N then a else b.

Definition decimalN (n : N) : string :=
  NilEmpty.string_of_uint (N.to_uint n).

Definition lengthN {A : Type} (l : list A) : N := N.of_nat (List.length l).

(** [trimmedData.replace(/-----BEGIN[^-]+-----/, '')
       .replace(/-----END[^-]+-----/, '').replace(/\s/g, '')] *)
Definition armorBody (trimmedData : string) : string :=
  Js.removeSpaces (removeFirst reEnd (removeFirst reBegin trimmedData)).

Section WithLibrary.

Variable codec : Codec.
Variable parser : Parser.

Definition getBytesFromData (data : string) : exc (list Byte.byte) :=
  let trimmedData := Js.trim data in
  match detect trimmedData with
  | PemArmor =>
      let base64Content := armorBody trimmedData in
      Base64_decode codec base64Content
  | HexText => Hex_decode codec trimmedData
  | Base64Text =>
      tryCatch (Base64_decode codec trimmedData)
               (fun _ => inr (charCodes trimmedData))
  end.

Definition generateHexDump (data : string) : exc string :=
  tryCatch
    (let* bytes := getBytesFromData data in
     let maxHexLength := 512%N in
     let endPos := min (lengthN bytes) maxHexLength in
     let* dump := hexDump parser bytes endPos in
     if (maxHexLength <? lengthN bytes)%N
     then inr (dump ++ "... (" ++ decimalN (lengthN bytes - maxHexLength)
                    ++ " more bytes)" ++ LF)
     else inr dump)%exc
    (fun error => inr ("Hex dump error: " ++ messageOf error)).

(** The text returned in place of the structure when parsing fails. *)
Definition parseErrorText (error : thrown) : string :=
  "Parse Error: " ++ messageOf error ++ LF
  ++ LF
  ++ "Supported formats:" ++ LF
  ++ "- PEM (-----BEGIN ... -----END ...)" ++ LF
  ++ "- Hexadecimal (space-separated or continuous)" ++ LF
  ++ "- Base64 encoded data" ++ LF
  ++ LF
  ++ "Make sure your input contains valid ASN.1 data.".

(** The body of the [try] of [generateASN1Structure]. *)
Definition parseStructure (data : string) : exc string :=
  (let* bytes := getBytesFromData data in
   decodeToPrettyString parser bytes)%exc.

Definition generateASN1Structure (data : string) : exc string :=
  tryCatch (parseStructure data) (fun error => inr (parseErrorText error)).

(** [binaryString += String.fromCharCode(bytes[i])] for every [i] *)
Definition binaryStringOf (bytes : list Byte.byte) : string :=
  string_of_list_ascii (map ascii_of_byte bytes).

Definition generateBase64 (data : string) : exc string :=
  tryCatch
    (let* bytes := getBytesFromData data in
     if (lengthN bytes <? maxLength)%N
     then inr (btoa (binaryStringOf bytes))
     else inr "")%exc
    (fun _ => inr "").

End WithLibrary.

(** *** Content type guesses *)

Record TypeDefinition : Type := mkType {
  description : string;
  matchValue : Q
}.

Definition detectContentType (content : string) : list TypeDefinition :=
  let upper := Js.toUpperCase content in
  if Js.includes upper "BEGIN CERTIFICATE" || Js.includes upper "CERTIFICATE" then
    [ mkType "X.509 Certificate" (95 # 100);
      mkType "PKCS#7/CMS Signature" (20 # 100);
      mkType "PKCS#8 Private Key" (10 # 100) ]
  else if Js.includes upper "BEGIN PRIVATE KEY" || Js.includes upper "PRIVATE KEY" then
    [ mkType "PKCS#8 Private Key" (92 # 100);
      mkType "PKCS#1 RSA Private Key" (85 # 100);
      mkType "X.509 Certificate" (15 # 100) ]
  else if Js.includes upper "BEGIN RSA PRIVATE KEY" then
    [ mkType "PKCS#1 RSA Private Key" (98 # 100);
      mkType "PKCS#8 Private Key" (75 # 100);
      mkType "X.509 Certificate" (10 # 100) ]
  else if Js.includes upper "BEGIN CERTIFICATE REQUEST" || Js.includes upper "CSR" then
    [ mkType "PKCS#10 Certificate Request" (95 # 100);
      mkType "X.509 Certificate" (30 # 100);
      mkType "PKCS#8 Private Key" (15 # 100) ]
  else if Js.includes upper "PKCS7" || Js.includes upper "CMS"
          || Js.includes content ".p7" then
    [ mkType "PKCS#7/CMS Signature" (90 # 100);
      mkType "PKCS#7/CMS Encrypted Data" (70 # 100);
      mkType "X.509 Certificate" (25 # 100) ]
  else
    [ mkType "ASN.1 DER Structure" (80 # 100);
      mkType "PKCS#12 Container" (40 # 100);
      mkType "Custom ASN.1 Format" (30 # 100) ].

(** [(a, b) => b.match - a.match] is not positive: [a] may stay before
    [b]. *)
Definition before (a b : TypeDefinition) : bool :=
  Qle_bool (matchValue b) (matchValue a).

Fixpoint insertSorted (a : TypeDefinition) (l : list TypeDefinition)
  : list TypeDefinition :=
  match l with
  | [] => [a]
  | b :: rest => if before a b then a :: b :: rest else b :: insertSorted a rest
  end.

(** [Array.prototype.sort] with the comparator above: a stable sort. *)
Fixpoint sortByMatch (l : list TypeDefinition) : list TypeDefinition :=
  match l with
  | [] => []
  | a :: rest => insertSorted a (sortByMatch rest)
  end.

(** *** [decode] *)

Record ASN1DecodedData : Type := mkData {
  content : string;
  structure : string;
  hexDumpText : option string;
  base64 : string;
  definitions : option (list TypeDefinition)
}.

(** The state of the hook that [decode] writes. *)
Record HookState : Type := mkHook {
  h_isLoading : bool;
  h_error : string;
  h_decodedData : option ASN1DecodedData;
  h_definitions : list TypeDefinition;
  h_selectedDefinition : string
}.

(** A computation on the state of the hook that returns or throws. *)
Definition hook (A : Type) : Type := HookState -> exc A * HookState.

Definition ret {A : Type} (a : A) : hook A := fun st => (inr a, st).

Definition bind {A B : Type} (m : hook A) (f : A -> hook B) : hook B :=
  fun st =>
    match m st with
    | (inl e, st') => (inl e, st')
    | (inr a, st') => f a st'
    end.

Definition lift {A : Type} (m : exc A) : hook A := fun st => (m, st).

Definition throw {A : Type} (e : thrown) : hook A := fun st => (inl e, st).

Definition tryCatchFinally {A : Type} (body : hook A)
           (handler : thrown -> hook A) (finalizer : hook unit) : hook A :=
  fun st =>
    let (r, st1) :=
      match body st with
      | (inl e, st') => handler e st'
      | (inr a, st') => (inr a, st')
      end in
    match finalizer st1 with
    | (inl e, st2) => (inl e, st2)
    | (inr _, st2) => (r, st2)
    end.

Definition setIsLoading (v : bool) : hook unit :=
  fun st => (inr tt, mkHook v (h_error st) (h_decodedData st)
                            (h_definitions st) (h_selectedDefinition st)).

Definition setError (v : string) : hook unit :=
  fun st => (inr tt, mkHook (h_isLoading st) v (h_decodedData st)
                            (h_definitions st) (h_selectedDefinition st)).

Definition setDecodedData (v : ASN1DecodedData) : hook unit :=
  fun st => (inr tt, mkHook (h_isLoading st) (h_error st) (Some v)
                            (h_definitions st) (h_selectedDefinition st)).

Definition setDefinitions (v : list TypeDefinition) : hook unit :=
  fun st => (inr tt, mkHook (h_isLoading st) (h_error st) (h_decodedData st)
                            v (h_selectedDefinition st)).

Definition setSelectedDefinition (v : string) : hook unit :=
  fun st => (inr tt, mkHook (h_isLoading st) (h_error st) (h_decodedData st)
                            (h_definitions st) v).

Declare Scope hook_scope.
Delimit Scope hook_scope with hook.
Notation "x <- m ;; f" := (bind m (fun x => f))
  (at level 61, m at next level, right associativity) : hook_scope.
Notation "m ;; f" := (bind m (fun _ => f))
  (at level 61, right associativity) : hook_scope.

(** [e instanceof Error ? e.message : 'Decoding error'] *)
Definition decodeErrorMessage (e : thrown) : string :=
  match e with
  | ErrorObject message => message
  | OtherValue _ => "Decoding error"
  end.

Definition decode (codec : Codec) (parser : Parser) (wantHex wantDef : bool)
           (der : string) : hook ASN1DecodedData :=
  tryCatchFinally
    (setIsLoading true ;;
     setError "" ;;
     structure <- lift (generateASN1Structure codec parser der) ;;
     hexDump <- (if wantHex
                 then dump <- lift (generateHexDump codec parser der) ;;
                      ret (Some dump)
                 else ret None) ;;
     base64 <- lift (generateBase64 codec der) ;;
     let parsedAsn1 := mkData der structure hexDump base64 None in
     parsedAsn1 <-
       (if wantDef then
          let mockTypes := sortByMatch (detectContentType der) in
          setDefinitions mockTypes ;;
          match mockTypes with
          | first :: _ => setSelectedDefinition (description first)
          | [] => ret tt
          end ;;
          ret (mkData der structure hexDump base64 (Some mockTypes))
        else
          setDefinitions [] ;;
          setSelectedDefinition "" ;;
          ret parsedAsn1) ;;
     setDecodedData parsedAsn1 ;;
     ret parsedAsn1)%hook
    (fun e => (setError (decodeErrorMessage e) ;; throw e)%hook)
    (setIsLoading false).

Definition initialState : HookState := mkHook false "" None [] "".

End Decoder.

(** ** A model of [@lapo/asn1js]

    The decoders [Hex.decode] and [Base64.decode] and the method
    [Stream.hexDump] as the library publishes them, to run the decoder on
    concrete texts. *)

Module Asn1js.
Local Open Scope N_scope.

(** The characters both decoders skip: SPACE, FF, LF, CR, TAB and NO-BREAK
    SPACE. *)
Definition ignored (c : ascii) : bool :=
  let n := N_of_ascii c in
  (n =? 32) || (n =? 12) || (n =? 10) || (n =? 13) || (n =? 9) || (n =? 160).

Definition hexValue (c : ascii) : option N :=
  let n := N_of_ascii c in
  if (48 <=? n) && (n <=? 57) then Some (n - 48)
  else if (65 <=? n) && (n <=? 70) then Some (n - 55)
  else if (97 <=? n) && (n <=? 102) then Some (n - 87)
  else None.

Definition byteOf (n : N) : Byte.byte :=
  match Byte.of_N (N.land n 255) with
  | Some b => b
  | None => Byte.x00
  end.

(** Both decoders throw plain strings, not [Error] objects. *)
Definition illegalCharacter (i : N) : thrown :=
  OtherValue ("Illegal character at offset " ++ Decoder.decimalN i).

Fixpoint hexLoop (a : string) (i : N) (bits : N) (char_count : N)
  : exc (list Byte.byte) :=
  match a with
  | EmptyString =>
      if 0 <? char_count
      then inl (OtherValue "Hex encoding incomplete: 4 bits missing")
      else inr []
  | String c rest =>
      if ignored c then hexLoop rest (i + 1) bits char_count
      else
        match hexValue c with
        | None => inl (illegalCharacter i)
        | Some d =>
            let bits := N.lor bits d in
            if 2 <=? char_count + 1
            then bindExc (hexLoop rest (i + 1) 0 0)
                         (fun out => inr (byteOf bits :: out))
            else hexLoop rest (i + 1) (N.shiftl bits 4) (char_count + 1)
        end
  end.

Definition Hex_decode (a : string) : exc (list Byte.byte) := hexLoop a 0 0 0.

Definition base64Value (c : ascii) : option N :=
  let n := N_of_ascii c in
  if (65 <=? n) && (n <=? 90) then Some (n - 65)
  else if (97 <=? n) && (n <=? 122) then Some (n - 71)
  else if (48 <=? n) && (n <=? 57) then Some (n + 4)
  else if (n =? 43) || (n =? 45) then Some 62
  else if (n =? 47) || (n =? 95) then Some 63
  else None.

(** What is written when the text ends inside a group of four digits. *)
Definition base64Tail (bits : N) (char_count : N) : exc (list Byte.byte) :=
  if char_count =? 1
  then inl (OtherValue "Base64 encoding incomplete: at least 2 bits missing")
  else if char_count =? 2 then inr [byteOf (N.shiftr bits 10)]
  else if char_count =? 3
       then inr [byteOf (N.shiftr bits 16); byteOf (N.shiftr bits 8)]
       else inr [].

Fixpoint base64Loop (a : string) (i : N) (bits : N) (char_count : N)
  : exc (list Byte.byte) :=
  match a with
  | EmptyString => base64Tail bits char_count
  | String c rest =>
      if N_of_ascii c =? 61 then base64Tail bits char_count
      else if ignored c then base64Loop rest (i + 1) bits char_count
      else
        match base64Value c with
        | None => inl (illegalCharacter i)
        | Some d =>
            let bits := N.lor bits d in
            if 4 <=? char_count + 1
            then bindExc (base64Loop rest (i + 1) 0 0)
                         (fun out => inr (byteOf (N.shiftr bits 16)
                                            :: byteOf (N.shiftr bits 8)
                                            :: byteOf bits :: out))
            else base64Loop rest (i + 1) (N.shiftl bits 6) (char_count + 1)
        end
  end.

Definition Base64_decode (a : string) : exc (list Byte.byte) :=
  base64Loop a 0 0 0.

Definition codec : Decoder.Codec := Decoder.mkCodec Base64_decode Hex_decode.

Definition hexDigit (n : N) : string :=
  match get (N.to_nat (N.land n 15)) "0123456789ABCDEF" with
  | Some c => String c ""
  | None => ""
  end.

Definition hexByte (b : Byte.byte) : string :=
  hexDigit (N.shiftr (Byte.to_N b) 4) ++ hexDigit (Byte.to_N b).

(** [hexDump(0, end, 'dump')]: sixteen bytes a line, two spaces after the
    eighth. *)
Fixpoint hexDumpFrom (i : N) (count : nat) (bytes : list Byte.byte) : string :=
  match count, bytes with
  | S count', b :: rest =>
      hexByte b
      ++ (if N.land i 15 =? 7 then "  "
          else if N.land i 15 =? 15 then LF else " ")
      ++ hexDumpFrom (i + 1) count' rest
  | _, _ => ""
  end.

(** The message of the [Error] that [new Stream(bytes, 0)] throws for a
    buffer without a first byte. *)
Definition encMustBeNumeric : string :=
  String (ascii_of_nat 34)
         ("enc" ++ String (ascii_of_nat 34)
                          " must be a numeric array or a string").

(** [new Stream(bytes, 0).hexDump(0, endPos, 'dump')]: the constructor
    refuses an empty buffer. *)
Definition Stream_hexDump (bytes : list Byte.byte) (endPos : N) : exc string :=
  match bytes with
  | [] => inl (ErrorObject encMustBeNumeric)
  | _ :: _ => inr (hexDumpFrom 0 (N.to_nat endPos) bytes)
  end.

(** The library on a buffer that [ASN1.decode] rejects with the given
    message. *)
Definition rejecting (message : string) : Decoder.Parser :=
  Decoder.mkParser (fun _ => inl (ErrorObject message)) Stream_hexDump.

(** The library on a buffer that [ASN1.decode] accepts, with the text
    [toPrettyString] writes for it. *)
Definition accepting (pretty : string) : Decoder.Parser :=
  Decoder.mkParser (fun _ => inr pretty) Stream_hexDump.

End Asn1js.

(** ** Concrete inputs *)

Module Samples.
Import Chain.

(** A self-signed root, an intermediate CA issued by it and a certificate
    issued by the intermediate. *)
Definition rootCa : CA :=
  mkCA "root-ca" "CN=Root" (Some "root-ca") (Some "ROOT-PEM").

Definition intermediateCa : CA :=
  mkCA "intermediate-ca" "CN=Intermediate" (Some "root-ca")
       (Some "INTERMEDIATE-PEM").

Definition leafCert : CertificateData :=
  mkCert (Some "LEAF-PEM") (Some "intermediate-ca").

(** Two records that name each other as issuer. *)
Definition cycleA : CA := mkCA "ca-a" "CN=A" (Some "ca-b") (Some "A-PEM").

Definition cycleB : CA := mkCA "ca-b" "CN=B" (Some "ca-a") (Some "B-PEM").

(** The text the export would be with blank lines between the blocks. *)
Definition blankLineChain : string :=
  join (LF ++ LF) ["LEAF-PEM"; "INTERMEDIATE-PEM"; "ROOT-PEM"].

(** A dump of five bytes on two lines that carry an offset. *)
Definition offsetDump : string :=
  "0000: 30 03 02  0.." ++ LF ++ "0003: 01 05  ..".

(** The same bytes as [Stream.hexDump] lays them out, cut after the third. *)
Definition plainDump : string := "30 03 02 " ++ LF ++ "01 05 " ++ LF.

(** The structure text of the bytes 30 03 02 01 05 in the layout of
    [toPrettyString]: the type, [@] and the position, [+] and the length, two
    blanks of indentation for each level. *)
Definition prettyStructure : string :=
  "SEQUENCE @0+3 (constructed)" ++ LF ++ "  INTEGER @2+1: 5" ++ LF.

(** A line in the form the patterns of [parseASN1Tree] look for, which
    places a node at offset 0x10 with a content of 256 bytes. *)
Definition longFormLine : string := "SEQUENCE [+0010] l=256".

(** Hex digits in odd number. *)
Definition oddHex : string := "abc".

(** The spec's truncated encoding: five content bytes declared, three
    present. *)
Definition truncatedHex : string := "30 05 02 01 05".

Definition truncatedMessage : string :=
  "Container at offset 2 has a length of 5, which is past the end of the stream".

(** Eighteen bytes, two rows of a dump, of which the first two declare a
    content of 32 bytes. *)
Definition twoRowHex : string :=
  "30 20 00 01 02 03 04 05 06 07 08 09 0a 0b 0c 0d 0e 0f".

Definition twoRowMessage : string :=
  "Container at offset 2 has a length of 32, which is past the end of the stream".

Definition certificatePem : string :=
  "-----BEGIN CERTIFICATE-----" ++ LF ++ "MAMCAQU=" ++ LF
  ++ "-----END CERTIFICATE-----" ++ LF.

End Samples.

(** ** DER header sizes, as the spec words them *)

Module Der.
Local Open Scope N_scope.

(** The number of base-256 digits of a positive number. *)
Definition octets (n : N) : N := N.log2 n / 8 + 1.

(** The size of a length field: one byte in the short form (lengths up to
    127), otherwise one byte that counts the length bytes, then those. *)
Definition lengthFieldBytes (contentLength : N) : N :=
  if contentLength <=? 127 then 1 else 1 + octets contentLength.

(** The end of an element with a one-byte tag. *)
Definition elementEnd (byteStart contentLength : N) : N :=
  byteStart + 1 + lengthFieldBytes contentLength + contentLength.

End Der.

(** ** Ranked guesses, as the spec words them *)

Module Ranking.
Import Decoder.

(** A confidence in [0,1]. *)
Definition inUnitInterval (q : Q) : Prop := (0 <= q)%Q /\ (q <= 1)%Q.

(** Descending confidence: no guess is less confident than its successor. *)
Fixpoint descending (l : list TypeDefinition) : Prop :=
  match l with
  | a :: rest =>
      match rest with
      | b :: _ => (matchValue b <= matchValue a)%Q
      | [] => True
      end /\ descending rest
  | [] => True
  end.

(** The label ranked highest. *)
Definition topLabel (l : list TypeDefinition) : option string :=
  option_map description (hd_error l).

End Ranking.

(** ** More of JavaScript's strings and numbers *)

Module JsMore.
Local Open Scope N_scope.

(** [toLowerCase] on ASCII text: the letters A-Z are mapped to a-z, every
    other code unit is left as it is. *)
Definition lowerChar (c : ascii) : ascii :=
  if Js.isUpper c then ascii_of_nat (Js.code c + 32) else c.

Fixpoint toLowerCase (s : string) : string :=
  match s with
  | String c s' => String (lowerChar c) (toLowerCase s')
  | EmptyString => EmptyString
  end.

(** [s.repeat(n)] *)
Fixpoint repeatString (s : string) (n : nat) : string :=
  match n with
  | O => ""
  | S n' => s ++ repeatString s n'
  end.

(** [s.padStart(targetLength, pad)] for a pad of one character. *)
Definition padStart (s : string) (targetLength : nat) (pad : string) : string :=
  repeatString pad (targetLength - String.length s) ++ s.

Definition digitChar (d : N) : string :=
  match get (N.to_nat d) "0123456789abcdef" with
  | Some c => String c ""
  | None => ""
  end.

Fixpoint digitsOf (fuel : nat) (radix n : N) (acc : string) : string :=
  match fuel with
  | O => acc
  | S fuel' =>
      let acc' := digitChar (n mod radix) ++ acc in
      if n / radix =? 0 then acc' else digitsOf fuel' radix (n / radix) acc'
  end.

(** [n.toString(radix)] for a non-negative integer and a radix from 2 to
    16. *)
Definition toStringRadix (n radix : N) : string :=
  digitsOf (S (N.to_nat (N.log2 n))) radix n "".

(** [Math.floor(a / b)] on non-negative integers. *)
Definition floorDiv (a b : nat) : nat := Nat.div a b.

(** *** [Set] of strings

    The elements in insertion order, each once. *)
Definition JsSet : Type := list string.

Definition has (s : JsSet) (x : string) : bool :=
  existsb (String.eqb x) s.

Definition add (s : JsSet) (x : string) : JsSet :=
  if has s x then s else (s ++ [x])%list.

Definition delete (s : JsSet) (x : string) : JsSet :=
  filter (fun y => negb (String.eqb x y)) s.

(** [new Set(array)] *)
Definition setOf (l : list string) : JsSet := fold_left add l [].

End JsMore.

(** ** What a pattern matches *)

Module RegexSem.
Import Regex.

(** The texts a pattern can consume.  [Eol] consumes nothing; that it stands
    at the end of the subject is a fact about the subject, not about the
    text consumed. *)
Inductive Matches : regex -> string -> Prop :=
| MEps : Matches Eps ""
| MChr (a : ascii) : Matches (Chr a) (String a "")
| MCls (p : ascii -> bool) (b : ascii) :
    p b = true -> Matches (Cls p) (String b "")
| MCat (r1 r2 : regex) (w1 w2 : string) :
    Matches r1 w1 -> Matches r2 w2 -> Matches (Cat r1 r2) (w1 ++ w2)
| MAltL (r1 r2 : regex) (w : string) : Matches r1 w -> Matches (Alt r1 r2) w
| MAltR (r1 r2 : regex) (w : string) : Matches r2 w -> Matches (Alt r1 r2) w
| MStarNil (r : regex) : Matches (Star r) ""
| MStarCons (r : regex) (w1 w2 : string) :
    Matches r w1 -> Matches (Star r) w2 -> Matches (Star r) (w1 ++ w2)
| MGrp (i : nat) (r : regex) (w : string) : Matches r w -> Matches (Grp i r) w
| MEol : Matches Eol "".

(** Every character of a text satisfies a test. *)
Fixpoint allChars (p : ascii -> bool) (s : string) : bool :=
  match s with
  | String c s' => p c && allChars p s'
  | EmptyString => true
  end.

End RegexSem.

(** ** More of the certificate details page *)

Module CertDetails.
Import Regex Chain.

Definition notComma (c : ascii) : bool := negb (Ascii.eqb c ",").

(** [/CN=([^,]+)/] *)
Definition reCommonName : regex :=
  seq [Lit "CN="; Grp 1 (Plus (Cls notComma))].

(** [const cnMatch = subject.match(/CN=([^,]+)/);
     return cnMatch ? cnMatch[1] : subject] *)
Definition getCertSubjectCommonName (subject : string) : string :=
  match search reCommonName subject with
  | Some f =>
      match group 1 (f_groups f) with
      | Some cn => cn
      | None => subject
      end
  | None => subject
  end.

(** How [await fetchDeviceById(commonName, token)] ends: with a device, or
    with an error whose [message] may be missing. *)
Inductive deviceLookup : Type :=
| DeviceFound
| LookupFailed (message : option string).

(** [error.message && (error.message.includes('404') ||
     error.message.toLowerCase().includes('not found'))] *)
Definition isNotFound (message : option string) : bool :=
  match message with
  | Some m =>
      truthy (Some m)
      && (Js.includes m "404" || Js.includes (JsMore.toLowerCase m) "not found")
  | None => false
  end.

(** The two states the check writes. *)
Record deletionState : Type := mkDeletion {
  canDelete : bool;
  isCheckingUsage : bool
}.

Section Deletion.

Variable findCaById : string -> list CA -> option CA.

(** The device is looked up only when the check gets that far: the answer
    is a function of the common name asked for. *)
Variable fetchDeviceById : string -> deviceLookup.

(** [checkDeletionCriteria]: the certificate with its subject, whether an
    access token is at hand, and the CA list. *)
Definition checkDeletionCriteria
           (certificateDetails : option (CertificateData * string))
           (hasToken : bool) (allCAs : list CA) (st : deletionState)
  : deletionState :=
  match certificateDetails with
  | Some (details, subject) =>
      if negb hasToken || Nat.eqb (length allCAs) 0 then
        (* setCanDelete(false);
           if (certificateDetails && allCAs.length > 0) setIsCheckingUsage(false) *)
        mkDeletion false
                   (if Nat.ltb 0 (length allCAs) then false
                    else isCheckingUsage st)
      else
        let issuerCaExists :=
          if truthy (cert_issuerCaId details)
          then match lookupIssuer findCaById (cert_issuerCaId details) allCAs with
               | Some _ => true
               | None => false
               end
          else false in
        let commonName := getCertSubjectCommonName subject in
        let certIsInUse :=
          if truthy (Some commonName) then
            match fetchDeviceById commonName with
            | DeviceFound => true
            | LookupFailed message => negb (isNotFound message)
            end
          else true in
        mkDeletion (negb issuerCaExists && negb certIsInUse) false
  | None => mkDeletion false (isCheckingUsage st)
  end.

End Deletion.

End CertDetails.

(** ** Issuer chains *)

Module ChainOrder.
Import Chain.

(** The PEM text of a CA record, empty when it has none. *)
Definition pemOf (ca : CA) : string :=
  match ca_pemData ca with
  | Some p => p
  | None => ""
  end.

Section Linked.

Variable findCaById : string -> list CA -> option CA.
Variable allCAs : list CA.

(** Records in walk order: the first is the one found for the identifier
    [start], each next one is the one found for the issuer of the one
    before. *)
Fixpoint linked (start : option string) (l : list CA) : Prop :=
  match l with
  | [] => True
  | ca :: rest =>
      lookupIssuer findCaById start allCAs = Some ca
      /\ linked (ca_issuer ca) rest
  end.

(** The identifier the walk asks for after the records of [l]. *)
Fixpoint nextIssuer (start : option string) (l : list CA) : option string :=
  match l with
  | [] => start
  | ca :: rest => nextIssuer (ca_issuer ca) rest
  end.

End Linked.

End ChainOrder.

(** ** DER length fields, as X.690 writes them *)

Module DerLength.
Local Open Scope N_scope.

(** The [k] low base-256 digits of a number, most significant first. *)
Fixpoint bigEndian (k : nat) (n : N) : list N :=
  match k with
  | O => []
  | S k' => (bigEndian k' (n / 256) ++ [n mod 256])%list
  end.

(** Short form: the length itself, up to 127.  Long form: a byte 0x80 plus
    the number of length bytes, then the length in base 256. *)
Definition encodeLength (n : N) : list N :=
  if n <? 128 then [n]
  else (128 + Der.octets n) :: bigEndian (N.to_nat (Der.octets n)) n.

End DerLength.

(** ** Controls of the tree view *)

Module Asn1Controls.
Import Regex Asn1View JsMore.
Local Open Scope N_scope.

(** Induction on a node with the property at hand for all its children. *)
Fixpoint ASN1TreeNode_nested_ind (P : ASN1TreeNode -> Prop)
         (step : forall n, Forall P (n_children n) -> P n)
         (n : ASN1TreeNode) {struct n} : P n :=
  step n
       ((fix all (l : list ASN1TreeNode) : Forall P l :=
           match l with
           | [] => Forall_nil P
           | c :: rest =>
               Forall_cons c (ASN1TreeNode_nested_ind P step c) (all rest)
           end) (n_children n)).

(** *** [toggleNode], [expandAll], [collapseAll] *)

Definition toggleNode (nodeId : string) (prev : JsSet) : JsSet :=
  let newSet := prev in
  if has newSet nodeId then delete newSet nodeId else add newSet nodeId.

(** [getAllNodeIds] on one node: its identifier and those below it, when it
    is marked as having children. *)
Fixpoint idsOfNode (node : ASN1TreeNode) : list string :=
  if n_hasChildren node
  then n_id node :: flat_map idsOfNode (n_children node)
  else [].

Definition getAllNodeIds (nodeList : list ASN1TreeNode) : list string :=
  flat_map idsOfNode nodeList.

Definition expandAll (nodes : list ASN1TreeNode) : JsSet :=
  setOf (getAllNodeIds nodes).

Definition collapseAll : JsSet := [].

(** *** [TreeNode]

    The nodes a [TreeNode] puts on the screen: itself and, when it is marked
    as having children and is expanded, what its children put there. *)
Fixpoint renderedNodes (expandedNodes : JsSet) (node : ASN1TreeNode)
  : list ASN1TreeNode :=
  node ::
  (if n_hasChildren node && has expandedNodes (n_id node)
   then flat_map (renderedNodes expandedNodes) (n_children node)
   else []).

(** The tree view of [formatASN1Tree]. *)
Definition renderedTree (expandedNodes : JsSet) (treeNodes : list ASN1TreeNode)
  : list ASN1TreeNode :=
  flat_map (renderedNodes expandedNodes) treeNodes.

(** [handleMouseEnter]: the range is handed over only when both ends are
    known; otherwise the hovered range stays what it is. *)
Definition handleMouseEnter (node : ASN1TreeNode)
           (hoveredByteRange : option byteRange) : option byteRange :=
  match n_byteStart node, n_byteEnd node with
  | Some byteStart, Some byteEnd => Some (mkRange byteStart byteEnd)
  | _, _ => hoveredByteRange
  end.

Definition handleMouseLeave : option byteRange := None.

(** A node that has children is marked as having children. *)
Definition marked (n : ASN1TreeNode) : Prop :=
  n_children n = [] \/ n_hasChildren n = true.

(** *** [decomposeTagByte] *)

Record tagParts : Type := mkParts {
  tp_binary : string;
  tp_class : string;
  tp_constructed : bool;
  tp_tagNumber : N;
  tp_classColor : string;
  tp_constructedColor : string;
  tp_tagColor : string
}.

Definition classNames : list string :=
  ["Universal"; "Application"; "Context"; "Private"].

(** The parts of a number below 2^31, on which [>>] and [&] are the shifts
    and masks of [N]. *)
Definition decomposeNumber (decimal : N) : tagParts :=
  let binary := padStart (toStringRadix decimal 2) 8 "0" in
  let classBits := N.land (N.shiftr decimal 6) 3 in
  let constructedBit := N.land (N.shiftr decimal 5) 1 in
  let tagBits := N.land decimal 31 in
  let className := nth (N.to_nat classBits) classNames "" in
  mkParts binary className (constructedBit =? 1) tagBits
          (if classBits =? 0 then "text-green-600 dark:text-green-400"
           else if classBits =? 1 then "text-blue-600 dark:text-blue-400"
           else if classBits =? 2 then "text-purple-600 dark:text-purple-400"
           else "text-red-600 dark:text-red-400")
          (if constructedBit =? 1 then "text-orange-600 dark:text-orange-400"
           else "text-gray-600 dark:text-gray-400")
          "text-indigo-600 dark:text-indigo-400".

(** [hexValue] is a text of hex digits. *)
Definition decomposeTagByte (hexValue : string) : tagParts :=
  decomposeNumber (N.of_nat (Js.parseInt hexValue 16)).

(** The index of a class name in [classNames]. *)
Definition classIndex (className : string) : N :=
  if String.eqb className "Universal" then 0
  else if String.eqb className "Application" then 1
  else if String.eqb className "Context" then 2
  else 3.

(** *** [extractHexFromLine] *)

(** [n.toString(16).padStart(2, '0')] *)
Definition hex2 (n : N) : string := padStart (toStringRadix n 16) 2 "0".

Definition typeNames : list string :=
  ["SEQUENCE"; "SET"; "OBJECT IDENTIFIER"; "INTEGER"; "BIT STRING";
   "OCTET STRING"; "UTF8String"; "PrintableString"; "UTCTime";
   "GeneralizedTime"; "NULL"; "BOOLEAN"; "ENUMERATED"].

(** [/\[(\d+)\]/] *)
Definition reContextNumber : regex :=
  seq [Lit "["; Grp 1 (Plus (Cls Js.isDigit)); Lit "]"].

Definition getTagByte (type : string) : string :=
  if String.eqb type "SEQUENCE" then "30"
  else if String.eqb type "SET" then "31"
  else if String.eqb type "INTEGER" then "02"
  else if String.eqb type "BIT STRING" then "03"
  else if String.eqb type "OCTET STRING" then "04"
  else if String.eqb type "NULL" then "05"
  else if String.eqb type "OBJECT IDENTIFIER" then "06"
  else if String.eqb type "UTF8String" then "0c"
  else if String.eqb type "PrintableString" then "13"
  else if String.eqb type "UTCTime" then "17"
  else if String.eqb type "GeneralizedTime" then "18"
  else if String.eqb type "ENUMERATED" then "0a"
  else if String.eqb type "BOOLEAN" then "01"
  else
    match firstGroup reContextNumber type with
    | Some digits =>
        let tagNum := N.of_nat (Js.parseInt digits 10) in
        hex2 (128 + tagNum)
    | None => "??"
    end.

Definition getLengthBytes (length : N) : string :=
  if length <? 128 then hex2 length
  else if length <? 256 then "81 " ++ hex2 length
  else if length <? 65536 then
    "82 " ++ hex2 (length / 256) ++ " " ++ hex2 (length mod 256)
  else
    "83 " ++ hex2 (length / 65536) ++ " "
    ++ hex2 ((length mod 65536) / 256) ++ " " ++ hex2 (length mod 256).

(** The pattern of a line that ends in hex bytes: [\s+], a group of
    [[a-fA-F0-9\s]+], the end of the line. *)
Definition reTrailingHex : regex :=
  seq [Plus (Cls Js.isSpace); Grp 1 (Plus (Cls hexOrSpace)); Eol].

(** The pattern of a structural line, from the start of the line: a group
    of white space, a group with a type name or a tag in brackets, [\s+@],
    a group of digits, [\+], a group of digits. *)
Definition reStructural : regex :=
  seq [Grp 1 (Star (Cls Js.isSpace));
       Grp 2 (alts (map Lit typeNames
                    ++ [seq [Lit "["; Plus (Cls Js.isDigit); Lit "]"]])%list);
       Plus (Cls Js.isSpace); Lit "@";
       Grp 3 (Plus (Cls Js.isDigit)); Lit "+";
       Grp 4 (Plus (Cls Js.isDigit))].

Definition extractHexFromLine (line : string) : string :=
  match search reTrailingHex line with
  | Some hexMatch => Js.trim (groupOr 1 (f_groups hexMatch))
  | None =>
      match matchAt reStructural line with
      | Some (_, structuralMatch) =>
          let type := groupOr 2 structuralMatch in
          let length := N.of_nat (Js.parseInt (groupOr 4 structuralMatch) 10) in
          let tagByte := getTagByte type in
          let lengthBytes := getLengthBytes length in
          tagByte ++ " " ++ lengthBytes
      | None => ""
      end
  end.

End Asn1Controls.

(** ** The parser's nodes in the order of the lines *)

Module TreeOrder.
Import Asn1View.

(** The nodes a builder holds, in the order of their lines: the finished
    roots, then the open nodes from the bottom of the stack to its top, each
    with what is below it. *)
Definition flatOf (b : builder) : list ASN1TreeNode :=
  (allNodes (b_nodes b) ++ flat_map subtree (rev (b_stack b)))%list.

(** The nodes [parseASN1Tree] makes for its lines, before it links them. *)
Fixpoint lineNodes (index : nat) (lines : list string) : list ASN1TreeNode :=
  match lines with
  | [] => []
  | line :: rest =>
      nodeOfLine index line (hd_error rest) :: lineNodes (S index) rest
  end.

(** The lines [parseASN1Tree] keeps: those that are not blank. *)
Definition keptLines (structure : string) : list string :=
  filter (fun line => negb (String.eqb (Js.trim line) ""))
         (Js.splitLines structure).

End TreeOrder.

(** ** The DER decoder view: [convertToDerDecoderFormat] *)

Module DerView.
Import Regex Asn1View JsMore.

(** A line of the result: one that opens a brace, one that closes a brace,
    or a value.  [level] is the number of indentation units in front. *)
Inductive derLine : Type :=
| OpenLine (level : nat) (label : string)
| CloseLine (level : nat)
| ValueLine (level : nat) (text : string).

(** ['   '.repeat(level)] *)
Definition indentOf (level : nat) : string := repeatString "   " level.

(** The text pushed on [result] for a line. *)
Definition render (l : derLine) : string :=
  match l with
  | OpenLine level label => indentOf level ++ label ++ " {"
  | CloseLine level => indentOf level ++ "}"
  | ValueLine level text => indentOf level ++ text
  end.

(** [Math.floor((line.length - line.trimStart().length) / 4)] *)
Definition indentLevelOf (originalLine : string) : nat :=
  Nat.div (String.length originalLine
           - String.length (Js.trimStart originalLine)) 4.

Definition notHex (c : ascii) : bool := negb (Js.isHexDigit c).

Definition digitOrDot (c : ascii) : bool :=
  Js.isDigit c || Ascii.eqb c ".".

Definition quote : ascii := "'"%char.

Definition doubleQuote : ascii := ascii_of_nat 34.

(** A tag in brackets at the start of the line, as a group: an opening
    bracket, digits, a closing bracket. *)
Definition reBracketTag : regex :=
  Grp 1 (seq [Lit "["; Plus (Cls Js.isDigit); Lit "]"]).

(** A keyword, then characters that are not hex digits, then a group of hex
    digits and white space. *)
Definition reHexAfter (keyword : string) : regex :=
  seq [Lit keyword; Star (Cls notHex); Grp 1 (Plus (Cls hexOrSpace))].

(** [/([0-9.]+)/] *)
Definition reOid : regex := Grp 1 (Plus (Cls digitOrDot)).

(** A keyword, then characters other than the quote, then a group of such
    characters between two quotes. *)
Definition reQuoted (keyword : string) (q : ascii) : regex :=
  seq [Lit keyword; Star (Cls (fun c => negb (Ascii.eqb c q))); Chr q;
       Grp 1 (Star (Cls (fun c => negb (Ascii.eqb c q)))); Chr q].

Definition oidNames : list (string * string) :=
  [("1.2.840.113549.1.1.1", "rsaEncryption");
   ("1.2.840.113549.1.1.11", "sha256WithRSAEncryption");
   ("2.5.4.3", "commonName");
   ("2.5.4.6", "countryName");
   ("2.5.4.7", "localityName");
   ("2.5.4.8", "stateOrProvinceName");
   ("2.5.4.10", "organizationName");
   ("2.5.4.11", "organizationalUnitName");
   ("2.5.29.14", "subjectKeyIdentifier");
   ("2.5.29.35", "authorityKeyIdentifier");
   ("2.5.29.31", "cRLDistributionPoints");
   ("1.3.6.1.5.5.7.1.1", "authorityInfoAccess")].

Fixpoint lookupOid (oid : string) (table : list (string * string))
  : option string :=
  match table with
  | [] => None
  | (key, name) :: rest =>
      if String.eqb key oid then Some name else lookupOid oid rest
  end.

(** The match with single quotes, or else the one with double quotes. *)
Definition quotedAfter (keyword line : string) : option string :=
  match firstGroup (reQuoted keyword quote) line with
  | Some text => Some text
  | None => firstGroup (reQuoted keyword doubleQuote) line
  end.

Section WithNumbers.

(** The text of [parseInt(hexValue, 16)] in a template: the number is a
    double, its decimal text is the language's. *)
Variable showParsedHex : string -> string.

(** What one trimmed line adds to [result] and to [braceStack]. *)
Definition classify (level : nat) (line : string)
  : list derLine * list nat :=
  if Js.includes line "SEQUENCE" then ([OpenLine level "SEQUENCE"], [level])
  else if Js.includes line "SET" then ([OpenLine level "SET"], [level])
  else if testAt reBracketTag line then
    match matchAt reBracketTag line with
    | Some (_, tagMatch) => ([OpenLine level (groupOr 1 tagMatch)], [level])
    | None => ([], [])
    end
  else if Js.includes line "INTEGER" then
    match firstGroup (reHexAfter "INTEGER") line with
    | Some hex =>
        let hexValue := Js.removeSpaces hex in
        ([ValueLine level ("INTEGER 0x" ++ toLowerCase hexValue ++ " ("
                           ++ showParsedHex hexValue ++ " decimal)")], [])
    | None => ([ValueLine level "INTEGER"], [])
    end
  else if Js.includes line "OBJECT IDENTIFIER" || Js.includes line "OID" then
    match firstGroup reOid line with
    | Some oid =>
        let name := match lookupOid oid oidNames with
                    | Some n => " (" ++ n ++ ")"
                    | None => ""
                    end in
        ([ValueLine level ("OBJECTIDENTIFIER " ++ oid ++ name)], [])
    | None => ([ValueLine level "OBJECTIDENTIFIER"], [])
    end
  else if Js.includes line "UTF8String" then
    match quotedAfter "UTF8String" line with
    | Some text => ([ValueLine level ("UTF8String '" ++ text ++ "'")], [])
    | None => ([ValueLine level "UTF8String"], [])
    end
  else if Js.includes line "PrintableString" then
    match quotedAfter "PrintableString" line with
    | Some text => ([ValueLine level ("PrintableString '" ++ text ++ "'")], [])
    | None => ([ValueLine level "PrintableString"], [])
    end
  else if Js.includes line "UTCTime" then
    match quotedAfter "UTCTime" line with
    | Some text => ([ValueLine level ("UTCTime '" ++ text ++ "'")], [])
    | None => ([ValueLine level "UTCTime"], [])
    end
  else if Js.includes line "GeneralizedTime" then
    match quotedAfter "GeneralizedTime" line with
    | Some text => ([ValueLine level ("GeneralizedTime '" ++ text ++ "'")], [])
    | None => ([ValueLine level "GeneralizedTime"], [])
    end
  else if Js.includes line "BIT STRING" then
    match firstGroup (reHexAfter "BIT STRING") line with
    | Some hex =>
        ([ValueLine level ("BITSTRING 0x" ++ toLowerCase (Js.removeSpaces hex)
                           ++ " : 0 unused bit(s)")], [])
    | None => ([ValueLine level "BITSTRING"], [])
    end
  else if Js.includes line "OCTET STRING" then
    match firstGroup (reHexAfter "OCTET STRING") line with
    | Some hex =>
        ([ValueLine level ("OCTETSTRING "
                           ++ toLowerCase (Js.removeSpaces hex))], [])
    | None => ([ValueLine level "OCTETSTRING"], [])
    end
  else if Js.includes line "NULL" then ([ValueLine level "NULL"], [])
  else if Js.includes line "BOOLEAN" then ([ValueLine level "BOOLEAN"], [])
  else if Js.includes line "ENUMERATED" then
    match firstGroup (reHexAfter "ENUMERATED") line with
    | Some hex =>
        let hexValue := Js.removeSpaces hex in
        ([ValueLine level ("ENUMERATED 0x" ++ toLowerCase hexValue ++ " ("
                           ++ showParsedHex hexValue ++ " decimal)")], [])
    | None => ([ValueLine level "ENUMERATED"], [])
    end
  else ([], []).

(** The state of the loop: [result] in order, [braceStack] with its top
    first. *)
Record converter : Type := mkConverter {
  c_result : list derLine;
  c_braceStack : list nat
}.

(** The inner [while] of a line: braces are closed as long as the top of
    the stack is at the level of the line or deeper, a line follows, and
    that line is no deeper than the top. *)
Fixpoint closeBraces (fuel : nat) (currentIndentLevel : nat)
         (next : option string) (st : converter) : converter :=
  match fuel with
  | O => st
  | S fuel' =>
      match c_braceStack st, next with
      | top :: rest, Some nextLine =>
          if Nat.leb currentIndentLevel top then
            let nextIndentLevel := indentLevelOf nextLine in
            if Nat.leb nextIndentLevel top then
              closeBraces fuel' currentIndentLevel next
                          (mkConverter (c_result st ++ [CloseLine top])%list
                                       rest)
            else st
          else st
      | _, _ => st
      end
  end.

(** The body of the [for] loop for one line. *)
Definition convertLine (originalLine : string) (next : option string)
           (st : converter) : converter :=
  let line := Js.trim originalLine in
  if String.eqb line "" then st
  else
    let level := indentLevelOf originalLine in
    let (out, pushed) := classify level line in
    let st1 := mkConverter (c_result st ++ out)%list
                           (pushed ++ c_braceStack st)%list in
    closeBraces (List.length (c_braceStack st1)) level next st1.

Fixpoint convertLines (lines : list string) (st : converter) : converter :=
  match lines with
  | [] => st
  | originalLine :: rest =>
      convertLines rest (convertLine originalLine (hd_error rest) st)
  end.

(** [while (braceStack.length > 0) result.push(indent + '}')] *)
Fixpoint closeRemaining (stack : list nat) : list derLine :=
  match stack with
  | [] => []
  | top :: rest => CloseLine top :: closeRemaining rest
  end.

(** The lines of the result. *)
Definition derLines (structure : string) : list derLine :=
  let st := convertLines (TreeOrder.keptLines structure) (mkConverter [] []) in
  (c_result st ++ closeRemaining (c_braceStack st))%list.

Definition convertToDerDecoderFormat (structure : string) : string :=
  join LF (map render (derLines structure)).

End WithNumbers.

(** Reading a result from its first line: an opening line puts its level on
    a stack, a closing line takes the top of the stack off and must stand at
    that level.  [None] when a closing line finds the stack empty or another
    level on top. *)
Fixpoint nesting (stack : list nat) (out : list derLine) : option (list nat) :=
  match out with
  | [] => Some stack
  | OpenLine level _ :: rest => nesting (level :: stack) rest
  | CloseLine level :: rest =>
      match stack with
      | top :: below =>
          if Nat.eqb top level then nesting below rest else None
      | [] => None
      end
  | ValueLine _ _ :: rest => nesting stack rest
  end.

End DerView.

(** ** The other ways into the decoder *)

Module DecoderEntry.
Import Decoder.

(** [try { body } catch (e) { handler(e) }] on the state of the hook. *)
Definition tryCatchHook {A : Type} (body : hook A)
           (handler : thrown -> hook A) : hook A :=
  fun st =>
    match body st with
    | (inl e, st') => handler e st'
    | (inr a, st') => (inr a, st')
    end.

(** [e instanceof Error ? e.message : fallback] *)
Definition messageOr (fallback : string) (e : thrown) : string :=
  match e with
  | ErrorObject message => message
  | OtherValue _ => fallback
  end.

Section WithLibrary.

Variable codec : Codec.
Variable parser : Parser.
Variable wantHex wantDef : bool.

Definition entry (fallback : string) (text : string) : hook ASN1DecodedData :=
  tryCatchHook
    (bind (setError "") (fun _ => decode codec parser wantHex wantDef text))
    (fun e => bind (setError (messageOr fallback e)) (fun _ => throw e)).

Definition decodeText (val : string) : hook ASN1DecodedData :=
  entry "Text decoding error" val.

Definition decodeBinaryString (str : string) : hook ASN1DecodedData :=
  entry "Binary string decoding error" str.

(** [file] is the text [await file.text()] gives. *)
Definition decodeFile (file : string) : hook ASN1DecodedData :=
  entry "File decoding error" file.

End WithLibrary.

End DecoderEntry.

(** ** The dump that is rendered *)

Module RenderedDump.
Import Asn1View Decoder RegexSem.

(** The characters of the layout ['dump'] of [Stream.hexDump]: hex digits,
    blanks and line feeds. *)
Definition dumpChar (c : ascii) : bool :=
  Js.isHexDigit c || Nat.eqb (Js.code c) 32 || Nat.eqb (Js.code c) 10.

Definition notLineFeed (c : ascii) : bool := negb (Nat.eqb (Js.code c) 10).

Definition notColon (c : ascii) : bool := negb (Nat.eqb (Js.code c) 58).

(** What the library hands to [generateHexDump] for a text is plain: a dump
    in the layout ['dump'], or a failure whose message is on one line. *)
Definition libraryOutputPlain (codec : Codec) (parser : Parser)
           (data : string) : bool :=
  match getBytesFromData codec data with
  | inr bytes =>
      match hexDump parser bytes (min (lengthN bytes) 512) with
      | inr text => allChars dumpChar text
      | inl error => allChars notLineFeed (messageOf error)
      end
  | inl error => allChars notLineFeed (messageOf error)
  end.

(** [decodedData.hexDump ? formatHexDump(decodedData.hexDump) : ...]: the
    rows of the hex dump the component shows for the decoded data, the only
    call of [formatHexDump]. *)
Definition renderedHexDump (hoveredByteRange : option byteRange)
           (decodedData : ASN1DecodedData) : list row :=
  if truthy (hexDumpText decodedData)
  then match hexDumpText decodedData with
       | Some dump => formatHexDump hoveredByteRange dump
       | None => []
       end
  else [].

End RenderedDump.

(** * Properties *)

(** ** The loops of the resolver *)

Lemma while_S {S : Type} (fuel : nat) (cond : S -> bool) (body : S -> flow S)
      (s : S) :
  while (Datatypes.S fuel) cond body s
  = if cond s then
      match body s with
      | Next s' => while fuel cond body s'
      | Break s' => Some s'
      end
    else Some s.
Proof. reflexivity. Qed.

Module ChainFacts.
Import Chain.

Section AnyLookup.

Variable findCaById : string -> list CA -> option CA.

Lemma v_cond_true (st : vstate) :
  v_cond st = true ->
  truthy (v_currentIssuerId st) = true /\ v_safetyNet st < maxDepth.
Proof.
  unfold v_cond. intros H. apply andb_prop in H as [H1 H2].
  split; [exact H1 | now apply Nat.ltb_lt].
Qed.

(** The walk of the visualizer ends within the fuel left by the safety
    counter, with no more entries than [maxDepth]. *)
Lemma visualizer_walk_ends (fuel : nat) :
  forall (allCAs : list CA) (st : vstate),
    length (v_path st) <= v_safetyNet st ->
    v_safetyNet st <= maxDepth ->
    maxDepth - v_safetyNet st < fuel ->
    exists st',
      while fuel v_cond (v_body findCaById allCAs) st = Some st'
      /\ length (v_path st') <= maxDepth.
Proof.
  induction fuel as [|fuel IH]; intros allCAs st Hlen Hsn Hfuel.
  - lia.
  - simpl. destruct (v_cond st) eqn:Hc.
    + apply v_cond_true in Hc as [_ Hlt].
      unfold v_body.
      destruct (lookupIssuer findCaById (v_currentIssuerId st) allCAs)
        as [issuerCa|].
      * destruct (isSelfSigned issuerCa).
        -- eexists. split; [reflexivity|]. cbn [v_path length]. lia.
        -- apply IH; cbn [v_path v_safetyNet length]; lia.
      * exists st. split; [reflexivity | lia].
    + exists st. split; [reflexivity | lia].
Qed.

(** C2: for every leaf record and every CA list, cyclic or not, and whatever
    the lookup answers, the chain walk of the visualizer terminates (any fuel
    above [maxDepth] is enough for the loop to finish) and the chain it
    returns has at most [maxDepth] = 10 entries. *)
Theorem chain_walk_terminates_within_maxDepth
        (fuel : nat) (certificateDetails : option CertificateData)
        (allCAs : list CA) :
  maxDepth < fuel ->
  exists chain,
    certificateChainForVisualizer findCaById fuel certificateDetails allCAs
    = Some chain
    /\ length chain <= 10.
Proof.
  intros Hfuel. unfold certificateChainForVisualizer.
  destruct certificateDetails as [details|].
  - destruct (Nat.eqb (length allCAs) 0).
    + exists []. split; [reflexivity | simpl; lia].
    + destruct (visualizer_walk_ends fuel allCAs
                  (mkV [] (cert_issuerCaId details) 0)) as [st' [Hrun Hlen]];
        cbn [v_path v_safetyNet length]; try lia.
      rewrite Hrun. exists (v_path st'). split; [reflexivity | exact Hlen].
  - exists []. split; [reflexivity | simpl; lia].
Qed.

Lemma not_self_signed (ca : CA) :
  isSelfSigned ca = false ->
  exists i, ca_issuer ca = Some i /\ truthy (Some i) = true.
Proof.
  unfold isSelfSigned. destruct (ca_issuer ca) as [i|]; [|discriminate].
  intros H. exists i. split; [reflexivity|].
  destruct (truthy (Some i)); [reflexivity|].
  simpl in H. rewrite orb_true_r in H. discriminate.
Qed.

(** C1: a leaf issued by Intermediate, Intermediate issued by Root, Root
    self-signed, both CAs in the supplied list and found there by their
    identifiers: the chain is exactly [Root; Intermediate], root first, the
    leaf's direct issuer last, the leaf not in it. *)
Theorem chain_of_three_is_root_then_intermediate
        (fuel : nat) (leaf : CertificateData) (Root Intermediate : CA)
        (allCAs : list CA) :
  maxDepth < fuel ->
  In Root allCAs ->
  In Intermediate allCAs ->
  findCaById (ca_id Intermediate) allCAs = Some Intermediate ->
  findCaById (ca_id Root) allCAs = Some Root ->
  cert_issuerCaId leaf = Some (ca_id Intermediate) ->
  truthy (Some (ca_id Intermediate)) = true ->
  ca_issuer Intermediate = Some (ca_id Root) ->
  isSelfSigned Intermediate = false ->
  isSelfSigned Root = true ->
  certificateChainForVisualizer findCaById fuel (Some leaf) allCAs
  = Some [Root; Intermediate].
Proof.
  intros Hfuel HinR _ HfindI HfindR Hleaf HidI HissI HnssI HssR.
  unfold certificateChainForVisualizer.
  destruct allCAs as [|ca0 rest]; [destruct HinR|].
  change (Nat.eqb (length (ca0 :: rest)) 0) with false. cbv iota.
  destruct (not_self_signed _ HnssI) as [i [Hi Htr]].
  rewrite HissI in Hi. injection Hi as <-.
  destruct fuel as [|[|fuel]]; [unfold maxDepth in Hfuel; lia ..|].
  rewrite Hleaf.
  assert (Hc0 : v_cond (mkV [] (Some (ca_id Intermediate)) 0) = true).
  { unfold v_cond. cbn [v_currentIssuerId v_safetyNet]. now rewrite HidI. }
  assert (Hb0 : v_body findCaById (ca0 :: rest)
                       (mkV [] (Some (ca_id Intermediate)) 0)
                = Next (mkV [Intermediate] (Some (ca_id Root)) 1)).
  { unfold v_body. cbn [lookupIssuer v_currentIssuerId v_path v_safetyNet].
    now rewrite HfindI, HnssI, HissI. }
  assert (Hc1 : v_cond (mkV [Intermediate] (Some (ca_id Root)) 1) = true).
  { unfold v_cond. cbn [v_currentIssuerId v_safetyNet]. now rewrite Htr. }
  assert (Hb1 : v_body findCaById (ca0 :: rest)
                       (mkV [Intermediate] (Some (ca_id Root)) 1)
                = Break (mkV [Root; Intermediate] (Some (ca_id Root)) 1)).
  { unfold v_body. cbn [lookupIssuer v_currentIssuerId v_path v_safetyNet].
    now rewrite HfindR, HssR. }
  rewrite while_S, Hc0, Hb0, while_S, Hc1, Hb1. reflexivity.
Qed.

(** C8, as the code has it: a self-signed root whose issuer reference is its
    own identifier, inspected as the leaf against the list that holds only
    itself, is found by the first lookup and entered in the chain before the
    self-signature test: the chain is the one record, not the empty
    sequence. *)
Theorem self_signed_root_chain_is_itself (fuel : nat) (thisCa : CA) :
  0 < fuel ->
  ca_issuer thisCa = Some (ca_id thisCa) ->
  truthy (Some (ca_id thisCa)) = true ->
  findCaById (ca_id thisCa) [thisCa] = Some thisCa ->
  certificateChainForVisualizer findCaById fuel (Some (caAsLeaf thisCa))
                                [thisCa]
  = Some [thisCa].
Proof.
  intros Hfuel Hiss Htr Hfind.
  unfold certificateChainForVisualizer, caAsLeaf.
  cbn [length Nat.eqb cert_issuerCaId].
  destruct fuel as [|fuel]; [lia|].
  rewrite Hiss.
  assert (Hss : isSelfSigned thisCa = true).
  { unfold isSelfSigned. rewrite Hiss, String.eqb_refl.
    now rewrite orb_true_r. }
  assert (Hc0 : v_cond (mkV [] (Some (ca_id thisCa)) 0) = true).
  { unfold v_cond. cbn [v_currentIssuerId v_safetyNet]. now rewrite Htr. }
  assert (Hb0 : v_body findCaById [thisCa] (mkV [] (Some (ca_id thisCa)) 0)
                = Break (mkV [thisCa] (Some (ca_id thisCa)) 0)).
  { unfold v_body. cbn [lookupIssuer v_currentIssuerId v_path v_safetyNet].
    now rewrite Hfind, Hss. }
  rewrite while_S, Hc0, Hb0. reflexivity.
Qed.

End AnyLookup.

(** The lookup by first match finds every record of a list whose identifiers
    are pairwise distinct. *)
Lemma findCaByIdFlat_finds (allCAs : list CA) (ca : CA) :
  NoDup (map ca_id allCAs) -> In ca allCAs ->
  findCaByIdFlat (ca_id ca) allCAs = Some ca.
Proof.
  induction allCAs as [|c rest IH]; intros Hnd Hin; [destruct Hin|].
  simpl. inversion Hnd as [|? ? Hnotin Hnd']; subst.
  destruct Hin as [->|Hin].
  - now rewrite String.eqb_refl.
  - destruct (String.eqb_spec (ca_id c) (ca_id ca)) as [Heq|_].
    + exfalso. apply Hnotin. rewrite Heq. now apply in_map.
    + now apply IH.
Qed.

End ChainFacts.

(** ** The resolver on the sample records *)

Module ChainSamples.
Import Chain Samples.

(** The two-record cycle: the walk ends and stays within ten entries. *)
Lemma cyclic_walk_terminates :
  exists chain,
    certificateChainForVisualizer findCaByIdFlat 11 (Some (caAsLeaf cycleA))
                                  [cycleA; cycleB]
    = Some chain
    /\ length chain <= 10.
Proof.
  apply (ChainFacts.chain_walk_terminates_within_maxDepth
           findCaByIdFlat 11 (Some (caAsLeaf cycleA)) [cycleA; cycleB]).
  unfold maxDepth. lia.
Defined.

(** On the cycle the safety counter is what stops the walk: the chain has
    exactly ten entries. *)
Lemma cyclic_walk_stops_at_ten :
  option_map (@length CA)
    (certificateChainForVisualizer findCaByIdFlat 11 (Some (caAsLeaf cycleA))
                                   [cycleA; cycleB])
  = Some 10.
Proof. reflexivity. Qed.

Lemma three_level_chain :
  certificateChainForVisualizer findCaByIdFlat 11 (Some leafCert)
                                [rootCa; intermediateCa]
  = Some [rootCa; intermediateCa].
Proof.
  apply (ChainFacts.chain_of_three_is_root_then_intermediate
           findCaByIdFlat 11 leafCert rootCa intermediateCa
           [rootCa; intermediateCa]).
  - unfold maxDepth. lia.
  - simpl. left. reflexivity.
  - simpl. right. left. reflexivity.
  - reflexivity.
  - reflexivity.
  - reflexivity.
  - reflexivity.
  - reflexivity.
  - reflexivity.
  - reflexivity.
Defined.

(** The self-signed root inspected against the list that holds only itself:
    the preconditions of the scenario hold and the chain is not empty. *)
Lemma self_signed_root_chain_not_empty :
  ca_issuer rootCa = Some (ca_id rootCa)
  /\ isSelfSigned rootCa = true
  /\ certificateChainForVisualizer findCaByIdFlat 11
                                   (Some (caAsLeaf rootCa)) [rootCa]
     = Some [rootCa].
Proof. repeat split. Qed.

Lemma self_signed_root_chain :
  certificateChainForVisualizer findCaByIdFlat 11 (Some (caAsLeaf rootCa))
                                [rootCa]
  = Some [rootCa].
Proof.
  apply (ChainFacts.self_signed_root_chain_is_itself findCaByIdFlat 11 rootCa).
  - lia.
  - reflexivity.
  - reflexivity.
  - reflexivity.
Defined.

(** C7 on the three-level chain: the blocks come leaf first, then the
    ancestors in walk order, but what stands between two blocks is the four
    characters backslash, n, backslash, n, not two line feeds. *)
Theorem chain_pem_blocks_joined_by_backslash_n :
  buildCertificateChainPem findCaByIdFlat 11 (Some leafCert)
                           [rootCa; intermediateCa]
  = Some "LEAF-PEM\n\nINTERMEDIATE-PEM\n\nROOT-PEM"
  /\ String.eqb "LEAF-PEM\n\nINTERMEDIATE-PEM\n\nROOT-PEM" blankLineChain
     = false
  /\ String.length chainSeparator = 4
  /\ Js.includes "LEAF-PEM\n\nINTERMEDIATE-PEM\n\nROOT-PEM" LF = false.
Proof. repeat split. Qed.

End ChainSamples.

(** ** Byte normalization, structure text and Base64 *)

Module DecoderFacts.
Import Decoder.

Lemma tryCatch_returns {A : Type} (body : exc A) (handler : thrown -> A) :
  tryCatch body (fun e => inr (handler e))
  = inr (match body with inl e => handler e | inr a => a end).
Proof. destruct body; reflexivity. Qed.

Section AnyLibrary.

Variable codec : Codec.
Variable parser : Parser.

(** C3, as the code has it: the trimmed text is given to the first of PEM
    armor, hex and Base64 whose test it passes, in that order; the code
    points are taken as bytes exactly when the text has no armor, is not
    made of hex digits and white space, and the Base64 decoder rejects it.
    A byte sequence is always produced in that third case; under armor or
    for hex digits the outcome is the selected decoder's, a failure
    included: no later form is tried. *)
Theorem normalization_follows_detected_encoding (data : string) :
  let trimmedData := Js.trim data in
  detect trimmedData
  = (if hasArmor trimmedData then PemArmor
     else if Regex.testAt reHexText trimmedData then HexText
     else Base64Text)
  /\ getBytesFromData codec data
     = match detect trimmedData with
       | PemArmor => Base64_decode codec (armorBody trimmedData)
       | HexText => Hex_decode codec trimmedData
       | Base64Text =>
           inr (match Base64_decode codec trimmedData with
                | inr bytes => bytes
                | inl _ => charCodes trimmedData
                end)
       end
  /\ isThrown (getBytesFromData codec data)
     = match detect trimmedData with
       | PemArmor => isThrown (Base64_decode codec (armorBody trimmedData))
       | HexText => isThrown (Hex_decode codec trimmedData)
       | Base64Text => false
       end.
Proof.
  intros trimmedData. split; [reflexivity|].
  unfold getBytesFromData. fold trimmedData.
  destruct (detect trimmedData); try (split; reflexivity).
  rewrite tryCatch_returns.
  destruct (Base64_decode codec trimmedData); split; reflexivity.
Qed.

Lemma generateASN1Structure_returns (data : string) :
  generateASN1Structure codec parser data
  = inr (match parseStructure codec parser data with
         | inl error => parseErrorText error
         | inr text => text
         end).
Proof. unfold generateASN1Structure. apply tryCatch_returns. Qed.

Lemma generateHexDump_returns (data : string) :
  exists dump, generateHexDump codec parser data = inr dump.
Proof.
  unfold generateHexDump. rewrite tryCatch_returns. eexists. reflexivity.
Qed.

Lemma generateBase64_returns (data : string) :
  exists text, generateBase64 codec data = inr text.
Proof.
  unfold generateBase64. rewrite tryCatch_returns. eexists. reflexivity.
Qed.

Lemma binaryString_codes (bytes : list Byte.byte) :
  map byte_of_ascii (list_ascii_of_string (binaryStringOf bytes)) = bytes.
Proof.
  unfold binaryStringOf.
  rewrite list_ascii_of_string_of_list_ascii, map_map.
  induction bytes as [|b rest IH]; [reflexivity|].
  simpl. now rewrite byte_of_ascii_of_byte, IH.
Qed.

(** C10: when normalization gives a buffer of 10240 bytes or more, the
    Base64 text returned is empty; for a shorter buffer it is the standard
    Base64 encoding of the whole buffer. *)
Theorem base64_export_empty_from_maxLength
        (data : string) (bytes : list Byte.byte) :
  getBytesFromData codec data = inr bytes ->
  ((10240 <= lengthN bytes)%N -> generateBase64 codec data = inr "")
  /\ ((lengthN bytes < 10240)%N ->
      generateBase64 codec data = inr (Base64Std.encode bytes)).
Proof.
  intros Hbytes. unfold generateBase64. rewrite Hbytes.
  cbn [bindExc tryCatch]. unfold maxLength. split; intros Hlen.
  - apply N.ltb_ge in Hlen. now rewrite Hlen.
  - apply N.ltb_lt in Hlen. rewrite Hlen. cbn [tryCatch].
    unfold btoa. now rewrite binaryString_codes.
Qed.

(** What [decode] returns and the state it leaves, for every text. *)
Lemma decode_returns (wantHex wantDef : bool) (der : string) (st : HookState) :
  exists dump text data st',
    generateHexDump codec parser der = inr dump
    /\ generateBase64 codec der = inr text
    /\ data = mkData der
                     (match parseStructure codec parser der with
                      | inl error => parseErrorText error
                      | inr pretty => pretty
                      end)
                     (if wantHex then Some dump else None)
                     text
                     (if wantDef
                      then Some (sortByMatch (detectContentType der))
                      else None)
    /\ decode codec parser wantHex wantDef der st = (inr data, st')
    /\ h_isLoading st' = false
    /\ h_error st' = ""
    /\ h_decodedData st' = Some data.
Proof.
  destruct (generateHexDump_returns der) as [dump Hdump].
  destruct (generateBase64_returns der) as [text Htext].
  exists dump, text.
  unfold decode, tryCatchFinally, bind, lift, ret.
  rewrite generateASN1Structure_returns, Htext. cbv zeta.
  remember (sortByMatch (detectContentType der)) as guesses eqn:Hguesses.
  destruct wantHex, wantDef, guesses; rewrite ?Hdump;
    cbn [setIsLoading setError setDefinitions setSelectedDefinition
         setDecodedData fst snd];
    eexists; eexists; repeat split; reflexivity.
Qed.

(** C4, as the code has it: when the TLV parse of a text fails, [decode]
    does not abort.  It returns a result whose structure is the text
    [Parse Error: ...] built from the failure's message, with no tree in it;
    the hex dump, when it is asked for, and the Base64 text of the result are
    what [generateHexDump] and [generateBase64] return for the text, each on
    its own, and the guesses are there when they are asked for; loading is
    over, no error is recorded in the state of the hook, and the result is
    stored as the decoded data. *)
Theorem decode_returns_parse_error_text
        (wantHex wantDef : bool) (der : string) (st : HookState)
        (error : thrown) :
  parseStructure codec parser der = inl error ->
  exists dump text data st',
    generateHexDump codec parser der = inr dump
    /\ generateBase64 codec der = inr text
    /\ decode codec parser wantHex wantDef der st = (inr data, st')
    /\ structure data = parseErrorText error
    /\ content data = der
    /\ hexDumpText data = (if wantHex then Some dump else None)
    /\ base64 data = text
    /\ definitions data
       = (if wantDef then Some (sortByMatch (detectContentType der))
          else None)
    /\ h_isLoading st' = false
    /\ h_error st' = ""
    /\ h_decodedData st' = Some data.
Proof.
  intros Hfail.
  destruct (decode_returns wantHex wantDef der st)
    as (dump & text & data & st' & Hdump & Htext & Hdata & Hrun & Hload
        & Herr & Hstored).
  exists dump, text, data, st'. rewrite Hdata in *. rewrite Hfail in *.
  repeat split; assumption.
Qed.

End AnyLibrary.

End DecoderFacts.

(** ** Substrings and upper case *)

Module JsFacts.

Lemma prefix_split (needle s : string) :
  prefix needle s = true -> exists b, s = needle ++ b.
Proof.
  revert s. induction needle as [|a needle IH]; intros s H.
  - exists s. reflexivity.
  - destruct s as [|c s]; [discriminate|].
    simpl in H. destruct (ascii_dec a c) as [->|]; [|discriminate].
    destruct (IH s H) as [b ->]. exists b. reflexivity.
Qed.

Lemma prefix_append (needle b : string) : prefix needle (needle ++ b) = true.
Proof.
  induction needle as [|a needle IH]; [destruct b; reflexivity|].
  simpl. destruct (ascii_dec a a); [exact IH | congruence].
Qed.

Lemma includes_split (s needle : string) :
  Js.includes s needle = true -> exists a b, s = a ++ needle ++ b.
Proof.
  induction s as [|c s IH]; cbn [Js.includes]; intros H.
  - rewrite orb_false_r in H. destruct (prefix_split _ _ H) as [b Hb].
    exists "", b. exact Hb.
  - apply orb_prop in H as [H|H].
    + destruct (prefix_split _ _ H) as [b Hb]. exists "", b. exact Hb.
    + destruct (IH H) as [a [b ->]]. exists (String c a), b. reflexivity.
Qed.

Lemma includes_inside (a needle b : string) :
  Js.includes (a ++ needle ++ b) needle = true.
Proof.
  induction a as [|c a IH].
  - change ("" ++ needle ++ b) with (needle ++ b).
    destruct (needle ++ b) eqn:E; cbn [Js.includes];
      rewrite <- E, prefix_append; reflexivity.
  - change (String c a ++ needle ++ b) with (String c (a ++ needle ++ b)).
    cbn [Js.includes]. rewrite IH. apply orb_true_r.
Qed.

Lemma append_assoc (a b c : string) : (a ++ b) ++ c = a ++ b ++ c.
Proof. induction a as [|x a IH]; simpl; [reflexivity | now rewrite IH]. Qed.

(** A text that holds [outer] holds every text [outer] holds. *)
Lemma includes_trans (s outer inner : string) :
  Js.includes s outer = true -> Js.includes outer inner = true ->
  Js.includes s inner = true.
Proof.
  intros H1 H2.
  destruct (includes_split _ _ H1) as [a [b ->]].
  destruct (includes_split _ _ H2) as [c [d ->]].
  replace (a ++ (c ++ inner ++ d) ++ b) with ((a ++ c) ++ inner ++ (d ++ b)).
  - apply includes_inside.
  - now rewrite !append_assoc.
Qed.

Lemma toUpperCase_append (a b : string) :
  Js.toUpperCase (a ++ b) = Js.toUpperCase a ++ Js.toUpperCase b.
Proof. induction a as [|x a IH]; simpl; [reflexivity | now rewrite IH]. Qed.

(** Upper-casing keeps a text that is in upper case already. *)
Lemma includes_toUpperCase (s needle : string) :
  Js.toUpperCase needle = needle ->
  Js.includes s needle = true ->
  Js.includes (Js.toUpperCase s) needle = true.
Proof.
  intros Hup H. destruct (includes_split _ _ H) as [a [b ->]].
  rewrite !toUpperCase_append, Hup. apply includes_inside.
Qed.

End JsFacts.

(** ** Content type guesses *)

Module GuessFacts.
Import Decoder Ranking.

Ltac split_guess :=
  unfold detectContentType;
  repeat match goal with
         | |- context [if ?c then _ else _] => destruct c
         end.

Lemma guesses_descending (der : string) :
  descending (sortByMatch (detectContentType der)).
Proof.
  split_guess; cbv [sortByMatch insertSorted before Qle_bool matchValue
                    Qnum Qden Z.mul Pos.mul Z.leb Z.compare Pos.compare
                    Pos.compare_cont descending];
    repeat split; unfold Qle; simpl; lia.
Qed.

Lemma guesses_in_unit_interval (der : string) :
  Forall (fun g => inUnitInterval (matchValue g))
         (sortByMatch (detectContentType der)).
Proof.
  split_guess; cbv [sortByMatch insertSorted before Qle_bool matchValue
                    Qnum Qden Z.mul Pos.mul Z.leb Z.compare Pos.compare
                    Pos.compare_cont];
    repeat constructor; unfold Qle; simpl; lia.
Qed.

Lemma certificate_header_ranks_x509 (der : string) :
  Js.includes der "-----BEGIN CERTIFICATE-----" = true ->
  topLabel (sortByMatch (detectContentType der)) = Some "X.509 Certificate".
Proof.
  intros H.
  assert (Hup : Js.includes (Js.toUpperCase der) "CERTIFICATE" = true).
  { apply JsFacts.includes_trans with (outer := "-----BEGIN CERTIFICATE-----").
    - apply JsFacts.includes_toUpperCase; [reflexivity | exact H].
    - reflexivity. }
  unfold detectContentType. rewrite Hup, orb_true_r. reflexivity.
Qed.

(** C9: for every text the guesses come ranked in descending confidence,
    every confidence lies in [0,1], and a text that holds a CERTIFICATE armor
    header has X.509 Certificate ranked first.  Whether the guess is asked
    for or not, [decode] returns, and with the same structure, hex dump and
    Base64 text: the guess only fills the definitions. *)
Theorem content_type_guess_ranked_and_separate
        (codec : Codec) (parser : Parser) (wantHex : bool) (der : string)
        (st : HookState) :
  let guesses := sortByMatch (detectContentType der) in
  descending guesses
  /\ Forall (fun g => inUnitInterval (matchValue g)) guesses
  /\ (Js.includes der "-----BEGIN CERTIFICATE-----" = true ->
      topLabel guesses = Some "X.509 Certificate")
  /\ exists withGuess withoutGuess st1 st2,
       decode codec parser wantHex true der st = (inr withGuess, st1)
       /\ decode codec parser wantHex false der st = (inr withoutGuess, st2)
       /\ definitions withGuess = Some guesses
       /\ definitions withoutGuess = None
       /\ structure withGuess = structure withoutGuess
       /\ hexDumpText withGuess = hexDumpText withoutGuess
       /\ base64 withGuess = base64 withoutGuess.
Proof.
  intros guesses.
  split; [apply guesses_descending|].
  split; [apply guesses_in_unit_interval|].
  split; [apply certificate_header_ranks_x509|].
  destruct (DecoderFacts.decode_returns codec parser wantHex true der st)
    as (dump1 & text1 & d1 & st1 & Hd1 & Ht1 & Hdata1 & Hrun1 & _).
  destruct (DecoderFacts.decode_returns codec parser wantHex false der st)
    as (dump2 & text2 & d2 & st2 & Hd2 & Ht2 & Hdata2 & Hrun2 & _).
  rewrite Hd1 in Hd2. injection Hd2 as <-.
  rewrite Ht1 in Ht2. injection Ht2 as <-.
  exists d1, d2, st1, st2. subst d1 d2. repeat split; assumption.
Qed.

End GuessFacts.

(** ** The decoder on the sample texts *)

Module DecoderSamples.
Import Decoder Samples.

(** Hex digits in odd number are given to the hex decoder, which rejects
    them; nothing else is tried and no byte sequence is produced. *)
Lemma odd_hex_is_not_normalized :
  detect (Js.trim oddHex) = HexText
  /\ isThrown (Hex_decode Asn1js.codec (Js.trim oddHex)) = true
  /\ isThrown (getBytesFromData Asn1js.codec oddHex) = true.
Proof. repeat split. Qed.

(** The truncated encoding fails to parse, and [decode] returns all the
    same. *)
Lemma decode_returns_on_truncated_input :
  isThrown (parseStructure Asn1js.codec (Asn1js.rejecting truncatedMessage)
                           truncatedHex) = true
  /\ isThrown (fst (decode Asn1js.codec (Asn1js.rejecting truncatedMessage)
                           true true truncatedHex initialState)) = false
  /\ h_error (snd (decode Asn1js.codec (Asn1js.rejecting truncatedMessage)
                          true true truncatedHex initialState)) = "".
Proof. repeat split. Qed.

Lemma truncated_input_gives_parse_error_text :
  exists dump text data st',
    generateHexDump Asn1js.codec (Asn1js.rejecting truncatedMessage)
                    truncatedHex = inr dump
    /\ generateBase64 Asn1js.codec truncatedHex = inr text
    /\ decode Asn1js.codec (Asn1js.rejecting truncatedMessage) true true
              truncatedHex initialState = (inr data, st')
    /\ structure data = parseErrorText (ErrorObject truncatedMessage)
    /\ content data = truncatedHex
    /\ hexDumpText data = Some dump
    /\ base64 data = text
    /\ definitions data = Some (sortByMatch (detectContentType truncatedHex))
    /\ h_isLoading st' = false
    /\ h_error st' = ""
    /\ h_decodedData st' = Some data.
Proof.
  apply (DecoderFacts.decode_returns_parse_error_text
           Asn1js.codec (Asn1js.rejecting truncatedMessage) true true
           truncatedHex initialState (ErrorObject truncatedMessage)).
  reflexivity.
Defined.

Lemma five_bytes_export :
  generateBase64 Asn1js.codec "30 03 02 01 05" = inr "MAMCAQU=".
Proof.
  apply (proj2 (DecoderFacts.base64_export_empty_from_maxLength
                  Asn1js.codec "30 03 02 01 05"
                  [Byte.x30; Byte.x03; Byte.x02; Byte.x01; Byte.x05]
                  eq_refl)).
  reflexivity.
Defined.

Lemma certificate_pem_ranks_x509 :
  Ranking.topLabel (sortByMatch (detectContentType certificatePem))
  = Some "X.509 Certificate".
Proof.
  apply (proj1 (proj2 (proj2
           (GuessFacts.content_type_guess_ranked_and_separate
              Asn1js.codec (Asn1js.rejecting truncatedMessage) true
              certificatePem initialState)))).
  reflexivity.
Defined.

End DecoderSamples.

(** ** The PEM export *)

Module ChainPemFacts.
Import Chain.

Section AnyLookup.

Variable findCaById : string -> list CA -> option CA.

Lemma pem_walk_ends (fuel : nat) :
  forall (allCAs : list CA) (st : pstate) (pem : string)
         (ancestors : list string),
    p_chain st = pem :: ancestors ->
    length ancestors <= p_safetyNet st ->
    p_safetyNet st <= maxDepth ->
    maxDepth - p_safetyNet st < fuel ->
    exists st' ancestors',
      while fuel p_cond (p_body findCaById allCAs) st = Some st'
      /\ p_chain st' = pem :: ancestors'
      /\ length ancestors' <= maxDepth.
Proof.
  induction fuel as [|fuel IH]; intros allCAs st pem ancestors Hch Hlen Hsn Hfuel.
  - lia.
  - rewrite while_S. destruct (p_cond st) eqn:Hc.
    + unfold p_cond in Hc. apply andb_prop in Hc as [_ Hlt].
      apply Nat.ltb_lt in Hlt.
      unfold p_body.
      destruct (lookupIssuer findCaById (p_currentIssuerId st) allCAs)
        as [issuerCa|].
      * destruct (negb (truthy (ca_pemData issuerCa))).
        -- exists st, ancestors. repeat split; [exact Hch | lia].
        -- destruct (isSelfSigned issuerCa).
           ++ eexists. eexists. split; [reflexivity|].
              cbn [p_chain]. rewrite Hch. split; [reflexivity|].
              rewrite length_app. cbn [length]. lia.
           ++ eapply IH; cbn [p_chain p_safetyNet].
              ** rewrite Hch. reflexivity.
              ** rewrite length_app. cbn [length]. lia.
              ** lia.
              ** lia.
      * exists st, ancestors. repeat split; [exact Hch | lia].
    + exists st, ancestors. repeat split; [exact Hch | lia].
Qed.

(** The export always ends, begins with the leaf's block and holds at most
    [maxDepth] blocks after it, put together by [join] with the separator of
    the source. *)
Lemma chain_pem_leaf_first (fuel : nat) (cert : CertificateData)
      (pem : string) (allCAs : list CA) :
  maxDepth < fuel ->
  cert_pemData cert = Some pem ->
  truthy (Some pem) = true ->
  exists ancestors,
    buildCertificateChainPem findCaById fuel (Some cert) allCAs
    = Some (join chainSeparator (pem :: ancestors))
    /\ length ancestors <= maxDepth.
Proof.
  intros Hfuel Hpem Htr. unfold buildCertificateChainPem.
  rewrite Hpem, Htr. cbn [negb].
  destruct (pem_walk_ends fuel allCAs (mkP [pem] (cert_issuerCaId cert) 0)
                          pem [])
    as (st' & ancestors & Hrun & Hch & Hlen);
    cbn [p_chain p_safetyNet length]; try lia; try reflexivity.
  rewrite Hrun. exists ancestors. cbn [option_map]. now rewrite Hch.
Qed.

End AnyLookup.

End ChainPemFacts.

(** ** Byte ranges of tree nodes *)

Module TreeFacts.
Import Asn1View.
Local Open Scope N_scope.
Local Open Scope list_scope.

(** Linking nodes moves them and leaves their lines and ranges as they
    are. *)
Lemma allNodes_app (l1 l2 : list ASN1TreeNode) :
  allNodes (l1 ++ l2) = allNodes l1 ++ allNodes l2.
Proof. unfold allNodes. apply flat_map_app. Qed.

Lemma addChild_ranges (parent child : ASN1TreeNode) :
  Forall carriesRangeOfLine (subtree parent) ->
  Forall carriesRangeOfLine (subtree child) ->
  Forall carriesRangeOfLine (subtree (addChild parent child)).
Proof.
  intros Hp Hc. destruct parent; cbn [subtree addChild n_children] in *.
  inversion Hp as [|? ? Hhead Htail]; subst.
  constructor; [exact Hhead|].
  fold (allNodes (n_children0 ++ [child])). rewrite allNodes_app.
  apply Forall_app. split; [exact Htail|].
  unfold allNodes. cbn [flat_map]. now rewrite app_nil_r.
Qed.

Lemma closeTop_ranges (b : builder) :
  builderRanges b -> builderRanges (closeTop b).
Proof.
  unfold builderRanges, closeTop. intros [Hn Hs].
  destruct (b_stack b) as [|top [|parent rest]] eqn:E; cbn [b_nodes b_stack].
  - rewrite E. split; assumption.
  - split; [|constructor]. rewrite allNodes_app. apply Forall_app.
    split; assumption.
  - split; [exact Hn|].
    change (allNodes (top :: parent :: rest))
      with (subtree top ++ subtree parent ++ allNodes rest) in Hs.
    apply Forall_app in Hs as [Htop Hs]. apply Forall_app in Hs as [Hpar Hrest].
    change (allNodes (addChild parent top :: rest))
      with (subtree (addChild parent top) ++ allNodes rest).
    apply Forall_app. split; [now apply addChild_ranges | exact Hrest].
Qed.

Lemma popTo_ranges (fuel level2 : nat) (b : builder) :
  builderRanges b -> builderRanges (popTo fuel level2 b).
Proof.
  revert b. induction fuel as [|fuel IH]; intros b Hb; [exact Hb|].
  cbn [popTo]. destruct (b_stack b) as [|top rest] eqn:E; [exact Hb|].
  destruct (Nat.leb level2 (n_indentLevel2 top)); [|exact Hb].
  apply IH. now apply closeTop_ranges.
Qed.

Lemma closeAll_ranges (fuel : nat) (b : builder) :
  builderRanges b -> builderRanges (closeAll fuel b).
Proof.
  revert b. induction fuel as [|fuel IH]; intros b Hb; [exact Hb|].
  cbn [closeAll]. apply IH. now apply closeTop_ranges.
Qed.

Lemma nodeOfLine_ranges (index : nat) (line : string) (next : option string) :
  Forall carriesRangeOfLine (subtree (nodeOfLine index line next)).
Proof.
  unfold nodeOfLine. cbn [subtree n_children flat_map].
  constructor; [|constructor].
  unfold carriesRangeOfLine. cbn [n_byteStart n_byteEnd n_line].
  now destruct (byteRangeOfLine (Js.trim line)).
Qed.

Lemma buildFrom_ranges (lines : list string) :
  forall index b, builderRanges b -> builderRanges (buildFrom index lines b).
Proof.
  induction lines as [|line rest IH]; intros index b Hb; [exact Hb|].
  cbn [buildFrom]. apply IH. unfold pushNode.
  destruct (popTo_ranges (length (b_stack b))
              (n_indentLevel2 (nodeOfLine index line (hd_error rest))) b Hb)
    as [Hn Hs].
  split; cbn [b_nodes b_stack]; [exact Hn|].
  change (allNodes (?n :: ?l)) with (subtree n ++ allNodes l).
  apply Forall_app. split; [apply nodeOfLine_ranges | exact Hs].
Qed.

(** Every node of the tree carries the range computed from its own line. *)
Lemma parseASN1Tree_ranges (structure : string) :
  Forall carriesRangeOfLine (allNodes (parseASN1Tree structure)).
Proof.
  unfold parseASN1Tree. apply closeAll_ranges. apply buildFrom_ranges.
  split; constructor.
Qed.

(** On a line in the form the patterns look for, with a content length of
    256 at offset 0x10, the end computed is 275, one tag byte and two length
    bytes after the start, where the length field of 256 takes three bytes
    and the element ends at 276. *)
Lemma byte_range_end_short_at_256 :
  byteRangeOfLine Samples.longFormLine = (Some 16, Some 275)
  /\ map (fun n => (n_byteStart n, n_byteEnd n))
         (parseASN1Tree Samples.longFormLine)
     = [(Some 16, Some 275)]
  /\ Der.lengthFieldBytes 256 = 3
  /\ Der.elementEnd 16 256 = 276.
Proof. repeat split. Qed.

End TreeFacts.

(** ** Highlighting in the hex dump *)

Module HexDumpFacts.
Import Regex Asn1View.
Local Open Scope N_scope.

Lemma isHovered_range (r : byteRange) (p : N) :
  isHovered (Some r) p = true <-> r_start r <= p < r_end r.
Proof.
  unfold isHovered. rewrite andb_true_iff, N.leb_le, N.ltb_lt. reflexivity.
Qed.

Lemma renderBytes_length (range : option byteRange) (hexBytes : list string) :
  forall start i, length (renderBytes range start i hexBytes) = length hexBytes.
Proof.
  induction hexBytes as [|b rest IH]; intros start i; [reflexivity|].
  simpl. now rewrite IH.
Qed.

Lemma renderBytes_nth (range : option byteRange) (hexBytes : list string) :
  forall start i k t,
    nth_error (renderBytes range start i hexBytes) k = Some t ->
    t_position t = start + i + N.of_nat k
    /\ t_hovered t = isHovered range (start + i + N.of_nat k).
Proof.
  induction hexBytes as [|b rest IH]; intros start i k t H.
  - destruct k; discriminate.
  - destruct k as [|k]; simpl in H.
    + injection H as <-. cbn [t_position t_hovered N.of_nat].
      rewrite N.add_0_r. split; reflexivity.
    + apply IH in H. replace (start + i + N.of_nat (S k))
        with (start + (i + 1) + N.of_nat k) by lia.
      exact H.
Qed.

(** A line without an offset numbers its bytes from the counter and moves
    the counter past them. *)
Lemma renderLine_plain (range : option byteRange) (a : N) (line : string) :
  matchAt reOffsetLine line = None ->
  exists hexBytes,
    tokensOfRow (fst (renderLine range a line)) = renderBytes range a 0 hexBytes
    /\ snd (renderLine range a line) = a + N.of_nat (length hexBytes).
Proof.
  intros Hplain. unfold renderLine.
  destruct (String.eqb (Js.trim line) "").
  - exists []. split; [reflexivity | cbn; lia].
  - rewrite Hplain.
    destruct (Nat.ltb 0 (length (filter (testAt reHexPair)
                                        (split reSpaces (Js.trim line)))))
      eqn:Hn.
    + eexists. split; reflexivity.
    + exists []. split; [reflexivity | cbn; lia].
Qed.

Lemma renderLines_plain (range : option byteRange) (lines : list string) :
  Forall (fun line => matchAt reOffsetLine line = None) lines ->
  forall a k t,
    nth_error (tokensOf (renderLines range a lines)) k = Some t ->
    t_position t = a + N.of_nat k
    /\ t_hovered t = isHovered range (a + N.of_nat k).
Proof.
  induction 1 as [|line rest Hline _ IH]; intros a k t Hk.
  - destruct k; discriminate.
  - cbn [renderLines] in Hk.
    destruct (renderLine_plain range a line Hline) as [hexBytes [Htok Hnext]].
    destruct (renderLine range a line) as [r next].
    cbn [fst snd] in Htok, Hnext. unfold tokensOf in Hk.
    cbn [flat_map] in Hk. rewrite Htok in Hk. fold (tokensOf (renderLines range next rest)) in Hk.
    destruct (Nat.ltb k (length hexBytes)) eqn:Hlt.
    + apply Nat.ltb_lt in Hlt.
      rewrite nth_error_app1 in Hk by (now rewrite renderBytes_length).
      apply renderBytes_nth in Hk. now rewrite N.add_0_r in Hk.
    + apply Nat.ltb_ge in Hlt.
      rewrite nth_error_app2 in Hk by (now rewrite renderBytes_length).
      rewrite renderBytes_length in Hk. apply IH in Hk. subst next.
      replace (a + N.of_nat k)
        with (a + N.of_nat (length hexBytes)
              + N.of_nat (k - length hexBytes)) by lia.
      exact Hk.
Qed.

(** In a dump none of whose lines carries an offset, the layout of
    [Stream.hexDump], the rendered hex byte number [k] in reading order has
    position [k], and it is highlighted exactly when [start <= k < end]. *)
Lemma plain_dump_highlights_range (r : byteRange) (hexDump : string) :
  Forall (fun line => matchAt reOffsetLine line = None)
         (Js.splitLines hexDump) ->
  forall k t,
    nth_error (tokensOf (formatHexDump (Some r) hexDump)) k = Some t ->
    t_position t = N.of_nat k
    /\ (t_hovered t = true <-> r_start r <= N.of_nat k < r_end r).
Proof.
  intros Hplain k t Hk. unfold formatHexDump in Hk.
  apply (renderLines_plain _ _ Hplain) in Hk as [Hpos Hhov].
  rewrite N.add_0_l in Hpos, Hhov. split; [exact Hpos|].
  rewrite Hhov. apply isHovered_range.
Qed.

(** The sample dump in the layout of [Stream.hexDump] has no line with an
    offset, and every byte of it is numbered by its rank. *)
Lemma plain_sample_positions :
  Forall (fun line => matchAt reOffsetLine line = None)
         (Js.splitLines Samples.plainDump)
  /\ map t_position
         (tokensOf (formatHexDump (Some (mkRange 3 5)) Samples.plainDump))
     = [0; 1; 2; 3; 4]
  /\ map t_hovered
         (tokensOf (formatHexDump (Some (mkRange 3 5)) Samples.plainDump))
     = [false; false; false; true; true].
Proof. split; [repeat constructor | split; reflexivity]. Qed.

(** [formatHexDump] taken alone, on a dump of two lines that carry an
    offset, a layout [generateHexDump] never hands to it, with the range
    [0,1) active: the counter is not advanced after the first line (the
    update stands after the [return] of that branch), so the second line
    numbers its bytes from 0 again.  The same bytes laid out without offsets
    are numbered 0 to 4 and only the first is highlighted. *)
Lemma offset_rows_restart_byte_index :
  map (fun t => (t_text t, t_position t, t_hovered t))
      (tokensOf (formatHexDump (Some (mkRange 0 1)) Samples.offsetDump))
  = [("30", 0, true); ("03", 1, false); ("02", 2, false);
     ("01", 0, true); ("05", 1, false)]
  /\ map (fun t => (t_text t, t_position t, t_hovered t))
         (tokensOf (formatHexDump (Some (mkRange 0 1)) Samples.plainDump))
     = [("30", 0, true); ("03", 1, false); ("02", 2, false);
        ("01", 3, false); ("05", 4, false)].
Proof. split; reflexivity. Qed.

End HexDumpFacts.

(** ** The matcher consumes what the pattern describes *)

Module RegexFacts.
Import Regex RegexSem.

Lemma length_append (a b : string) :
  String.length (a ++ b) = String.length a + String.length b.
Proof. induction a as [|x a IH]; simpl; [reflexivity | now rewrite IH]. Qed.

Lemma substring_whole_prefix (w rest : string) :
  substring 0 (String.length w) (w ++ rest) = w.
Proof.
  induction w as [|x w IH]; simpl.
  - destruct rest; reflexivity.
  - now rewrite IH.
Qed.

Lemma consumed_append (w rest : string) : consumed (w ++ rest) rest = w.
Proof.
  unfold consumed. rewrite length_append.
  replace (String.length w + String.length rest - String.length rest)
    with (String.length w) by lia.
  apply substring_whole_prefix.
Qed.

(** Whenever the matcher goes on to its continuation, it has consumed a
    prefix of the subject that the pattern describes. *)
Lemma run_sound {R : Type} (r : regex) :
  forall (s : string) (c : captures) (k : string -> captures -> option R)
         (x : R),
    run r s c k = Some x ->
    exists w s' c', s = w ++ s' /\ Matches r w /\ k s' c' = Some x.
Proof.
  induction r as [|a|p|r1 IH1 r2 IH2|r1 IH1 r2 IH2|r1 IH1|i r1 IH1|];
    intros s c k x H.
  - exists "", s, c. repeat split; [constructor | exact H].
  - cbn [run] in H. destruct s as [|b s]; [discriminate|].
    destruct (Ascii.eqb_spec a b) as [->|]; [|discriminate].
    exists (String b ""), s, c. repeat split; [constructor | exact H].
  - cbn [run] in H. destruct s as [|b s]; [discriminate|].
    destruct (p b) eqn:Hp; [|discriminate].
    exists (String b ""), s, c. repeat split; [now constructor | exact H].
  - cbn [run] in H. apply IH1 in H as (w1 & s1 & c1 & -> & M1 & H).
    apply IH2 in H as (w2 & s2 & c2 & -> & M2 & H).
    exists (w1 ++ w2), s2, c2. repeat split; [|now constructor | exact H].
    now rewrite JsFacts.append_assoc.
  - cbn [run] in H. destruct (run r1 s c k) eqn:E.
    + injection H as ->. apply IH1 in E as (w & s' & c' & -> & M & E).
      exists w, s', c'. repeat split; [now apply MAltL | exact E].
    + apply IH2 in H as (w & s' & c' & -> & M & H).
      exists w, s', c'. repeat split; [now apply MAltR | exact H].
  - cbn [run] in H. remember (String.length s) as n eqn:Hn. clear Hn.
    revert s c H. induction n as [|n IHn]; intros s c H.
    + exists "", s, c. repeat split; [constructor | exact H].
    + match type of H with
      | match ?m with _ => _ end = _ => destruct m eqn:E
      end.
      * injection H as ->. apply IH1 in E as (w1 & s1 & c1 & -> & M1 & E).
        destruct (Nat.ltb (String.length s1) (String.length (w1 ++ s1)));
          [|discriminate].
        apply IHn in E as (w2 & s2 & c2 & -> & M2 & E).
        exists (w1 ++ w2), s2, c2.
        repeat split; [|now constructor | exact E].
        now rewrite JsFacts.append_assoc.
      * exists "", s, c. repeat split; [constructor | exact H].
  - cbn [run] in H. apply IH1 in H as (w & s' & c' & -> & M & H).
    exists w, s', ((i, consumed (w ++ s') s') :: c').
    repeat split; [now constructor | exact H].
  - cbn [run] in H. destruct s; [|discriminate].
    exists "", "", c. repeat split; [constructor | exact H].
Qed.

(** A group records exactly the text its pattern consumed. *)
Lemma run_group {R : Type} (i : nat) (r : regex) (s : string) (c : captures)
      (k : string -> captures -> option R) (x : R) :
  run (Grp i r) s c k = Some x ->
  exists w s' c', s = w ++ s' /\ Matches r w /\ k s' ((i, w) :: c') = Some x.
Proof.
  intros H. cbn [run] in H. apply run_sound in H as (w & s' & c' & -> & M & H).
  rewrite consumed_append in H. now exists w, s', c'.
Qed.

Lemma Matches_Lit (t w : string) : Matches (Lit t) w -> w = t.
Proof.
  revert w. induction t as [|a t IH]; intros w M; cbn [Lit] in M.
  - now inversion M.
  - inversion M as [| | |? ? w1 w2 M1 M2| | | | | |]; subst.
    inversion M1; subst. apply IH in M2. now subst.
Qed.

Lemma Matches_Star_class (p : ascii -> bool) (w : string) :
  Matches (Star (Cls p)) w -> allChars p w = true.
Proof.
  intros M. remember (Star (Cls p)) as r eqn:Hr.
  induction M as [| | | | | | |r w1 w2 M1 _ M2 IH2| |]; try discriminate.
  - reflexivity.
  - injection Hr as ->. inversion M1 as [| |? b Hb| | | | | | |]; subst.
    cbn [append allChars]. rewrite Hb. now apply IH2.
Qed.

Lemma Matches_Plus_class (p : ascii -> bool) (w : string) :
  Matches (Plus (Cls p)) w ->
  allChars p w = true /\ exists b rest, w = String b rest.
Proof.
  unfold Plus. intros M.
  inversion M as [| | |? ? w1 w2 M1 M2| | | | | |]; subst.
  inversion M1 as [| |? b Hb| | | | | | |]; subst.
  split; [|now exists b, w2].
  cbn [append allChars]. rewrite Hb. now apply Matches_Star_class.
Qed.

End RegexFacts.

(** ** The common name of a subject and the deletion check *)

Module CertDetailsFacts.
Import Regex RegexSem Chain CertDetails.

Lemma matchAt_commonName (s rest : string) (c : captures) :
  matchAt reCommonName s = Some (rest, c) ->
  exists cn,
    s = "CN=" ++ cn ++ rest
    /\ group 1 c = Some cn
    /\ allChars notComma cn = true
    /\ exists b t, cn = String b t.
Proof.
  unfold matchAt, reCommonName. cbn [seq]. intros H.
  change (run (Cat ?a ?b) ?s0 ?c0 ?k)
    with (run a s0 c0 (fun s' c' => run b s' c' k)) in H.
  apply RegexFacts.run_sound in H as (w1 & s1 & c1 & -> & M1 & H).
  apply RegexFacts.Matches_Lit in M1. subst w1.
  apply RegexFacts.run_group in H as (cn & s2 & c2 & -> & M2 & H).
  injection H as <- <-.
  apply RegexFacts.Matches_Plus_class in M2 as [Hall Hne].
  exists cn. split; [reflexivity|]. split; [reflexivity|].
  split; assumption.
Qed.

Lemma search_commonName (subject : string) (f : found) :
  search reCommonName subject = Some f ->
  exists pre cn rest,
    subject = pre ++ "CN=" ++ cn ++ rest
    /\ group 1 (f_groups f) = Some cn
    /\ allChars notComma cn = true
    /\ exists b t, cn = String b t.
Proof.
  unfold search. intros H0.
  assert (Hany : exists i, searchFrom reCommonName i subject = Some f)
    by (now exists 0).
  clear H0. destruct Hany as [i H]. revert i H.
  induction subject as [|a subject IH]; intros i H; cbn [searchFrom] in H.
  - destruct (matchAt reCommonName "") as [[rest c]|] eqn:E; [|discriminate].
    injection H as <-. apply matchAt_commonName in E as (cn & E & Hg & Ha & Hn).
    exists "", cn, rest. split; [exact E|]. split; [exact Hg|].
    split; [exact Ha | exact Hn].
  - destruct (matchAt reCommonName (String a subject)) as [[rest c]|] eqn:E.
    + injection H as <-.
      apply matchAt_commonName in E as (cn & E & Hg & Ha & Hn).
      exists "", cn, rest. split; [exact E|]. split; [exact Hg|].
      split; [exact Ha | exact Hn].
    + apply IH in H as (pre & cn & rest & -> & Hg & Ha & Hn).
      exists (String a pre), cn, rest. split; [reflexivity|].
      split; [exact Hg|]. split; [exact Ha | exact Hn].
Qed.

Lemma commonName_empty_iff (subject : string) :
  getCertSubjectCommonName subject = "" <-> subject = "".
Proof.
  unfold getCertSubjectCommonName.
  destruct (search reCommonName subject) as [f|] eqn:E; [|reflexivity].
  apply search_commonName in E as (pre & cn & rest & Hs & Hg & Ha & b & t & Hcn).
  rewrite Hg. subst cn. split; [discriminate|].
  intros ->. destruct pre; discriminate.
Qed.

(** The common name is the whole subject, or a text without comma that
    follows [CN=] in the subject; it is empty only for the empty subject;
    and a subject that does not hold [CN=] is returned as it is. *)
Theorem common_name_of_subject (subject : string) :
  (getCertSubjectCommonName subject = subject
   \/ exists pre rest,
        subject = pre ++ "CN=" ++ getCertSubjectCommonName subject ++ rest
        /\ allChars notComma (getCertSubjectCommonName subject) = true)
  /\ (getCertSubjectCommonName subject = "" <-> subject = "")
  /\ (Js.includes subject "CN=" = false ->
      getCertSubjectCommonName subject = subject).
Proof.
  split; [|split; [apply commonName_empty_iff|]];
    unfold getCertSubjectCommonName;
    destruct (search reCommonName subject) as [f|] eqn:E;
    try (now left); try reflexivity;
    apply search_commonName in E
      as (pre & cn & rest & Hs & Hg & Ha & b & t & Hcn);
    rewrite Hg.
  - right. now exists pre, rest.
  - intros Hno. rewrite Hs, JsFacts.includes_inside in Hno. discriminate.
Qed.

Section Deletion.

Variable findCaById : string -> list CA -> option CA.
Variable fetchDeviceById : string -> deviceLookup.

(** The check allows the deletion exactly when the certificate is loaded,
    a token is at hand, the CA list is not empty, the issuer has no
    identifier or is not found in the list, the subject is not empty, and
    the lookup of the device named by the common name failed with a message
    that holds 404 or, in any case of letters, not found. *)
Theorem deletion_allowed_iff
        (certificateDetails : option (CertificateData * string))
        (hasToken : bool) (allCAs : list CA) (st : deletionState) :
  canDelete (checkDeletionCriteria findCaById fetchDeviceById
                                   certificateDetails hasToken allCAs st)
  = true
  <-> exists details subject message,
        certificateDetails = Some (details, subject)
        /\ hasToken = true
        /\ Nat.ltb 0 (length allCAs) = true
        /\ (truthy (cert_issuerCaId details) = false
            \/ lookupIssuer findCaById (cert_issuerCaId details) allCAs = None)
        /\ String.eqb subject "" = false
        /\ fetchDeviceById (getCertSubjectCommonName subject)
           = LookupFailed message
        /\ isNotFound message = true.
Proof.
  unfold checkDeletionCriteria.
  destruct certificateDetails as [[details subject]|].
  2:{ split; [discriminate|]. intros (? & ? & ? & H & _). discriminate. }
  pose proof (commonName_empty_iff subject) as Hempty.
  assert (Htr : truthy (Some (getCertSubjectCommonName subject))
                = negb (String.eqb subject "")).
  { cbn [truthy]. f_equal.
    destruct (String.eqb_spec (getCertSubjectCommonName subject) "") as [H|H];
      destruct (String.eqb_spec subject "") as [H'|H']; try reflexivity.
    - now apply Hempty in H.
    - now apply Hempty in H'. }
  rewrite Htr.
  destruct hasToken; cbn [negb orb].
  2:{ split; [discriminate|]. intros (? & ? & ? & _ & H & _). discriminate. }
  destruct allCAs as [|ca0 rest]; cbn [length Nat.eqb Nat.ltb Nat.leb].
  { split; [discriminate|]. intros (? & ? & ? & _ & _ & H & _). discriminate. }
  cbn [canDelete]. split.
  - intros H. apply andb_prop in H as [Hiss Huse].
    exists details, subject.
    destruct (String.eqb subject ""); cbn [negb] in Huse; [discriminate|].
    destruct (fetchDeviceById (getCertSubjectCommonName subject))
      as [|message] eqn:Ef; [discriminate|].
    exists message. repeat split.
    + destruct (truthy (cert_issuerCaId details)); [|now left].
      right. destruct (lookupIssuer findCaById (cert_issuerCaId details)
                                    (ca0 :: rest)); [discriminate | reflexivity].
    + now destruct (isNotFound message).
  - intros (d & s & message & E & _ & _ & Hiss & Hsub & Hf & Hnf).
    injection E as <- <-. rewrite Hsub, Hf, Hnf. cbn [negb andb].
    destruct Hiss as [-> | ->]; [reflexivity|].
    now destruct (truthy (cert_issuerCaId details)).
Qed.

End Deletion.

End CertDetailsFacts.

(** ** More on the two walks of the resolver *)

Module ChainOrderFacts.
Import Chain ChainOrder.
Local Open Scope list_scope.

Section AnyLookup.

Variable findCaById : string -> list CA -> option CA.

Lemma linked_app (allCAs : list CA) (l : list CA) :
  forall (start : option string) (ca : CA),
    linked findCaById allCAs start l ->
    lookupIssuer findCaById (nextIssuer start l) allCAs = Some ca ->
    linked findCaById allCAs start (l ++ [ca]).
Proof.
  induction l as [|c l IH]; intros start ca Hl Hfind; cbn [app linked] in *.
  - split; [exact Hfind | exact I].
  - destruct Hl as [Hc Hl]. split; [exact Hc|]. now apply IH.
Qed.

Lemma nextIssuer_app (l : list CA) :
  forall (start : option string) (ca : CA),
    nextIssuer start (l ++ [ca]) = ca_issuer ca.
Proof.
  induction l as [|c l IH]; intros start ca; cbn [app nextIssuer];
    [reflexivity | apply IH].
Qed.

(** What the walk of the visualizer keeps true of its state. *)
Lemma visualizer_walk_linked (allCAs : list CA) (start : option string)
      (fuel : nat) :
  forall st st',
    linked findCaById allCAs start (rev (v_path st)) ->
    nextIssuer start (rev (v_path st)) = v_currentIssuerId st ->
    Forall (fun ca => isSelfSigned ca = false) (v_path st) ->
    while fuel v_cond (v_body findCaById allCAs) st = Some st' ->
    linked findCaById allCAs start (rev (v_path st'))
    /\ Forall (fun ca => isSelfSigned ca = false) (tl (v_path st')).
Proof.
  induction fuel as [|fuel IH]; intros st st' Hl Hn Hss Hrun; [discriminate|].
  rewrite while_S in Hrun.
  assert (Hstay : linked findCaById allCAs start (rev (v_path st))
                  /\ Forall (fun ca => isSelfSigned ca = false)
                            (tl (v_path st))).
  { split; [exact Hl|]. destruct (v_path st); [constructor|].
    now inversion Hss. }
  destruct (v_cond st); [|now injection Hrun as <-].
  unfold v_body in Hrun.
  destruct (lookupIssuer findCaById (v_currentIssuerId st) allCAs)
    as [issuerCa|] eqn:Hfind; [|now injection Hrun as <-].
  assert (Hl' : linked findCaById allCAs start
                       (rev (issuerCa :: v_path st))).
  { cbn [rev]. apply linked_app; [exact Hl | now rewrite Hn]. }
  destruct (isSelfSigned issuerCa) eqn:Hself.
  - injection Hrun as <-. cbn [v_path tl]. split; [exact Hl' | exact Hss].
  - apply IH in Hrun; [exact Hrun | exact Hl' | | ].
    + cbn [v_path v_currentIssuerId rev]. apply nextIssuer_app.
    + cbn [v_path]. now constructor.
Qed.

(** The chain is an issuer chain: read from its last entry to its first,
    the first record is the one found for the leaf's issuer reference and
    each next one is the one found for the issuer of the record before; and
    the walk stopped at the first self-signed record, so none but the first
    entry of the chain is self-signed. *)
Theorem chain_is_linked_and_stops_at_self_signed
        (fuel : nat) (leaf : CertificateData) (allCAs chain : list CA) :
  certificateChainForVisualizer findCaById fuel (Some leaf) allCAs
  = Some chain ->
  linked findCaById allCAs (cert_issuerCaId leaf) (rev chain)
  /\ Forall (fun ca => isSelfSigned ca = false) (tl chain).
Proof.
  unfold certificateChainForVisualizer. intros H.
  destruct (Nat.eqb (length allCAs) 0).
  - injection H as <-. split; [exact I | constructor].
  - destruct (while fuel v_cond (v_body findCaById allCAs)
                    (mkV [] (cert_issuerCaId leaf) 0)) as [st'|] eqn:Hrun;
      [|discriminate].
    injection H as <-.
    apply (visualizer_walk_linked allCAs (cert_issuerCaId leaf) fuel
             (mkV [] (cert_issuerCaId leaf) 0) st');
      [exact I | reflexivity | constructor | exact Hrun].
Qed.

(** The two loops in step: as long as every record found has PEM text, the
    PEM walk has pushed the text of each record the visualizer has
    unshifted, and both ask for the same identifier next. *)
Lemma walks_in_step (allCAs : list CA) (pem : string) (fuel : nat) :
  (forall i ca, findCaById i allCAs = Some ca ->
                truthy (ca_pemData ca) = true) ->
  forall vs ps vs',
    p_chain ps = pem :: map pemOf (rev (v_path vs)) ->
    p_currentIssuerId ps = v_currentIssuerId vs ->
    p_safetyNet ps = v_safetyNet vs ->
    while fuel v_cond (v_body findCaById allCAs) vs = Some vs' ->
    exists ps',
      while fuel p_cond (p_body findCaById allCAs) ps = Some ps'
      /\ p_chain ps' = pem :: map pemOf (rev (v_path vs')).
Proof.
  intros Hpem. induction fuel as [|fuel IH];
    intros vs ps vs' Hch Hid Hsn Hrun; [discriminate|].
  rewrite while_S in Hrun. rewrite while_S.
  assert (Hc : p_cond ps = v_cond vs)
    by (unfold p_cond, v_cond; now rewrite Hid, Hsn).
  rewrite Hc. destruct (v_cond vs).
  2:{ injection Hrun as <-. now exists ps. }
  unfold v_body in Hrun. unfold p_body. rewrite Hid.
  destruct (lookupIssuer findCaById (v_currentIssuerId vs) allCAs)
    as [issuerCa|] eqn:Hfind.
  2:{ injection Hrun as <-. now exists ps. }
  assert (Hhas : truthy (ca_pemData issuerCa) = true).
  { unfold lookupIssuer in Hfind.
    destruct (v_currentIssuerId vs) as [i|]; [|discriminate].
    now apply (Hpem i). }
  rewrite Hhas. cbn [negb]. fold (pemOf issuerCa).
  assert (Hch' : p_chain ps ++ [pemOf issuerCa]
                 = pem :: map pemOf (rev (issuerCa :: v_path vs))).
  { rewrite Hch. cbn [rev]. now rewrite map_app. }
  destruct (isSelfSigned issuerCa).
  - injection Hrun as <-. eexists. split; [reflexivity | exact Hch'].
  - apply (IH _ (mkP (p_chain ps ++ [pemOf issuerCa]) (ca_issuer issuerCa)
                     (S (p_safetyNet ps)))) in Hrun;
      [exact Hrun | exact Hch' | reflexivity |].
    cbn [p_safetyNet v_safetyNet]. now rewrite Hsn.
Qed.

(** When every record the lookup finds in the list has PEM text, the export
    is the leaf's block followed by the blocks of the visualizer's chain
    read from its last entry to its first, put together with the separator
    of the source. *)
Theorem pem_export_follows_visualizer_chain
        (fuel : nat) (leaf : CertificateData) (pem : string)
        (allCAs chain : list CA) :
  cert_pemData leaf = Some pem ->
  truthy (Some pem) = true ->
  (forall i ca, findCaById i allCAs = Some ca ->
                truthy (ca_pemData ca) = true) ->
  certificateChainForVisualizer findCaById fuel (Some leaf) allCAs
  = Some chain ->
  Nat.eqb (length allCAs) 0 = false ->
  buildCertificateChainPem findCaById fuel (Some leaf) allCAs
  = Some (join chainSeparator (pem :: map pemOf (rev chain))).
Proof.
  intros Hleaf Htr Hpem Hchain Hne.
  unfold certificateChainForVisualizer in Hchain. rewrite Hne in Hchain.
  unfold buildCertificateChainPem. rewrite Hleaf, Htr. cbn [negb].
  destruct (while fuel v_cond (v_body findCaById allCAs)
                  (mkV [] (cert_issuerCaId leaf) 0)) as [vs'|] eqn:Hrun;
    [|discriminate].
  injection Hchain as <-.
  destruct (walks_in_step allCAs pem fuel Hpem
              (mkV [] (cert_issuerCaId leaf) 0)
              (mkP [pem] (cert_issuerCaId leaf) 0) vs')
    as [ps' [Hp Hch]]; try reflexivity; [exact Hrun|].
  rewrite Hp. cbn [option_map]. now rewrite Hch.
Qed.

(** A leaf whose issuer reference is missing, empty or not found in the
    list has an empty chain, and its export is its own block alone. *)
Theorem unknown_issuer_gives_leaf_alone
        (fuel : nat) (leaf : CertificateData) (pem : string)
        (allCAs : list CA) :
  0 < fuel ->
  cert_pemData leaf = Some pem ->
  truthy (Some pem) = true ->
  truthy (cert_issuerCaId leaf) = false
  \/ lookupIssuer findCaById (cert_issuerCaId leaf) allCAs = None ->
  certificateChainForVisualizer findCaById fuel (Some leaf) allCAs = Some []
  /\ buildCertificateChainPem findCaById fuel (Some leaf) allCAs = Some pem.
Proof.
  intros Hfuel Hleaf Htr Hunknown.
  destruct fuel as [|fuel]; [lia|].
  unfold certificateChainForVisualizer, buildCertificateChainPem.
  rewrite Hleaf, Htr, !while_S. cbn [negb].
  unfold v_cond, p_cond, v_body, p_body.
  cbn [v_currentIssuerId p_currentIssuerId v_safetyNet p_safetyNet
       v_path p_chain].
  destruct Hunknown as [-> | ->].
  - cbn [andb option_map v_path p_chain join].
    now destruct (Nat.eqb (length allCAs) 0).
  - destruct (truthy (cert_issuerCaId leaf) && Nat.ltb 0 maxDepth);
      cbn [option_map v_path p_chain join];
      now destruct (Nat.eqb (length allCAs) 0).
Qed.

End AnyLookup.

End ChainOrderFacts.

(** ** More of the resolver on the sample records *)

Module ChainOrderSamples.
Import Chain ChainOrder Samples.
Local Open Scope list_scope.

Lemma three_level_chain_is_linked :
  linked findCaByIdFlat [rootCa; intermediateCa] (cert_issuerCaId leafCert)
         (rev [rootCa; intermediateCa])
  /\ Forall (fun ca => isSelfSigned ca = false) (tl [rootCa; intermediateCa]).
Proof.
  apply (ChainOrderFacts.chain_is_linked_and_stops_at_self_signed
           findCaByIdFlat 11 leafCert [rootCa; intermediateCa]
           [rootCa; intermediateCa]).
  reflexivity.
Defined.

Lemma all_sample_records_have_pem :
  forall i ca, findCaByIdFlat i [rootCa; intermediateCa] = Some ca ->
               truthy (ca_pemData ca) = true.
Proof.
  intros i ca H. cbn [findCaByIdFlat] in H.
  destruct (String.eqb (ca_id rootCa) i); [now injection H as <-|].
  destruct (String.eqb (ca_id intermediateCa) i); [now injection H as <-|].
  discriminate.
Qed.

Lemma three_level_export_follows_chain :
  buildCertificateChainPem findCaByIdFlat 11 (Some leafCert)
                           [rootCa; intermediateCa]
  = Some (join chainSeparator
               ("LEAF-PEM" :: map pemOf (rev [rootCa; intermediateCa]))).
Proof.
  apply (ChainOrderFacts.pem_export_follows_visualizer_chain
           findCaByIdFlat 11 leafCert "LEAF-PEM" [rootCa; intermediateCa]
           [rootCa; intermediateCa]).
  - reflexivity.
  - reflexivity.
  - exact all_sample_records_have_pem.
  - reflexivity.
  - reflexivity.
Defined.

(** A certificate whose issuer is not in the list. *)
Lemma orphan_leaf_alone :
  certificateChainForVisualizer findCaByIdFlat 11
    (Some (mkCert (Some "LEAF-PEM") (Some "unknown-ca"))) [rootCa]
  = Some []
  /\ buildCertificateChainPem findCaByIdFlat 11
       (Some (mkCert (Some "LEAF-PEM") (Some "unknown-ca"))) [rootCa]
     = Some "LEAF-PEM".
Proof.
  apply (ChainOrderFacts.unknown_issuer_gives_leaf_alone
           findCaByIdFlat 11 (mkCert (Some "LEAF-PEM") (Some "unknown-ca"))
           "LEAF-PEM" [rootCa]).
  - lia.
  - reflexivity.
  - reflexivity.
  - right. reflexivity.
Defined.

End ChainOrderSamples.

(** ** Expanding and collapsing the tree *)

Module TreeControlFacts.
Import Asn1View JsMore Asn1Controls.
Local Open Scope list_scope.

Lemma has_delete (s : JsSet) (y x : string) :
  has (delete s y) x = has s x && negb (String.eqb y x).
Proof.
  unfold has, delete. induction s as [|z s IH]; [reflexivity|].
  cbn [filter]. destruct (String.eqb y z) eqn:Eyz; cbn [negb existsb];
    rewrite IH; destruct (String.eqb x z) eqn:Exz;
    destruct (String.eqb y x) eqn:Eyx; cbn [negb orb andb];
    rewrite ?andb_true_r, ?andb_false_r; try reflexivity.
  - apply String.eqb_eq in Eyz, Exz. apply String.eqb_neq in Eyx. congruence.
  - apply String.eqb_neq in Eyz. apply String.eqb_eq in Exz, Eyx. congruence.
Qed.

Lemma has_add (s : JsSet) (y x : string) :
  has (add s y) x = has s x || String.eqb x y.
Proof.
  unfold add. destruct (has s y) eqn:Hy.
  - destruct (String.eqb_spec x y) as [->|]; [|now rewrite orb_false_r].
    now rewrite Hy.
  - unfold has. rewrite existsb_app. cbn [existsb]. now rewrite orb_false_r.
Qed.

Lemma delete_NoDup (s : JsSet) (y : string) : NoDup s -> NoDup (delete s y).
Proof. apply NoDup_filter. Qed.

Lemma has_In (s : JsSet) (x : string) : has s x = true <-> In x s.
Proof.
  unfold has. rewrite existsb_exists. split.
  - intros [y [Hin Heq]]. apply String.eqb_eq in Heq. now subst.
  - intros Hin. exists x. split; [exact Hin | apply String.eqb_refl].
Qed.

Lemma add_NoDup (s : JsSet) (y : string) : NoDup s -> NoDup (add s y).
Proof.
  intros Hs. unfold add. destruct (has s y) eqn:Hy; [exact Hs|].
  apply NoDup_app; [exact Hs | repeat constructor; intros [] |].
  intros x Hx [<-|[]]. apply has_In in Hx. congruence.
Qed.

(** Toggling a node flips whether that node is expanded and changes no
    other node; toggling it again gives back the expansion there was; and
    the set keeps each identifier once. *)
Theorem toggle_flips_one_node (nodeId : string) (prev : JsSet) (x : string) :
  has (toggleNode nodeId prev) x
  = (if String.eqb x nodeId then negb (has prev x) else has prev x)
  /\ has (toggleNode nodeId (toggleNode nodeId prev)) x = has prev x
  /\ (NoDup prev -> NoDup (toggleNode nodeId prev)).
Proof.
  assert (Hflip : forall s y,
             has (toggleNode nodeId s) y
             = (if String.eqb y nodeId then negb (has s y) else has s y)).
  { intros s y. unfold toggleNode. destruct (has s nodeId) eqn:Hn.
    - rewrite has_delete. destruct (String.eqb_spec y nodeId) as [->|Hne].
      + now rewrite Hn, String.eqb_refl.
      + destruct (String.eqb_spec nodeId y); [congruence|].
        now rewrite andb_true_r.
    - rewrite has_add. destruct (String.eqb_spec y nodeId) as [->|Hne].
      + now rewrite Hn.
      + now rewrite orb_false_r. }
  split; [apply Hflip|]. split.
  - rewrite !Hflip. destruct (String.eqb x nodeId); [|reflexivity].
    apply negb_involutive.
  - intros Hs. unfold toggleNode.
    destruct (has prev nodeId); [now apply delete_NoDup | now apply add_NoDup].
Qed.

Lemma has_fold_add (l : list string) :
  forall (acc : JsSet) (x : string),
    has (fold_left add l acc) x = has acc x || existsb (String.eqb x) l.
Proof.
  induction l as [|y l IH]; intros acc x; cbn [fold_left existsb].
  - now rewrite orb_false_r.
  - rewrite IH, has_add. now rewrite orb_assoc.
Qed.

Lemma has_setOf (l : list string) (x : string) :
  In x l -> has (setOf l) x = true.
Proof.
  intros Hin. unfold setOf. rewrite has_fold_add.
  apply (has_In l x) in Hin. unfold has in Hin. now rewrite Hin, orb_true_r.
Qed.

(** *** What the parser keeps true of every node *)

Section TreeInvariant.

Variable P : ASN1TreeNode -> Prop.
Hypothesis P_line : forall index line next, P (nodeOfLine index line next).
Hypothesis P_addChild : forall parent child, P parent -> P (addChild parent child).

Lemma addChild_keeps (parent child : ASN1TreeNode) :
  Forall P (subtree parent) -> Forall P (subtree child) ->
  Forall P (subtree (addChild parent child)).
Proof.
  intros Hp Hc. destruct parent; cbn [subtree addChild n_children] in *.
  inversion Hp as [|? ? Hhead Htail]; subst.
  constructor; [now apply (P_addChild (mkNode _ _ _ _ _ _ _ _))|].
  rewrite flat_map_app. apply Forall_app. split; [exact Htail|].
  cbn [flat_map]. now rewrite app_nil_r.
Qed.

Lemma closeTop_keeps (b : builder) :
  Forall P (allNodes (b_nodes b)) /\ Forall P (allNodes (b_stack b)) ->
  Forall P (allNodes (b_nodes (closeTop b)))
  /\ Forall P (allNodes (b_stack (closeTop b))).
Proof.
  unfold closeTop, allNodes. intros [Hn Hs].
  destruct (b_stack b) as [|top [|parent rest]] eqn:E; cbn [b_nodes b_stack].
  - rewrite E. split; assumption.
  - split; [|constructor]. rewrite flat_map_app. apply Forall_app.
    split; assumption.
  - split; [exact Hn|]. cbn [flat_map] in *.
    apply Forall_app in Hs as [Htop Hs]. apply Forall_app in Hs as [Hpar Hrest].
    apply Forall_app. split; [now apply addChild_keeps | exact Hrest].
Qed.

Lemma popTo_keeps (fuel level2 : nat) :
  forall b,
    Forall P (allNodes (b_nodes b)) /\ Forall P (allNodes (b_stack b)) ->
    Forall P (allNodes (b_nodes (popTo fuel level2 b)))
    /\ Forall P (allNodes (b_stack (popTo fuel level2 b))).
Proof.
  induction fuel as [|fuel IH]; intros b Hb; [exact Hb|].
  cbn [popTo]. destruct (b_stack b) as [|top rest] eqn:E; [now rewrite E|].
  destruct (Nat.leb level2 (n_indentLevel2 top)); [|now rewrite E].
  apply IH. apply closeTop_keeps. now rewrite E.
Qed.

Lemma closeAll_keeps (fuel : nat) :
  forall b,
    Forall P (allNodes (b_nodes b)) /\ Forall P (allNodes (b_stack b)) ->
    Forall P (allNodes (b_nodes (closeAll fuel b))).
Proof.
  induction fuel as [|fuel IH]; intros b Hb; [apply Hb|].
  cbn [closeAll]. apply IH. now apply closeTop_keeps.
Qed.

Lemma buildFrom_keeps (lines : list string) :
  forall index b,
    Forall P (allNodes (b_nodes b)) /\ Forall P (allNodes (b_stack b)) ->
    Forall P (allNodes (b_nodes (buildFrom index lines b)))
    /\ Forall P (allNodes (b_stack (buildFrom index lines b))).
Proof.
  induction lines as [|line rest IH]; intros index b Hb; [exact Hb|].
  cbn [buildFrom]. apply IH. unfold pushNode.
  destruct (popTo_keeps (length (b_stack b))
              (n_indentLevel2 (nodeOfLine index line (hd_error rest))) b Hb)
    as [Hn Hs].
  split; cbn [b_nodes b_stack]; [exact Hn|].
  unfold allNodes in *. cbn [flat_map]. apply Forall_app.
  split; [|exact Hs].
  unfold nodeOfLine at 1. cbn [subtree n_children flat_map].
  constructor; [apply P_line | constructor].
Qed.

Lemma parseASN1Tree_keeps (structure : string) :
  Forall P (allNodes (parseASN1Tree structure)).
Proof.
  unfold parseASN1Tree. apply closeAll_keeps. apply buildFrom_keeps.
  split; constructor.
Qed.

End TreeInvariant.

(** In a parsed tree every node that has children is marked as having
    children. *)
Lemma parsed_nodes_marked (structure : string) :
  Forall marked (allNodes (parseASN1Tree structure)).
Proof.
  apply parseASN1Tree_keeps.
  - intros index line next. left. reflexivity.
  - intros parent child _. right. reflexivity.
Qed.

Lemma Forall_flat_map_subtree (P : ASN1TreeNode -> Prop)
      (l : list ASN1TreeNode) (c : ASN1TreeNode) :
  Forall P (flat_map subtree l) -> In c l -> Forall P (subtree c).
Proof.
  induction l as [|d l IH]; intros H Hin; [destruct Hin|].
  cbn [flat_map] in H. apply Forall_app in H as [Hd Hl].
  destruct Hin as [->|Hin]; [exact Hd | now apply IH].
Qed.

(** A node whose marked nodes are all expanded is on the screen with all
    that is below it. *)
Lemma rendered_when_expanded (expandedNodes : JsSet) (node : ASN1TreeNode) :
  Forall marked (subtree node) ->
  (forall id, In id (idsOfNode node) -> has expandedNodes id = true) ->
  renderedNodes expandedNodes node = subtree node.
Proof.
  revert node. apply (ASN1TreeNode_nested_ind
    (fun node =>
       Forall marked (subtree node) ->
       (forall id, In id (idsOfNode node) -> has expandedNodes id = true) ->
       renderedNodes expandedNodes node = subtree node)).
  intros n IH Hm Hexp.
  destruct n as [nid line lvl children hasCh ty bs be].
  cbn [renderedNodes subtree n_children n_hasChildren n_id] in *.
  f_equal.
  inversion Hm as [|? ? Hhead Htail]; subst.
  destruct children as [|c rest].
  - now destruct (hasCh && has expandedNodes nid).
  - destruct Hhead as [Hnil|Hmark]; [discriminate|].
    cbn [n_hasChildren] in Hmark. subst hasCh.
    cbn [idsOfNode n_hasChildren n_id n_children] in Hexp.
    rewrite (Hexp nid (or_introl eq_refl)). cbn [andb].
    assert (Hsame : forall d, In d (c :: rest) ->
                              renderedNodes expandedNodes d = subtree d).
    { intros d Hd. rewrite Forall_forall in IH. apply (IH d Hd).
      - now apply (Forall_flat_map_subtree marked (c :: rest)).
      - intros id Hid. apply Hexp. right. apply in_flat_map.
        now exists d. }
    clear - Hsame. induction (c :: rest) as [|d l IHl]; [reflexivity|].
    cbn [flat_map]. rewrite (Hsame d (or_introl eq_refl)). f_equal.
    apply IHl. intros e He. apply Hsame. now right.
Qed.

(** After [expandAll] on a parsed tree the tree view shows every node of the
    tree, in the order of the lines; after [collapseAll] it shows the roots
    only. *)
Theorem expandAll_shows_every_node (structure : string) :
  renderedTree (expandAll (parseASN1Tree structure)) (parseASN1Tree structure)
  = allNodes (parseASN1Tree structure)
  /\ renderedTree collapseAll (parseASN1Tree structure)
     = parseASN1Tree structure.
Proof.
  split.
  - pose proof (parsed_nodes_marked structure) as Hm.
    unfold renderedTree, expandAll, allNodes, getAllNodeIds in *.
    set (ids := flat_map idsOfNode (parseASN1Tree structure)).
    assert (Hids : forall d, In d (parseASN1Tree structure) ->
                             forall id, In id (idsOfNode d) -> In id ids).
    { intros d Hd id Hid. apply in_flat_map. now exists d. }
    revert Hm Hids. generalize (parseASN1Tree structure) at 1 2 3 4.
    intros l. induction l as [|d l IH]; intros Hm Hids; [reflexivity|].
    cbn [flat_map] in *. apply Forall_app in Hm as [Hd Hl].
    rewrite rendered_when_expanded; [f_equal | exact Hd |].
    + apply IH; [exact Hl|]. intros e He. apply Hids. now right.
    + intros id Hid. apply has_setOf. apply (Hids d (or_introl eq_refl) id Hid).
  - unfold renderedTree, collapseAll.
    induction (parseASN1Tree structure) as [|d l IH]; [reflexivity|].
    cbn [flat_map]. rewrite IH. destruct d.
    cbn [renderedNodes n_hasChildren n_id].
    change (has [] n_id0) with false. now rewrite andb_false_r.
Qed.

End TreeControlFacts.

(** ** The tree keeps the lines and numbers them *)

Module TreeOrderFacts.
Import Asn1View TreeOrder.
Local Open Scope list_scope.

Section Projection.

Variable A : Type.
Variable f : ASN1TreeNode -> A.
Hypothesis f_addChild : forall parent child, f (addChild parent child) = f parent.

Lemma subtree_addChild (parent child : ASN1TreeNode) :
  map f (subtree (addChild parent child))
  = map f (subtree parent) ++ map f (subtree child).
Proof.
  assert (Hsub : subtree (addChild parent child)
                 = addChild parent child
                   :: flat_map subtree (n_children parent) ++ subtree child).
  { unfold addChild. cbn [subtree n_children]. rewrite flat_map_app.
    cbn [flat_map]. now rewrite app_nil_r. }
  assert (Hpar : subtree parent
                 = parent :: flat_map subtree (n_children parent))
    by (destruct parent; reflexivity).
  rewrite Hsub, Hpar. cbn [map app]. now rewrite f_addChild, map_app.
Qed.

Lemma closeTop_flat (b : builder) :
  map f (flatOf (closeTop b)) = map f (flatOf b).
Proof.
  unfold flatOf, closeTop, allNodes.
  destruct (b_stack b) as [|top [|parent rest]] eqn:E; cbn [b_nodes b_stack].
  - now rewrite E.
  - cbn [rev app flat_map]. rewrite flat_map_app. cbn [flat_map].
    now rewrite !app_nil_r.
  - cbn [rev]. rewrite !flat_map_app, !map_app. cbn [flat_map].
    rewrite !app_nil_r, subtree_addChild. now rewrite <- !app_assoc.
Qed.

Lemma popTo_flat (fuel level2 : nat) :
  forall b, map f (flatOf (popTo fuel level2 b)) = map f (flatOf b).
Proof.
  induction fuel as [|fuel IH]; intros b; [reflexivity|].
  cbn [popTo]. destruct (b_stack b) as [|top rest]; [reflexivity|].
  destruct (Nat.leb level2 (n_indentLevel2 top)); [|reflexivity].
  now rewrite IH, closeTop_flat.
Qed.

Lemma closeAll_flat (fuel : nat) :
  forall b, map f (flatOf (closeAll fuel b)) = map f (flatOf b).
Proof.
  induction fuel as [|fuel IH]; intros b; [reflexivity|].
  cbn [closeAll]. now rewrite IH, closeTop_flat.
Qed.

Lemma buildFrom_flat (lines : list string) :
  forall index b,
    map f (flatOf (buildFrom index lines b))
    = map f (flatOf b) ++ map f (lineNodes index lines).
Proof.
  induction lines as [|line rest IH]; intros index b;
    cbn [buildFrom lineNodes map]; [now rewrite app_nil_r|].
  rewrite IH. unfold pushNode.
  set (node := nodeOfLine index line (hd_error rest)).
  set (b' := popTo (length (b_stack b)) (n_indentLevel2 node) b).
  assert (Hpush : map f (flatOf (mkBuilder (b_nodes b') (node :: b_stack b')))
                  = map f (flatOf b') ++ [f node]).
  { unfold flatOf. cbn [b_nodes b_stack rev].
    rewrite flat_map_app, !map_app. cbn [flat_map].
    unfold node at 2, nodeOfLine. cbn [subtree n_children flat_map map app].
    now rewrite <- app_assoc. }
  rewrite Hpush. unfold b'. rewrite popTo_flat.
  now rewrite <- app_assoc.
Qed.

End Projection.

Lemma closeTop_shrinks (b : builder) :
  length (b_stack (closeTop b)) = pred (length (b_stack b)).
Proof.
  unfold closeTop. destruct (b_stack b) as [|top [|parent rest]] eqn:E;
    cbn [b_stack length pred]; [now rewrite E | reflexivity | reflexivity].
Qed.

Lemma closeAll_empties (fuel : nat) :
  forall b, length (b_stack b) <= fuel -> b_stack (closeAll fuel b) = [].
Proof.
  induction fuel as [|fuel IH]; intros b Hb.
  - cbn [closeAll]. destruct (b_stack b); [reflexivity | cbn in Hb; lia].
  - cbn [closeAll]. apply IH. rewrite closeTop_shrinks. lia.
Qed.

(** What a projection that linking does not change gives on the tree is what
    it gives on the nodes made for the lines. *)
Lemma parseASN1Tree_projection (A : Type) (f : ASN1TreeNode -> A) :
  (forall parent child, f (addChild parent child) = f parent) ->
  forall structure,
    map f (allNodes (parseASN1Tree structure))
    = map f (lineNodes 0 (keptLines structure)).
Proof.
  intros Hf structure. unfold parseASN1Tree. fold (keptLines structure).
  set (b := buildFrom 0 (keptLines structure) (mkBuilder [] [])).
  assert (Hflat : flatOf (closeAll (length (b_stack b)) b)
                  = allNodes (b_nodes (closeAll (length (b_stack b)) b))).
  { unfold flatOf. rewrite closeAll_empties by lia. cbn [rev flat_map].
    apply app_nil_r. }
  rewrite <- Hflat, (closeAll_flat A f Hf). unfold b.
  now rewrite (buildFrom_flat A f Hf).
Qed.

Lemma lineNodes_lines (lines : list string) :
  forall index, map n_line (lineNodes index lines) = map Js.trim lines.
Proof.
  induction lines as [|line rest IH]; intros index; [reflexivity|].
  cbn [lineNodes map]. now rewrite IH.
Qed.

Lemma lineNodes_ids (lines : list string) :
  forall index,
    map n_id (lineNodes index lines)
    = map (fun k => ("node-" ++ decimal k)%string) (seq index (length lines)).
Proof.
  induction lines as [|line rest IH]; intros index; [reflexivity|].
  cbn [lineNodes map length seq]. now rewrite IH.
Qed.

Lemma decimal_injective (a b : nat) : decimal a = decimal b -> a = b.
Proof.
  unfold decimal. intros H.
  apply (f_equal NilEmpty.uint_of_string) in H.
  rewrite !NilEmpty.usu in H. injection H as H.
  apply (f_equal Nat.of_uint) in H.
  now rewrite !DecimalNat.Unsigned.of_to in H.
Qed.

Lemma node_ids_distinct (start len : nat) :
  NoDup (map (fun k => ("node-" ++ decimal k)%string) (seq start len)).
Proof.
  revert start. induction len as [|len IH]; intros start; [constructor|].
  cbn [seq map]. constructor; [|apply IH].
  intros Hin. apply in_map_iff in Hin as [k [Heq Hk]].
  injection Heq as Heq. apply decimal_injective in Heq. subst k.
  apply in_seq in Hk. lia.
Qed.

(** Read parents before children, the nodes of the tree carry the lines of
    the text that are not blank, trimmed, in their order: no line is lost
    and none is moved.  They are numbered node-0, node-1, ... in that order,
    so no two nodes share an identifier. *)
Theorem tree_keeps_lines_in_order (structure : string) :
  map n_line (allNodes (parseASN1Tree structure))
  = map Js.trim (keptLines structure)
  /\ map n_id (allNodes (parseASN1Tree structure))
     = map (fun k => ("node-" ++ decimal k)%string)
           (seq 0 (length (keptLines structure)))
  /\ NoDup (map n_id (allNodes (parseASN1Tree structure))).
Proof.
  assert (Hline : forall parent child,
             n_line (addChild parent child) = n_line parent) by reflexivity.
  assert (Hid : forall parent child,
             n_id (addChild parent child) = n_id parent) by reflexivity.
  rewrite (parseASN1Tree_projection _ n_line Hline),
          (parseASN1Tree_projection _ n_id Hid).
  rewrite lineNodes_lines, lineNodes_ids.
  split; [reflexivity|]. split; [reflexivity | apply node_ids_distinct].
Qed.

End TreeOrderFacts.

(** ** Tag bytes and length bytes *)

Module TagFacts.
Import Asn1View JsMore Asn1Controls.
Local Open Scope N_scope.

(** Every number below 256, tried one by one. *)
Lemma below_256 (check : nat -> bool) :
  forallb check (seq 0 256) = true ->
  forall d, (d < 256)%nat -> check d = true.
Proof.
  intros Hall d Hd. rewrite forallb_forall in Hall. apply Hall.
  apply in_seq. lia.
Qed.

Lemma decomposeNumber_parts :
  forallb
    (fun d =>
       let p := decomposeNumber (N.of_nat d) in
       (64 * classIndex (tp_class p)
        + 32 * (if tp_constructed p then 1 else 0)
        + tp_tagNumber p =? N.of_nat d)
       && (tp_tagNumber p <? 32)
       && existsb (String.eqb (tp_class p)) classNames
       && Nat.eqb (String.length (tp_binary p)) 8
       && Nat.eqb (Js.parseInt (tp_binary p) 2) d)
    (seq 0 256) = true.
Proof. vm_compute. reflexivity. Qed.

(** The value of a hex digit is below 16. *)
Lemma hex_digit_below_16 (c : ascii) :
  Js.isHexDigit c = true -> (Js.digitsValue 16 0 (String c "") < 16)%nat.
Proof.
  destruct c as [[] [] [] [] [] [] [] []]; vm_compute;
    first [discriminate | intros _; lia].
Qed.

Lemma two_hex_digits_below_256 (hexValue : string) :
  String.length hexValue = 2%nat ->
  RegexSem.allChars Js.isHexDigit hexValue = true ->
  (Js.parseInt hexValue 16 < 256)%nat.
Proof.
  intros Hlen Hhex.
  destruct hexValue as [|a [|b [|c rest]]]; try discriminate.
  cbn [RegexSem.allChars] in Hhex.
  apply andb_prop in Hhex as [Ha Hb]. apply andb_prop in Hb as [Hb _].
  apply hex_digit_below_16 in Ha, Hb.
  unfold Js.parseInt in *. cbn [Js.digitsValue] in *.
  rewrite !Nat.mul_0_l, !Nat.add_0_l in *.
  remember (if Js.isDigit a then _ else _) as da.
  remember (if Js.isDigit b then _ else _) as db.
  lia.
Qed.

(** For a byte written as two hex digits, the class, the constructed flag and
    the tag number put together again give the byte: 64 times the class, plus
    32 when constructed, plus the tag number, which is below 32; the class is
    one of the four names; and the binary text has eight digits that read
    as the byte. *)
Theorem tag_byte_parts_recompose (hexValue : string) :
  String.length hexValue = 2%nat ->
  RegexSem.allChars Js.isHexDigit hexValue = true ->
  64 * classIndex (tp_class (decomposeTagByte hexValue))
  + 32 * (if tp_constructed (decomposeTagByte hexValue) then 1 else 0)
  + tp_tagNumber (decomposeTagByte hexValue)
  = N.of_nat (Js.parseInt hexValue 16)
  /\ tp_tagNumber (decomposeTagByte hexValue) < 32
  /\ In (tp_class (decomposeTagByte hexValue)) classNames
  /\ String.length (tp_binary (decomposeTagByte hexValue)) = 8%nat
  /\ Js.parseInt (tp_binary (decomposeTagByte hexValue)) 2
     = Js.parseInt hexValue 16.
Proof.
  intros Hlen Hhex. unfold decomposeTagByte.
  pose proof (two_hex_digits_below_256 _ Hlen Hhex) as Hd.
  pose proof (below_256 _ decomposeNumber_parts _ Hd) as H.
  cbv zeta in H.
  apply andb_prop in H as [H H5]. apply andb_prop in H as [H H4].
  apply andb_prop in H as [H H3]. apply andb_prop in H as [H1 H2].
  apply N.eqb_eq in H1. apply N.ltb_lt in H2.
  apply Nat.eqb_eq in H4, H5.
  apply existsb_exists in H3 as [name [Hin Hname]].
  apply String.eqb_eq in Hname. rewrite <- Hname in Hin.
  repeat split; assumption.
Qed.

Lemma tag_byte_of_sequence :
  64 * classIndex (tp_class (decomposeTagByte "30"))
  + 32 * (if tp_constructed (decomposeTagByte "30") then 1 else 0)
  + tp_tagNumber (decomposeTagByte "30")
  = 48
  /\ tp_tagNumber (decomposeTagByte "30") < 32
  /\ In (tp_class (decomposeTagByte "30")) classNames
  /\ String.length (tp_binary (decomposeTagByte "30")) = 8%nat
  /\ Js.parseInt (tp_binary (decomposeTagByte "30")) 2 = 48%nat.
Proof.
  apply (tag_byte_parts_recompose "30"); reflexivity.
Defined.

Lemma hex2_reads_back :
  forallb
    (fun d =>
       Nat.eqb (Js.parseInt (hex2 (N.of_nat d)) 16) d
       && Nat.eqb (String.length (hex2 (N.of_nat d))) 2)
    (seq 0 256) = true.
Proof. vm_compute. reflexivity. Qed.

Lemma octets_between (n k : N) :
  2 ^ (8 * k) <= n -> n < 2 ^ (8 * (k + 1)) -> Der.octets n = k + 1.
Proof.
  intros Hlo Hhi. unfold Der.octets.
  assert (Hpos : 0 < n).
  { apply N.lt_le_trans with (2 ^ (8 * k)); [|exact Hlo].
    apply N.neq_0_lt_0. apply N.pow_nonzero. discriminate. }
  assert (H1 : 8 * k <= N.log2 n) by (now apply N.log2_le_pow2).
  assert (H2 : N.log2 n < 8 * (k + 1)) by (now apply N.log2_lt_pow2).
  f_equal. symmetry.
  apply N.div_unique with (r := N.log2 n - 8 * k); lia.
Qed.

(** Up to 2^24 the length bytes written beside a structural line are the
    DER length field of the length, byte by byte in two hex digits each: the
    length itself up to 127, otherwise 81, 82 or 83 followed by the length in
    one, two or three bytes. *)
Theorem length_bytes_are_der (length : N) :
  length < 2 ^ 24 ->
  getLengthBytes length
  = join " " (map hex2 (DerLength.encodeLength length))
  /\ Forall (fun b =>
               b < 256
               /\ Js.parseInt (hex2 b) 16 = N.to_nat b
               /\ String.length (hex2 b) = 2%nat)
            (DerLength.encodeLength length)
  /\ N.of_nat (List.length (DerLength.encodeLength length))
     = Der.lengthFieldBytes length.
Proof.
  intros Hmax.
  assert (Hbyte : forall b, b < 256 ->
            b < 256 /\ Js.parseInt (hex2 b) 16 = N.to_nat b
            /\ String.length (hex2 b) = 2%nat).
  { intros b Hb. split; [exact Hb|].
    assert (Hd : (N.to_nat b < 256)%nat) by lia.
    pose proof (below_256 _ hex2_reads_back _ Hd) as H. cbv beta in H.
    rewrite N2Nat.id in H. apply andb_prop in H as [H1 H2].
    apply Nat.eqb_eq in H1, H2. now split. }
  unfold getLengthBytes, DerLength.encodeLength, Der.lengthFieldBytes.
  destruct (N.ltb_spec length 128) as [H128|H128].
  { replace (length <=? 127) with true by (symmetry; apply N.leb_le; lia).
    cbn [map join List.length]. repeat split.
    apply Forall_cons; [apply Hbyte; lia | apply Forall_nil]. }
  replace (length <=? 127) with false by (symmetry; apply N.leb_gt; lia).
  destruct (N.ltb_spec length 256) as [H256|H256].
  { rewrite (octets_between length 0) by (cbn; lia).
    change (0 + 1) with 1. change (N.to_nat 1) with 1%nat.
    change (128 + 1) with 129.
    cbn [DerLength.bigEndian app map join List.length].
    rewrite (N.mod_small length 256) by exact H256.
    repeat split.
    repeat (apply Forall_cons; [apply Hbyte; lia|]). apply Forall_nil. }
  destruct (N.ltb_spec length 65536) as [H64k|H64k].
  { rewrite (octets_between length 1) by (cbn; lia).
    change (1 + 1) with 2. change (N.to_nat 2) with 2%nat.
    change (128 + 2) with 130.
    cbn [DerLength.bigEndian app map join List.length].
    assert (Hhi : length / 256 < 256)
      by (apply N.Div0.div_lt_upper_bound; lia).
    rewrite (N.mod_small (length / 256) 256) by exact Hhi.
    repeat split.
    repeat (apply Forall_cons;
            [apply Hbyte; first [lia | apply N.mod_lt; discriminate]|]).
    apply Forall_nil. }
  rewrite (octets_between length 2) by (cbn; lia).
    change (2 + 1) with 3. change (N.to_nat 3) with 3%nat.
    change (128 + 3) with 131.
    cbn [DerLength.bigEndian app map join List.length].
  assert (Htop : length / 256 / 256 = length / 65536)
    by (rewrite N.Div0.div_div; reflexivity).
  assert (Hhi : length / 65536 < 256)
    by (apply N.Div0.div_lt_upper_bound; cbn in Hmax; lia).
  assert (Hmid : (length / 256) mod 256 = (length mod 65536) / 256).
  { change 65536 with (256 * 256). rewrite N.Div0.mod_mul_r.
    rewrite N.mul_comm, N.div_add by discriminate.
    rewrite (N.div_small (length mod 256) 256)
      by (apply N.mod_lt; discriminate).
    reflexivity. }
  rewrite Htop, (N.mod_small (length / 65536) 256) by exact Hhi.
  rewrite Hmid. repeat split.
  repeat (apply Forall_cons;
          [apply Hbyte;
           first [lia | apply N.mod_lt; discriminate
                 | rewrite <- Hmid; apply N.mod_lt; discriminate]|]).
  apply Forall_nil.
Qed.

Lemma length_bytes_of_300 :
  getLengthBytes 300 = join " " (map hex2 (DerLength.encodeLength 300))
  /\ Forall (fun b =>
               b < 256
               /\ Js.parseInt (hex2 b) 16 = N.to_nat b
               /\ String.length (hex2 b) = 2%nat)
            (DerLength.encodeLength 300)
  /\ N.of_nat (List.length (DerLength.encodeLength 300))
     = Der.lengthFieldBytes 300.
Proof.
  apply (length_bytes_are_der 300). reflexivity.
Defined.

Lemma context_tags_checked :
  forallb
    (fun n =>
       let p := decomposeTagByte
                  (getTagByte ("[" ++ Asn1View.decimal n ++ "]")) in
       String.eqb (tp_class p) "Context"
       && negb (tp_constructed p)
       && (tp_tagNumber p =? N.of_nat n))
    (seq 0 32) = true.
Proof. vm_compute. reflexivity. Qed.

Lemma type_tags_checked :
  forallb
    (fun type =>
       let p := decomposeTagByte (getTagByte type) in
       String.eqb (tp_class p) "Universal"
       && Bool.eqb (tp_constructed p)
                   (String.eqb type "SEQUENCE" || String.eqb type "SET"))
    typeNames = true.
Proof. vm_compute. reflexivity. Qed.

(** The tag byte written for each of the thirteen type names is, taken
    apart by [decomposeTagByte], of class Universal and constructed for
    SEQUENCE and SET only; the one written for a tag in brackets with a
    number below 32 is of class Context, primitive, with that number. *)
Theorem tag_bytes_decompose_to_their_type (type : string) (n : nat) :
  (In type typeNames ->
   tp_class (decomposeTagByte (getTagByte type)) = "Universal"
   /\ tp_constructed (decomposeTagByte (getTagByte type))
      = (String.eqb type "SEQUENCE" || String.eqb type "SET"))
  /\ ((n < 32)%nat ->
      tp_class (decomposeTagByte
                  (getTagByte ("[" ++ Asn1View.decimal n ++ "]")))
      = "Context"
      /\ tp_constructed (decomposeTagByte
                           (getTagByte ("[" ++ Asn1View.decimal n ++ "]")))
         = false
      /\ tp_tagNumber (decomposeTagByte
                         (getTagByte ("[" ++ Asn1View.decimal n ++ "]")))
         = N.of_nat n).
Proof.
  split.
  - intros Hin. pose proof type_tags_checked as H.
    rewrite forallb_forall in H. specialize (H type Hin). cbv zeta in H.
    apply andb_prop in H as [H1 H2]. apply String.eqb_eq in H1.
    apply Bool.eqb_prop in H2. now split.
  - intros Hn. pose proof context_tags_checked as H.
    rewrite forallb_forall in H.
    assert (Hin : In n (seq 0 32)) by (apply in_seq; lia).
    specialize (H n Hin). cbv zeta in H.
    apply andb_prop in H as [H H3]. apply andb_prop in H as [H1 H2].
    apply String.eqb_eq in H1. apply N.eqb_eq in H3.
    apply negb_true_iff in H2. now repeat split.
Qed.

End TagFacts.

(** ** Braces of the DER decoder view *)

Module DerViewFacts.
Import Asn1View DerView.
Local Open Scope list_scope.

Lemma nesting_app (a b : list derLine) :
  forall stack,
    nesting stack (a ++ b)
    = match nesting stack a with
      | Some stack' => nesting stack' b
      | None => None
      end.
Proof.
  induction a as [|l a IH]; intros stack; [reflexivity|].
  destruct l as [level label|level|level text]; cbn [app nesting].
  - apply IH.
  - destruct stack as [|top below]; [reflexivity|].
    destruct (Nat.eqb top level); [apply IH | reflexivity].
  - apply IH.
Qed.

Lemma closeRemaining_nests (stack : list nat) :
  nesting stack (closeRemaining stack) = Some [].
Proof.
  induction stack as [|top rest IH]; [reflexivity|].
  cbn [closeRemaining nesting]. now rewrite Nat.eqb_refl.
Qed.

Section WithNumbers.

Variable showParsedHex : string -> string.

(** A line adds nothing, a value, or an opening line together with its
    level on the stack. *)
Lemma classify_shape (level : nat) (line : string) :
  (exists text, classify showParsedHex level line = ([ValueLine level text], []))
  \/ (exists label,
        classify showParsedHex level line = ([OpenLine level label], [level]))
  \/ classify showParsedHex level line = ([], []).
Proof.
  unfold classify.
  repeat match goal with
         | |- context [if ?c then _ else _] => destruct c
         | |- context [match ?x with _ => _ end] => destruct x
         end;
    first [ left; eexists; reflexivity
          | right; left; eexists; reflexivity
          | right; right; reflexivity ].
Qed.

Lemma closeBraces_nests (fuel currentIndentLevel : nat) (next : option string) :
  forall st,
    nesting [] (c_result st) = Some (c_braceStack st) ->
    nesting [] (c_result (closeBraces fuel currentIndentLevel next st))
    = Some (c_braceStack (closeBraces fuel currentIndentLevel next st)).
Proof.
  induction fuel as [|fuel IH]; intros [result stack] Hst; [exact Hst|].
  cbn [closeBraces c_braceStack c_result] in *.
  destruct stack as [|top rest]; [exact Hst|].
  destruct next as [nextLine|]; [|exact Hst].
  destruct (Nat.leb currentIndentLevel top); [|exact Hst].
  destruct (Nat.leb (indentLevelOf nextLine) top); [|exact Hst].
  apply IH. cbn [c_result c_braceStack].
  rewrite nesting_app, Hst. cbn [nesting]. now rewrite Nat.eqb_refl.
Qed.

Lemma convertLine_nests (originalLine : string) (next : option string)
      (st : converter) :
  nesting [] (c_result st) = Some (c_braceStack st) ->
  nesting [] (c_result (convertLine showParsedHex originalLine next st))
  = Some (c_braceStack (convertLine showParsedHex originalLine next st)).
Proof.
  intros Hst. unfold convertLine.
  destruct (String.eqb (Js.trim originalLine) ""); [exact Hst|].
  destruct (classify_shape (indentLevelOf originalLine) (Js.trim originalLine))
    as [[text ->]|[[label ->]| ->]];
    apply closeBraces_nests; cbn [c_result c_braceStack app];
    rewrite ?app_nil_r, ?nesting_app, ?Hst; reflexivity.
Qed.

Lemma convertLines_nests (lines : list string) :
  forall st,
    nesting [] (c_result st) = Some (c_braceStack st) ->
    nesting [] (c_result (convertLines showParsedHex lines st))
    = Some (c_braceStack (convertLines showParsedHex lines st)).
Proof.
  induction lines as [|line rest IH]; intros st Hst; [exact Hst|].
  cbn [convertLines]. apply IH. now apply convertLine_nests.
Qed.

(** The braces of the DER decoder view are balanced for every text: read
    from the first line, each closing brace closes the opening line last
    left open and stands at its indentation, and none is left open at the
    end. *)
Theorem der_view_braces_balanced (structure : string) :
  nesting [] (derLines showParsedHex structure) = Some [].
Proof.
  unfold derLines. cbv zeta. rewrite nesting_app.
  rewrite convertLines_nests by reflexivity.
  apply closeRemaining_nests.
Qed.

End WithNumbers.

End DerViewFacts.

(** ** Every way into the decoder *)

Module DecoderEntryFacts.
Import Decoder DecoderEntry.

Section AnyLibrary.

Variable codec : Codec.
Variable parser : Parser.
Variable wantHex wantDef : bool.

(** [decode] does not read the error it finds in the state. *)
Lemma decode_ignores_error (der : string) (st : HookState) (err : string) :
  decode codec parser wantHex wantDef der
         (mkHook (h_isLoading st) err (h_decodedData st) (h_definitions st)
                 (h_selectedDefinition st))
  = decode codec parser wantHex wantDef der st.
Proof.
  destruct (DecoderFacts.generateHexDump_returns codec parser der)
    as [dump Hdump].
  destruct (DecoderFacts.generateBase64_returns codec der) as [text Htext].
  unfold decode, tryCatchFinally, bind, lift, ret.
  rewrite DecoderFacts.generateASN1Structure_returns, Htext. cbv zeta.
  destruct wantHex, wantDef, (sortByMatch (detectContentType der));
    rewrite ?Hdump; reflexivity.
Qed.

(** [decodeText], [decodeBinaryString] and [decodeFile] do what [decode]
    does on the same text, result and state alike, and none of them ever
    raises: whatever the library does with the text, a result is
    returned. *)
Theorem every_entry_decodes_and_returns (text : string) (st : HookState) :
  decodeText codec parser wantHex wantDef text st
  = decode codec parser wantHex wantDef text st
  /\ decodeBinaryString codec parser wantHex wantDef text st
     = decode codec parser wantHex wantDef text st
  /\ decodeFile codec parser wantHex wantDef text st
     = decode codec parser wantHex wantDef text st
  /\ isThrown (fst (decode codec parser wantHex wantDef text st)) = false.
Proof.
  destruct (DecoderFacts.decode_returns codec parser wantHex wantDef text st)
    as (dump & b64 & data & st' & _ & _ & _ & Hrun & _).
  assert (Hentry : forall fallback,
             entry codec parser wantHex wantDef fallback text st
             = decode codec parser wantHex wantDef text st).
  { intros fallback. unfold entry, tryCatchHook, bind, setError.
    rewrite decode_ignores_error. now rewrite Hrun. }
  unfold decodeText, decodeBinaryString, decodeFile.
  rewrite !Hentry, Hrun. repeat split.
Qed.

End AnyLibrary.

(** The guess never puts PKCS#1 RSA Private Key first: a text that holds
    RSA PRIVATE KEY holds PRIVATE KEY and is taken by the branch before.
    There are always three guesses, and the first is one of five labels. *)
Theorem guess_never_ranks_pkcs1_first (der : string) :
  length (sortByMatch (detectContentType der)) = 3
  /\ In (Ranking.topLabel (sortByMatch (detectContentType der)))
        [Some "X.509 Certificate"; Some "PKCS#8 Private Key";
         Some "PKCS#10 Certificate Request"; Some "PKCS#7/CMS Signature";
         Some "ASN.1 DER Structure"].
Proof.
  unfold detectContentType.
  destruct (Js.includes (Js.toUpperCase der) "BEGIN CERTIFICATE"
            || Js.includes (Js.toUpperCase der) "CERTIFICATE");
    [split; [reflexivity | cbn; tauto]|].
  destruct (Js.includes (Js.toUpperCase der) "BEGIN PRIVATE KEY"
            || Js.includes (Js.toUpperCase der) "PRIVATE KEY") eqn:Hkey;
    [split; [reflexivity | cbn; tauto]|].
  destruct (Js.includes (Js.toUpperCase der) "BEGIN RSA PRIVATE KEY") eqn:Hrsa.
  { apply orb_false_elim in Hkey as [_ Hkey].
    rewrite (JsFacts.includes_trans _ "BEGIN RSA PRIVATE KEY" "PRIVATE KEY"
               Hrsa eq_refl) in Hkey. discriminate. }
  repeat match goal with
         | |- context [if ?c then _ else _] => destruct c
         end; (split; [reflexivity | cbn; tauto]).
Qed.

End DecoderEntryFacts.

(** ** The layout of [Stream.hexDump] on the sample dump *)

Module HoverFacts.
Import Regex Asn1View Asn1Controls.
Local Open Scope list_scope.

Lemma plain_dump_fourth_byte :
  t_position (mkToken "01" 3 true) = N.of_nat 3
  /\ (t_hovered (mkToken "01" 3 true) = true
      <-> (r_start (mkRange 3 5) <= N.of_nat 3 < r_end (mkRange 3 5))%N).
Proof.
  apply (HexDumpFacts.plain_dump_highlights_range
           (mkRange 3 5) Samples.plainDump).
  - repeat constructor.
  - reflexivity.
Defined.

End HoverFacts.

(** ** The byte index in the dump that is rendered *)

Module RenderedDumpFacts.
Import Regex RegexSem Asn1View Decoder RenderedDump.
Local Open Scope list_scope.

Lemma allChars_append (p : ascii -> bool) (a b : string) :
  allChars p (a ++ b) = allChars p a && allChars p b.
Proof.
  induction a as [|c a IH]; cbn [append allChars]; [reflexivity|].
  now rewrite IH, andb_assoc.
Qed.

Lemma allChars_weaken (p q : ascii -> bool) (s : string) :
  (forall c, p c = true -> q c = true) ->
  allChars p s = true -> allChars q s = true.
Proof.
  intros Hpq. induction s as [|c s IH]; cbn [allChars]; [reflexivity|].
  intros H. apply andb_prop in H as [Hc Hs].
  now rewrite (Hpq c Hc), IH.
Qed.

(** The lines of a text hold characters of the text only. *)
Lemma allChars_splitLines (p : ascii -> bool) (s : string) :
  allChars p s = true ->
  Forall (fun line => allChars p line = true) (Js.splitLines s).
Proof.
  induction s as [|c s IH]; cbn [allChars Js.splitLines]; intros H.
  - constructor; [reflexivity | constructor].
  - apply andb_prop in H as [Hc Hs]. specialize (IH Hs).
    destruct (Nat.eqb (Js.code c) 10).
    + constructor; [reflexivity | exact IH].
    + destruct (Js.splitLines s) as [|l rest].
      * constructor; [cbn [allChars]; now rewrite Hc | constructor].
      * inversion IH as [|? ? Hl Hrest]; subst.
        constructor; [cbn [allChars]; now rewrite Hc, Hl | exact Hrest].
Qed.

(** A text without line feed is one line. *)
Lemma splitLines_single (s : string) :
  allChars notLineFeed s = true -> Js.splitLines s = [s].
Proof.
  induction s as [|c s IH]; cbn [allChars Js.splitLines]; [reflexivity|].
  intros H. apply andb_prop in H as [Hc Hs].
  unfold notLineFeed in Hc. apply negb_true_iff in Hc.
  now rewrite Hc, (IH Hs).
Qed.

Lemma dumpChar_notColon (c : ascii) : dumpChar c = true -> notColon c = true.
Proof.
  destruct c as [[] [] [] [] [] [] [] []]; vm_compute;
    first [reflexivity | discriminate].
Qed.

Lemma digits_notColon (u : Decimal.uint) :
  allChars notColon (NilEmpty.string_of_uint u) = true.
Proof. induction u; cbn [NilEmpty.string_of_uint allChars]; auto. Qed.

(** A line with an offset holds the colon that follows the offset. *)
Lemma offset_line_has_colon (line : string) :
  allChars notColon line = true -> matchAt reOffsetLine line = None.
Proof.
  intros Hno. destruct (matchAt reOffsetLine line) as [x|] eqn:E;
    [|reflexivity].
  unfold matchAt, reOffsetLine in E. cbn [seq] in E.
  change (run (Cat ?a ?b) ?s0 ?c0 ?k)
    with (run a s0 c0 (fun s' c' => run b s' c' k)) in E.
  apply RegexFacts.run_sound in E as (w1 & s1 & c1 & -> & _ & E).
  change (run (Cat ?a ?b) ?s0 ?c0 ?k)
    with (run a s0 c0 (fun s' c' => run b s' c' k)) in E.
  apply RegexFacts.run_sound in E as (w2 & s2 & c2 & -> & M2 & _).
  apply RegexFacts.Matches_Lit in M2. subst w2.
  rewrite !allChars_append in Hno.
  apply andb_prop in Hno as [_ Hno]. apply andb_prop in Hno as [Hno _].
  discriminate.
Qed.

Lemma no_colon_no_offset_line (dump : string) :
  allChars notColon dump = true ->
  Forall (fun line => matchAt reOffsetLine line = None) (Js.splitLines dump).
Proof.
  intros H. apply allChars_splitLines in H.
  eapply Forall_impl; [|exact H]. apply offset_line_has_colon.
Qed.

Section AnyLibrary.

Variable codec : Codec.
Variable parser : Parser.

(** The three texts [generateHexDump] can return, none with a line that
    carries an offset: the library's dump, the dump followed by the count of
    the bytes left out, and the error text. *)
Lemma generated_dump_has_no_offset_line (data : string) :
  libraryOutputPlain codec parser data = true ->
  exists dump,
    generateHexDump codec parser data = inr dump
    /\ Forall (fun line => matchAt reOffsetLine line = None)
              (Js.splitLines dump).
Proof.
  unfold libraryOutputPlain, generateHexDump. intros Hplain.
  assert (Herror : forall message,
             allChars notLineFeed message = true ->
             Forall (fun line => matchAt reOffsetLine line = None)
                    (Js.splitLines ("Hex dump error: " ++ message))).
  { intros message Hm. rewrite splitLines_single.
    - constructor; [reflexivity | constructor].
    - rewrite allChars_append. now rewrite Hm. }
  destruct (getBytesFromData codec data) as [error|bytes];
    cbn [bindExc tryCatch].
  { eexists. split; [reflexivity | now apply Herror]. }
  destruct (hexDump parser bytes (min (lengthN bytes) 512)) as [error|text];
    cbn [bindExc tryCatch].
  { eexists. split; [reflexivity | now apply Herror]. }
  apply (allChars_weaken _ _ _ dumpChar_notColon) in Hplain.
  destruct (N.ltb 512 (lengthN bytes)); cbn [tryCatch];
    (eexists; split; [reflexivity|]); apply no_colon_no_offset_line.
  - rewrite !allChars_append, Hplain. unfold decimalN.
    now rewrite digits_notColon.
  - exact Hplain.
Qed.

(** C5: in the hex dump the component renders for decoded data, the hex
    byte number [k] in reading order carries the byte index [k], the count
    of the hex bytes rendered before it on its own row and on all the rows
    above, and it is highlighted exactly when [start <= k < end] for the
    active range.  The dump rendered is the text of [generateHexDump]: the
    library's dump, which has no offsets, with or without the line that
    counts the bytes left out, or the error text. *)
Theorem rendered_dump_accumulates_byte_index
        (wantHex wantDef : bool) (der : string) (st : HookState)
        (r : byteRange) :
  libraryOutputPlain codec parser der = true ->
  exists data st',
    decode codec parser wantHex wantDef der st = (inr data, st')
    /\ h_decodedData st' = Some data
    /\ forall k t,
         nth_error (tokensOf (renderedHexDump (Some r) data)) k = Some t ->
         t_position t = N.of_nat k
         /\ (t_hovered t = true <-> (r_start r <= N.of_nat k < r_end r)%N).
Proof.
  intros Hplain.
  destruct (generated_dump_has_no_offset_line der Hplain)
    as (dump & Hdump & Hlines).
  destruct (DecoderFacts.decode_returns codec parser wantHex wantDef der st)
    as (dump' & text & data & st' & Hdump' & _ & Hdata & Hrun & _ & _
        & Hstored).
  rewrite Hdump in Hdump'. injection Hdump' as <-.
  exists data, st'. split; [exact Hrun|]. split; [exact Hstored|].
  intros k t Hk. subst data. unfold renderedHexDump in Hk.
  cbn [hexDumpText] in Hk.
  destruct wantHex; [|destruct k; discriminate].
  destruct (truthy (Some dump)); [|destruct k; discriminate].
  unfold formatHexDump in Hk.
  apply (HexDumpFacts.renderLines_plain _ _ Hlines) in Hk as [Hpos Hhov].
  rewrite N.add_0_l in Hpos, Hhov. split; [exact Hpos|].
  rewrite Hhov. apply HexDumpFacts.isHovered_range.
Qed.

End AnyLibrary.

End RenderedDumpFacts.

(** ** The rendered dump with the model of the library *)

Module RenderedDumpSamples.
Import Regex RegexSem Asn1View Decoder RenderedDump Samples.
Local Open Scope list_scope.

Lemma hexLoop_throws_text (a : string) :
  forall i bits char_count error,
    Asn1js.hexLoop a i bits char_count = inl error ->
    messageOf error = "Unknown error".
Proof.
  induction a as [|c a IH]; intros i bits char_count error H;
    cbn [Asn1js.hexLoop] in H.
  - destruct (N.ltb 0 char_count); [|discriminate].
    now injection H as <-.
  - destruct (Asn1js.ignored c); [now apply IH in H|].
    destruct (Asn1js.hexValue c) as [d|]; [|now injection H as <-].
    destruct (N.leb 2 (char_count + 1)); [|now apply IH in H].
    destruct (Asn1js.hexLoop a (i + 1) 0 0) as [e|out] eqn:E;
      [|discriminate].
    cbn [bindExc] in H. injection H as <-. now apply IH in E.
Qed.

Lemma base64Loop_throws_text (a : string) :
  forall i bits char_count error,
    Asn1js.base64Loop a i bits char_count = inl error ->
    messageOf error = "Unknown error".
Proof.
  assert (Htail : forall bits char_count error,
             Asn1js.base64Tail bits char_count = inl error ->
             messageOf error = "Unknown error").
  { intros bits char_count error H. unfold Asn1js.base64Tail in H.
    destruct (N.eqb char_count 1); [now injection H as <-|].
    destruct (N.eqb char_count 2); [discriminate|].
    destruct (N.eqb char_count 3); discriminate. }
  induction a as [|c a IH]; intros i bits char_count error H;
    cbn [Asn1js.base64Loop] in H.
  - now apply Htail in H.
  - destruct (N.eqb (N_of_ascii c) 61); [now apply Htail in H|].
    destruct (Asn1js.ignored c); [now apply IH in H|].
    destruct (Asn1js.base64Value c) as [d|]; [|now injection H as <-].
    destruct (N.leb 4 (char_count + 1)); [|now apply IH in H].
    destruct (Asn1js.base64Loop a (i + 1) 0 0) as [e|out] eqn:E;
      [|discriminate].
    cbn [bindExc] in H. injection H as <-. now apply IH in E.
Qed.

Lemma hexByte_chars (b : Byte.byte) :
  allChars dumpChar (Asn1js.hexByte b) = true.
Proof. destruct b; vm_compute; reflexivity. Qed.

Lemma hexDumpFrom_chars (bytes : list Byte.byte) :
  forall i count,
    allChars dumpChar (Asn1js.hexDumpFrom i count bytes) = true.
Proof.
  induction bytes as [|b rest IH]; intros i count;
    destruct count as [|count]; cbn [Asn1js.hexDumpFrom]; try reflexivity.
  rewrite !RenderedDumpFacts.allChars_append, hexByte_chars, IH.
  destruct (N.eqb (N.land i 15) 7); [reflexivity|].
  destruct (N.eqb (N.land i 15) 15); reflexivity.
Qed.

(** With the model of the library every text gives a plain output: the
    decoders throw plain strings, the constructor's message is on one line,
    and the dump is laid out in hex digits, blanks and line feeds. *)
Lemma model_output_is_plain (parser : Parser) (data : string) :
  hexDump parser = Asn1js.Stream_hexDump ->
  libraryOutputPlain Asn1js.codec parser data = true.
Proof.
  intros Hdump. unfold libraryOutputPlain. rewrite Hdump.
  destruct (getBytesFromData Asn1js.codec data) as [error|bytes] eqn:E.
  - assert (Hmessage : messageOf error = "Unknown error").
    { unfold getBytesFromData in E.
      destruct (detect (Js.trim data)).
      + now apply base64Loop_throws_text in E.
      + now apply hexLoop_throws_text in E.
      + destruct (Base64_decode Asn1js.codec (Js.trim data)); discriminate. }
    now rewrite Hmessage.
  - unfold Asn1js.Stream_hexDump. destruct bytes as [|b rest];
      [reflexivity | apply hexDumpFrom_chars].
Qed.

(** Eighteen bytes are laid out on two rows; the two bytes of the second
    row carry the indexes 16 and 17. *)
Lemma two_row_dump_positions :
  generateHexDump Asn1js.codec (Asn1js.rejecting twoRowMessage) twoRowHex
  = inr ("30 20 00 01 02 03 04 05  06 07 08 09 0A 0B 0C 0D" ++ LF
         ++ "0E 0F ")%string
  /\ map (fun t => (t_text t, t_position t, t_hovered t))
         (skipn 14
            (tokensOf
               (formatHexDump
                  (Some (mkRange 16 18))
                  ("30 20 00 01 02 03 04 05  06 07 08 09 0A 0B 0C 0D" ++ LF
                   ++ "0E 0F ")%string)))
     = [("0C", 14%N, false); ("0D", 15%N, false);
        ("0E", 16%N, true); ("0F", 17%N, true)].
Proof. split; vm_compute; reflexivity. Qed.

Lemma two_row_dump_is_indexed :
  exists data st',
    decode Asn1js.codec (Asn1js.rejecting twoRowMessage) true false
           twoRowHex initialState = (inr data, st')
    /\ h_decodedData st' = Some data
    /\ forall k t,
         nth_error (tokensOf (renderedHexDump (Some (mkRange 16 18)) data)) k
         = Some t ->
         t_position t = N.of_nat k
         /\ (t_hovered t = true
             <-> (r_start (mkRange 16 18) <= N.of_nat k
                  < r_end (mkRange 16 18))%N).
Proof.
  apply (RenderedDumpFacts.rendered_dump_accumulates_byte_index
           Asn1js.codec (Asn1js.rejecting twoRowMessage) true false
           twoRowHex initialState (mkRange 16 18)).
  reflexivity.
Defined.

End RenderedDumpSamples.

(** ** The byte ranges of the tree of a structure text *)

Module TreeRangeFacts.
Import Regex RegexSem Asn1View TreeOrder Asn1Controls.
Local Open Scope list_scope.

Lemma trimStart_inside (s : string) :
  exists a, s = (a ++ Js.trimStart s)%string.
Proof.
  induction s as [|c s [a IH]]; [now exists ""|].
  cbn [Js.trimStart]. destruct (Js.isSpace c); [|now exists ""].
  exists (String c a). cbn [append]. now rewrite <- IH.
Qed.

Lemma trimEnd_inside (s : string) :
  exists b, s = (Js.trimEnd s ++ b)%string.
Proof.
  induction s as [|c s [b IH]]; [now exists ""|].
  cbn [Js.trimEnd]. destruct (Js.trimEnd s) as [|d t] eqn:E.
  - destruct (Js.isSpace c).
    + now exists (String c s).
    + exists s. reflexivity.
  - exists b. cbn [append] in *. congruence.
Qed.

Lemma trim_inside (s : string) :
  exists a b, s = (a ++ Js.trim s ++ b)%string.
Proof.
  destruct (trimStart_inside s) as [a Ha].
  destruct (trimEnd_inside (Js.trimStart s)) as [b Hb].
  exists a, b. unfold Js.trim. now rewrite <- Hb.
Qed.

Lemma splitLines_first (s : string) :
  exists l rest b, Js.splitLines s = l :: rest /\ s = (l ++ b)%string.
Proof.
  induction s as [|c s (l & rest & b & E & Hs)].
  - now exists "", [], "".
  - cbn [Js.splitLines]. destruct (Nat.eqb (Js.code c) 10).
    + now exists "", (Js.splitLines s), (String c s).
    + rewrite E. exists (String c l), rest, b. split; [reflexivity|].
      cbn [append]. now rewrite <- Hs.
Qed.

(** A line of a text stands in the text. *)
Lemma splitLines_inside (s l : string) :
  In l (Js.splitLines s) -> exists a b, s = (a ++ l ++ b)%string.
Proof.
  revert l. induction s as [|c s IH]; intros l Hin.
  - destruct Hin as [<-|[]]. now exists "", "".
  - cbn [Js.splitLines] in Hin. destruct (Nat.eqb (Js.code c) 10).
    + destruct Hin as [<-|Hin].
      * now exists "", (String c s).
      * destruct (IH l Hin) as (a & b & ->). now exists (String c a), b.
    + destruct (splitLines_first s) as (l0 & rest & b0 & E & Hs).
      rewrite E in Hin, IH. destruct Hin as [<-|Hin].
      * exists "", b0. cbn [append]. now rewrite <- Hs.
      * destruct (IH l (or_intror Hin)) as (a & b & ->).
        now exists (String c a), b.
Qed.

Lemma includes_outside (a l b needle : string) :
  Js.includes l needle = true ->
  Js.includes (a ++ l ++ b) needle = true.
Proof.
  intros H. apply (JsFacts.includes_trans _ l); [|exact H].
  apply JsFacts.includes_inside.
Qed.

(** A byte position is read only after the two characters that open it. *)
Lemma position_needs_marker (s hex : string) :
  firstGroup reBytePosition s = Some hex -> Js.includes s "[+" = true.
Proof.
  unfold firstGroup, search. intros H.
  destruct (searchFrom reBytePosition 0 s) as [f|] eqn:E; [|discriminate].
  clear H. revert E. generalize 0%nat.
  induction s as [|c s IH]; intros i E; cbn [searchFrom] in E.
  - destruct (matchAt reBytePosition "") as [[rest g]|] eqn:M;
      [|discriminate].
    vm_compute in M. discriminate.
  - destruct (matchAt reBytePosition (String c s)) as [[rest g]|] eqn:M.
    + unfold matchAt, reBytePosition in M. cbn [seq] in M.
      change (run (Cat ?a ?b) ?s0 ?c0 ?k)
        with (run a s0 c0 (fun s' c' => run b s' c' k)) in M.
      apply RegexFacts.run_sound in M as (w & s1 & c1 & Hs & Mw & _).
      apply RegexFacts.Matches_Lit in Mw. subst w. rewrite Hs.
      apply (JsFacts.includes_inside "" "[+" s1).
    + apply IH in E. cbn [Js.includes]. rewrite E. apply orb_true_r.
Qed.

Lemma no_marker_no_range (structure line : string) :
  Js.includes structure "[+" = false ->
  In line (Js.splitLines structure) ->
  byteRangeOfLine (Js.trim line) = (None, None).
Proof.
  intros Hno Hin. unfold byteRangeOfLine.
  destruct (firstGroup reBytePosition (Js.trim line)) as [hex|] eqn:E;
    [|reflexivity].
  apply position_needs_marker in E.
  destruct (trim_inside line) as (a & b & Hline).
  destruct (splitLines_inside _ _ Hin) as (a' & b' & Hs).
  apply (includes_outside a _ b) in E. rewrite <- Hline in E.
  apply (includes_outside a' _ b') in E. rewrite <- Hs in E.
  rewrite E in Hno. discriminate.
Qed.

Lemma lineNodes_no_range (lines : list string) :
  Forall (fun line => byteRangeOfLine (Js.trim line) = (None, None)) lines ->
  forall index,
    Forall (fun n => (n_byteStart n, n_byteEnd n) = (None, None))
           (lineNodes index lines).
Proof.
  induction 1 as [|line rest Hline _ IH]; intros index; [constructor|].
  cbn [lineNodes]. constructor; [|apply IH].
  unfold nodeOfLine. cbn [n_byteStart n_byteEnd]. now rewrite Hline.
Qed.

(** C6, as the code has it: the positions are looked for after the two
    characters [[+], which a structure text in the layout of
    [toPrettyString] (type, [@] and position, [+] and length) does not
    hold.  For every such text no node of the tree gets a byte range, the
    nodes with a long-form length included, and pointing at a node leaves
    the highlighted range as it is. *)
Theorem nodes_of_pretty_text_get_no_byte_range
        (structure : string) (node : ASN1TreeNode)
        (hoveredByteRange : option byteRange) :
  Js.includes structure "[+" = false ->
  In node (allNodes (parseASN1Tree structure)) ->
  n_byteStart node = None
  /\ n_byteEnd node = None
  /\ handleMouseEnter node hoveredByteRange = hoveredByteRange.
Proof.
  intros Hno Hin.
  assert (Hrange : (n_byteStart node, n_byteEnd node) = (None, None)).
  { apply (in_map (fun n => (n_byteStart n, n_byteEnd n))) in Hin.
    rewrite (TreeOrderFacts.parseASN1Tree_projection
               _ (fun n => (n_byteStart n, n_byteEnd n)))
      in Hin by reflexivity.
    apply in_map_iff in Hin as (n & <- & Hn).
    revert n Hn. apply Forall_forall. apply lineNodes_no_range.
    apply Forall_forall. intros line Hline.
    apply (no_marker_no_range structure); [exact Hno|].
    unfold keptLines in Hline. now apply filter_In in Hline as [Hline _]. }
  injection Hrange as Hstart Hend.
  unfold handleMouseEnter. rewrite Hstart. repeat split; assumption.
Qed.

(** The tree of the structure text of 30 03 02 01 05: two nodes, neither
    with a byte range. *)
Lemma pretty_sample_has_no_ranges :
  map (fun n => (n_line n, n_byteStart n, n_byteEnd n))
      (allNodes (parseASN1Tree Samples.prettyStructure))
  = [("SEQUENCE @0+3 (constructed)", None, None);
     ("INTEGER @2+1: 5", None, None)].
Proof. vm_compute. reflexivity. Qed.

Lemma integer_node_of_pretty_sample :
  n_byteStart (mkNode "node-1" "INTEGER @2+1: 5" 2 [] false (Some "INTEGER")
                      None None) = None
  /\ n_byteEnd (mkNode "node-1" "INTEGER @2+1: 5" 2 [] false (Some "INTEGER")
                       None None) = None
  /\ handleMouseEnter (mkNode "node-1" "INTEGER @2+1: 5" 2 [] false
                              (Some "INTEGER") None None)
                      (Some (mkRange 0 1))
     = Some (mkRange 0 1).
Proof.
  apply (nodes_of_pretty_text_get_no_byte_range
           Samples.prettyStructure
           (mkNode "node-1" "INTEGER @2+1: 5" 2 [] false (Some "INTEGER")
                   None None)
           (Some (mkRange 0 1))).
  - reflexivity.
  - vm_compute. right. left. reflexivity.
Defined.

End TreeRangeFacts.

(** ** The records behind the blocks of the export *)

Module PemChainFacts.
Import Chain ChainOrder.
Local Open Scope list_scope.

Section AnyLookup.

Variable findCaById : string -> list CA -> option CA.

(** What the walk of the export keeps true of its state: the blocks after
    the leaf's are the PEM texts of the records of an issuer chain, one
    record for each turn at most. *)
Lemma pem_walk_linked (allCAs : list CA) (start : option string)
      (pem : string) (fuel : nat) :
  forall st cas,
    p_chain st = pem :: map pemOf cas ->
    linked findCaById allCAs start cas ->
    nextIssuer start cas = p_currentIssuerId st ->
    Forall (fun ca => truthy (ca_pemData ca) = true) cas ->
    length cas <= p_safetyNet st ->
    p_safetyNet st <= maxDepth ->
    maxDepth - p_safetyNet st < fuel ->
    exists st' cas',
      while fuel p_cond (p_body findCaById allCAs) st = Some st'
      /\ p_chain st' = pem :: map pemOf cas'
      /\ linked findCaById allCAs start cas'
      /\ Forall (fun ca => truthy (ca_pemData ca) = true) cas'
      /\ length cas' <= maxDepth.
Proof.
  induction fuel as [|fuel IH];
    intros st cas Hch Hl Hn Hpem Hlen Hsn Hfuel; [lia|].
  assert (Hstay : exists st' cas',
             Some st = Some st'
             /\ p_chain st' = pem :: map pemOf cas'
             /\ linked findCaById allCAs start cas'
             /\ Forall (fun ca => truthy (ca_pemData ca) = true) cas'
             /\ length cas' <= maxDepth).
  { exists st, cas. repeat split; try assumption. lia. }
  rewrite while_S. destruct (p_cond st) eqn:Hc; [|exact Hstay].
  unfold p_cond in Hc. apply andb_prop in Hc as [_ Hlt].
  apply Nat.ltb_lt in Hlt. unfold p_body.
  destruct (lookupIssuer findCaById (p_currentIssuerId st) allCAs)
    as [issuerCa|] eqn:Hfind; [|exact Hstay].
  destruct (truthy (ca_pemData issuerCa)) eqn:Hhas; cbn [negb];
    [|exact Hstay].
  fold (pemOf issuerCa).
  assert (Hch' : p_chain st ++ [pemOf issuerCa]
                 = pem :: map pemOf (cas ++ [issuerCa])).
  { rewrite Hch, map_app. reflexivity. }
  assert (Hl' : linked findCaById allCAs start (cas ++ [issuerCa])).
  { apply ChainOrderFacts.linked_app; [exact Hl | now rewrite Hn]. }
  assert (Hpem' : Forall (fun ca => truthy (ca_pemData ca) = true)
                         (cas ++ [issuerCa])).
  { apply Forall_app. split; [exact Hpem|]. now constructor. }
  assert (Hlen' : length (cas ++ [issuerCa]) <= S (p_safetyNet st)).
  { rewrite length_app. cbn [length]. lia. }
  destruct (isSelfSigned issuerCa).
  - eexists. exists (cas ++ [issuerCa]). split; [reflexivity|].
    cbn [p_chain]. repeat split; try assumption. lia.
  - apply (IH _ (cas ++ [issuerCa])); cbn [p_chain p_currentIssuerId
                                             p_safetyNet];
      try assumption; try lia.
    apply ChainOrderFacts.nextIssuer_app.
Qed.

(** For a leaf with PEM text the export always ends, and it is the leaf's
    block followed by the blocks of at most [maxDepth] records: the record
    found for the leaf's issuer reference, then each time the record found
    for the issuer of the record before, every one of them with PEM text. *)
Theorem pem_export_is_issuer_chain
        (fuel : nat) (leaf : CertificateData) (pem : string)
        (allCAs : list CA) :
  maxDepth < fuel ->
  cert_pemData leaf = Some pem ->
  truthy (Some pem) = true ->
  exists cas,
    buildCertificateChainPem findCaById fuel (Some leaf) allCAs
    = Some (join chainSeparator (pem :: map pemOf cas))
    /\ linked findCaById allCAs (cert_issuerCaId leaf) cas
    /\ Forall (fun ca => truthy (ca_pemData ca) = true) cas
    /\ length cas <= maxDepth.
Proof.
  intros Hfuel Hleaf Htr. unfold buildCertificateChainPem.
  rewrite Hleaf, Htr. cbn [negb].
  destruct (pem_walk_linked allCAs (cert_issuerCaId leaf) pem fuel
              (mkP [pem] (cert_issuerCaId leaf) 0) [])
    as (st' & cas & Hrun & Hch & Hl & Hpem & Hlen);
    cbn [p_chain p_safetyNet p_currentIssuerId length map nextIssuer linked];
    try lia; try reflexivity; try constructor.
  exists cas. rewrite Hrun. cbn [option_map]. rewrite Hch.
  repeat split; assumption.
Qed.

End AnyLookup.

Lemma three_level_export_is_issuer_chain :
  exists cas,
    buildCertificateChainPem findCaByIdFlat 11 (Some Samples.leafCert)
                             [Samples.rootCa; Samples.intermediateCa]
    = Some (join chainSeparator ("LEAF-PEM" :: map pemOf cas))
    /\ linked findCaByIdFlat [Samples.rootCa; Samples.intermediateCa]
              (cert_issuerCaId Samples.leafCert) cas
    /\ Forall (fun ca => truthy (ca_pemData ca) = true) cas
    /\ length cas <= maxDepth.
Proof.
  apply (pem_export_is_issuer_chain
           findCaByIdFlat 11 Samples.leafCert "LEAF-PEM"
           [Samples.rootCa; Samples.intermediateCa]).
  - unfold maxDepth. lia.
  - reflexivity.
  - reflexivity.
Defined.

End PemChainFacts.
